(** * libfiemap image manager: mapping, unmapping and removal of backing images

    A shallow embedding of [src/libfiemap/image_manager.cpp].  The C++ methods
    of [ImageManager] and [MappedDevice] become functions in a small state
    monad over a [World]: the system properties, the status files, the live
    device-mapper nodes, the attached loop devices, the backing files and the
    persisted partition metadata, together with the ordered trace of every
    call made to a collaborator (libdm, LoopControl, SplitFiemap, liblp
    metadata, android-base).  Whether a collaborator call fails is decided by
    an [Env], which may look at the whole history of calls.  [LOG] / [PLOG]
    statements have no effect on the state and are left out. *)

From Stdlib Require Import ZArith Lia Ascii.
From stdpp Require Import gmap strings list fin_maps.

Local Open Scope Z_scope.

(** ** Strings *)

(** The newline character and the one-character strings used as separators. *)
Definition nl_char : ascii := "010"%char.
Definition colon_char : ascii := ":"%char.
Definition nl : string := String nl_char "".

(** [android::base::Split(s, d)] for a single delimiter character: the pieces
    between consecutive delimiters, empty pieces included; the empty string
    splits into one empty piece. *)
Fixpoint Split (s : string) (d : ascii) : list string :=
  match s with
  | EmptyString => [EmptyString]
  | String c r =>
      if Ascii.eqb c d then EmptyString :: Split r d
      else match Split r d with
           | h :: t => String c h :: t
           | [] => [String c EmptyString]
           end
  end.

(** [android::base::Join(lines, sep)]. *)
Fixpoint Join (lines : list string) (sep : string) : string :=
  match lines with
  | [] => ""
  | [l] => l
  | l :: rest => l +:+ sep +:+ Join rest sep
  end.

(** [android::base::StartsWith(s, prefix)]. *)
Definition StartsWith (s p : string) : bool := String.prefix p s.

(** [s] holds no occurrence of the character [d]. *)
Fixpoint free_of (d : ascii) (s : string) : bool :=
  match s with
  | EmptyString => true
  | String c r => negb (Ascii.eqb c d) && free_of d r
  end.

(** A name that can stand after the tag of a status line: no colon, no
    newline. *)
Definition plain_name (s : string) : bool := free_of colon_char s && free_of nl_char s.

(** ** Data *)

(** [uint64_t] arithmetic wraps around. *)
Definition u64 (x : Z) : Z := x mod 2 ^ 64.

Definition LP_SECTOR_SIZE : Z := 512.

(** One [DmTargetLinear] of a [DmTable]. *)
Record DmTargetLinear := mkLinear {
  start_sector : Z;
  length_sectors : Z;
  block_device : string;
  physical_sector : Z
}.

Definition DmTable := list DmTargetLinear.

Inductive DmDeviceState := INVALID | SUSPENDED | ACTIVE.

Definition is_INVALID (s : DmDeviceState) : bool :=
  match s with INVALID => true | _ => false end.

(** A partition of the persisted [LpMetadata]: its name, its size in bytes
    and its read-only attribute. *)
Record Partition := mkPartition {
  p_name : string;
  p_size : Z;
  p_readonly : bool
}.

Record LpMetadata := mkMetadata { partitions : list Partition }.

(** Every call the image manager makes to a collaborator. *)
Inductive Call :=
| call_GetProperty (key : string)
| call_SetProperty (key value : string)
| call_dm_GetState (name : string)
| call_dm_CreateDevice (name : string) (table : DmTable) (timeout_ms : Z)
| call_dm_DeleteDevice (name : string)
| call_dm_DeleteDeviceIfExists (name : string)
| call_CreateLogicalPartition (name : string) (timeout_ms : Z)
| call_DestroyLogicalPartition (name : string)
| call_loop_Attach (file : string) (timeout_ms : Z)
| call_loop_Detach (device : string)
| call_loop_EnableDirectIo (device : string)
| call_open (path : string)
| call_get_block_device_size (path : string)
| call_WriteFully (path : string) (len : Z)
| call_ReadFileToString (path : string)
| call_WriteStringToFile (content path : string)
| call_RemoveFileIfExists (path : string)
| call_SplitFiemap_Create (path : string) (size : Z)
| call_RemoveSplitFiles (path : string)
| call_GetSplitFileList (path : string)
| call_GetBlockDeviceForFile (path : string)
| call_GetDevicePathForFile (path : string)
| call_MetadataExists (dir : string)
| call_OpenMetadata (dir : string)
| call_UpdateMetadata (dir name : string) (size : Z) (readonly : bool)
| call_RemoveImageMetadata (dir name : string)
| call_RemoveAllMetadata (dir : string).

(** The state the image manager acts on. *)
Record World := mkWorld {
  props : gmap string string;       (* system properties *)
  files : gmap string string;       (* status files: path to content *)
  dm_nodes : gset string;           (* live device-mapper nodes, by name *)
  loops : gset string;              (* attached loop devices, by path *)
  images : gset string;             (* header paths whose backing files exist *)
  metadata : option LpMetadata;     (* the store under the metadata directory *)
  trace : list Call                 (* collaborator calls, oldest first *)
}.

Definition set_props (f : gmap string string → gmap string string) (w : World) : World :=
  mkWorld (f (props w)) (files w) (dm_nodes w) (loops w) (images w) (metadata w) (trace w).
Definition set_files (f : gmap string string → gmap string string) (w : World) : World :=
  mkWorld (props w) (f (files w)) (dm_nodes w) (loops w) (images w) (metadata w) (trace w).
Definition set_dm_nodes (f : gset string → gset string) (w : World) : World :=
  mkWorld (props w) (files w) (f (dm_nodes w)) (loops w) (images w) (metadata w) (trace w).
Definition set_loops (f : gset string → gset string) (w : World) : World :=
  mkWorld (props w) (files w) (dm_nodes w) (f (loops w)) (images w) (metadata w) (trace w).
Definition set_images (f : gset string → gset string) (w : World) : World :=
  mkWorld (props w) (files w) (dm_nodes w) (loops w) (f (images w)) (metadata w) (trace w).
Definition set_metadata (m : option LpMetadata) (w : World) : World :=
  mkWorld (props w) (files w) (dm_nodes w) (loops w) (images w) m (trace w).
Definition log (c : Call) (w : World) : World :=
  mkWorld (props w) (files w) (dm_nodes w) (loops w) (images w) (metadata w) (trace w ++ [c]).

(** What the surroundings decide: which calls fail (given the calls made so
    far), whether a write to a file that fails had opened the file, the paths
    the kernel hands out, what the extent writer reports, the clock, and the
    flag bits declared in [image_manager.h]. *)
Record Env := mkEnv {
  fails : list Call → Call → bool;
  write_opened : list Call → string → bool;
  loop_path : string → string;
  dm_path : string → string;
  block_device_for_file : string → string * bool;
  device_path_for_file : string → string;
  split_file_list : string → list string;
  block_device_size : string → Z;
  next_fd : list Call → N;
  now : list Call → Z;
  CREATE_IMAGE_READONLY : Z;
  CREATE_IMAGE_ZERO_FILL : Z
}.

(** ** The state monad *)

Definition M (A : Type) : Type := World → A * World.

Definition ret {A} (a : A) : M A := fun w => (a, w).
Definition bind {A B} (m : M A) (k : A → M B) : M B :=
  fun w => let '(a, w') := m w in k a w'.

Declare Scope im_scope.
Delimit Scope im_scope with im.
Notation "x <- m ;; k" := (bind m (fun x => k))
  (at level 100, m at next level, right associativity) : im_scope.
Notation "m ;;; k" := (bind m (fun _ => k))
  (at level 100, right associativity) : im_scope.
Local Open Scope im_scope.
(** ** Collaborators *)

Section Collaborators.

Variable e : Env.

(** A call that can fail: it is recorded, and takes effect only when the
    surroundings let it succeed. *)
Definition attempt (c : Call) (effect : World → World) : M bool :=
  fun w => if fails e (trace w) c then (false, log c w) else (true, effect (log c w)).

(** [android::base::GetProperty(key, "")] and [android::base::SetProperty]. *)
Definition GetProperty (key : string) : M string :=
  fun w => (default "" (props w !! key), log (call_GetProperty key) w).

Definition SetProperty (key value : string) : M bool :=
  attempt (call_SetProperty key value) (set_props <[key:=value]>).

(** [DeviceMapper]: a node is live from its creation to its deletion. *)
Definition dm_GetState (name : string) : M DmDeviceState :=
  fun w => (if decide (name ∈ dm_nodes w) then ACTIVE else INVALID, log (call_dm_GetState name) w).

Definition dm_CreateDevice (name : string) (table : DmTable) (timeout_ms : Z)
    (path : string) : M (bool * string) :=
  ok <- attempt (call_dm_CreateDevice name table timeout_ms) (set_dm_nodes (fun s => {[name]} ∪ s)) ;;
  ret (ok, if ok then dm_path e name else path).

Definition dm_DeleteDevice (name : string) : M bool :=
  fun w => if decide (name ∈ dm_nodes w)
           then attempt (call_dm_DeleteDevice name) (set_dm_nodes (fun s => s ∖ {[name]})) w
           else (false, log (call_dm_DeleteDevice name) w).

Definition dm_DeleteDeviceIfExists (name : string) : M bool :=
  fun w => if decide (name ∈ dm_nodes w)
           then attempt (call_dm_DeleteDeviceIfExists name) (set_dm_nodes (fun s => s ∖ {[name]})) w
           else (true, log (call_dm_DeleteDeviceIfExists name) w).

(** [android::fs_mgr::CreateLogicalPartition] builds the linear table of the
    named partition from its extents and creates the node; on success the
    node's path is stored through [path]. *)
Definition CreateLogicalPartition (name : string) (timeout_ms : Z)
    (path : string) : M (bool * string) :=
  ok <- attempt (call_CreateLogicalPartition name timeout_ms)
                (set_dm_nodes (fun s => {[name]} ∪ s)) ;;
  ret (ok, if ok then dm_path e name else path).

Definition DestroyLogicalPartition (name : string) : M bool :=
  fun w => if decide (name ∈ dm_nodes w)
           then attempt (call_DestroyLogicalPartition name)
                        (set_dm_nodes (fun s => s ∖ {[name]})) w
           else (true, log (call_DestroyLogicalPartition name) w).

(** [LoopControl]. *)
Definition loop_Attach (file : string) (timeout_ms : Z) (path : string) : M (bool * string) :=
  ok <- attempt (call_loop_Attach file timeout_ms) (set_loops (fun s => {[loop_path e file]} ∪ s)) ;;
  ret (ok, if ok then loop_path e file else path).

Definition loop_Detach (device : string) : M bool :=
  attempt (call_loop_Detach device) (set_loops (fun s => s ∖ {[device]})).

Definition loop_EnableDirectIo (device : string) : M bool :=
  attempt (call_loop_EnableDirectIo device) id.

(** [open(2)]: a descriptor, or -1. *)
Definition sys_open (path : string) : M Z :=
  fun w => (if fails e (trace w) (call_open path) then -1 else Z.of_N (next_fd e (trace w)),
            log (call_open path) w).

Definition get_block_device_size (path : string) : M Z :=
  fun w => (u64 (block_device_size e path), log (call_get_block_device_size path) w).

Definition WriteFully (path : string) (len : Z) : M bool :=
  attempt (call_WriteFully path len) id.

(** [android::base] file helpers, on the status files. *)
Definition ReadFileToString (path : string) : M (option string) :=
  fun w => (match files w !! path with
            | Some content => if fails e (trace w) (call_ReadFileToString path) then None
                              else Some content
            | None => None
            end, log (call_ReadFileToString path) w).

(** What a [WriteStringToFile] that fails leaves.  The helper opens its file
    with [O_CREAT] and [O_TRUNC] and writes the content; it fails either at
    the open, and then the file is as it was, or at the write, and then it
    unlinks the file before it returns: a content the file had before does
    not outlive a write that failed after the open. *)
Definition after_failed_write (path : string) (w : World) : World :=
  if write_opened e (trace w) path then set_files (delete path) w else w.

(** On success the file holds the content. *)
Definition WriteStringToFile (content path : string) : M bool :=
  fun w =>
    let c := call_WriteStringToFile content path in
    if fails e (trace w) c then (false, log c (after_failed_write path w))
    else (true, set_files <[path:=content]> (log c w)).

Definition RemoveFileIfExists (path : string) : M bool :=
  attempt (call_RemoveFileIfExists path) (set_files (delete path)).

(** Modelled from the spec: the extent writer of [split_fiemap_writer.h]
    ([Create], [RemoveSplitFiles], [GetSplitFileList],
    [GetBlockDeviceForFile]) and [GetDevicePathForFile] of [utility.h], by
    their consumed interface: creation puts the backing files of a header
    path on disk, removal takes them away, the other three report.  Letting
    go of the handle [Create] returns leaves the files where they are. *)
Definition SplitFiemap_Create (path : string) (size : Z) : M bool :=
  attempt (call_SplitFiemap_Create path size) (set_images (fun s => {[path]} ∪ s)).

Definition SplitFiemap_RemoveSplitFiles (path : string) : M bool :=
  attempt (call_RemoveSplitFiles path) (set_images (fun s => s ∖ {[path]})).

Definition SplitFiemap_GetSplitFileList (path : string) : M (option (list string)) :=
  fun w => (if fails e (trace w) (call_GetSplitFileList path) then None
            else Some (split_file_list e path), log (call_GetSplitFileList path) w).

Definition FiemapWriter_GetBlockDeviceForFile (path : string) : M (option (string * bool)) :=
  fun w => (if fails e (trace w) (call_GetBlockDeviceForFile path) then None
            else Some (block_device_for_file e path), log (call_GetBlockDeviceForFile path) w).

Definition GetDevicePathForFile (path : string) : M string :=
  fun w => (device_path_for_file e path, log (call_GetDevicePathForFile path) w).

(** Modelled from the spec: the metadata adapter of [metadata.h]
    ([MetadataExists], [OpenMetadata], [FindPartition], [GetPartitionSize],
    [UpdateMetadata], [RemoveImageMetadata], [RemoveAllMetadata]), by its
    consumed interface: one store per metadata directory, holding one
    partition per image. *)
Definition MetadataExists (dir : string) : M bool :=
  fun w => (bool_decide (is_Some (metadata w)), log (call_MetadataExists dir) w).

Definition OpenMetadata (dir : string) : M (option LpMetadata) :=
  fun w => (if fails e (trace w) (call_OpenMetadata dir) then None else metadata w,
            log (call_OpenMetadata dir) w).

Definition GetPartitionName (p : Partition) : string := p_name p.

Definition FindPartition (md : LpMetadata) (name : string) : option Partition :=
  List.find (fun p => String.eqb (GetPartitionName p) name) (partitions md).

Definition GetPartitionSize (md : LpMetadata) (p : Partition) : Z := u64 (p_size p).

Definition without_partition (name : string) (m : option LpMetadata) : list Partition :=
  match m with
  | Some md => List.filter (fun p => negb (String.eqb (GetPartitionName p) name)) (partitions md)
  | None => []
  end.

Definition UpdateMetadata (dir name : string) (size : Z) (readonly : bool) : M bool :=
  attempt (call_UpdateMetadata dir name size readonly)
    (fun w => set_metadata
       (Some (mkMetadata (without_partition name (metadata w) ++ [mkPartition name size readonly]))) w).

Definition RemoveImageMetadata (dir name : string) : M bool :=
  fun w => match metadata w with
           | Some md => attempt (call_RemoveImageMetadata dir name)
                          (set_metadata (Some (mkMetadata (without_partition name (Some md))))) w
           | None => (false, log (call_RemoveImageMetadata dir name) w)
           end.

Definition RemoveAllMetadata (dir : string) : M bool :=
  attempt (call_RemoveAllMetadata dir) (set_metadata None).

(** Modelled from the spec: [JoinPaths] of [utility.h]; a file of a directory
    lives at the directory's path, a slash, and the file's name. *)
Definition JoinPaths (dir file : string) : string := dir +:+ "/" +:+ file.

End Collaborators.

(** ** ImageManager *)

Record ImageManager := mkImageManager {
  metadata_dir_ : string;
  data_dir_ : string
}.

Definition kTestImageMetadataDir : string := "/metadata/gsi/test".

(** [std::vector::back()]; the source calls it on a vector it expects to be
    non-empty.  On an empty one C++ leaves the behaviour undefined; the model
    yields the empty string there, and the properties below that pass through
    it are stated for non-empty vectors or about a given outcome. *)
Definition back (v : list string) : string := default "" (last v).

Section Manager.

Variable e : Env.
Variable this : ImageManager.

Definition GetImageHeaderPath (name : string) : string :=
  JoinPaths (data_dir_ this) name +:+ ".img".

Definition GetStatusFilePath (image_name : string) : string :=
  JoinPaths (metadata_dir_ this) image_name +:+ ".status".

Definition GetStatusPropertyName (image_name : string) : string :=
  "gsid.mapped_image." +:+ image_name.

Definition IsImageMapped (image_name : string) : M bool :=
  let prop_name := GetStatusPropertyName image_name in
  v <- GetProperty prop_name ;;
  if String.eqb v "" then
    (* If mapped in first-stage init, the dm-device will exist but not the
       property. *)
    s <- dm_GetState image_name ;;
    ret (negb (is_INVALID s))
  else ret true.

Definition DeleteBackingImage (name : string) : M bool :=
  mapped <- IsImageMapped name ;;
  if mapped then ret false
  else
    let header_file := GetImageHeaderPath name in
    removed <- SplitFiemap_RemoveSplitFiles e header_file ;;
    if negb removed then ret false
    else
      let status_file := GetStatusFilePath name in
      _ <- RemoveFileIfExists e status_file ;;
      RemoveImageMetadata e (metadata_dir_ this) name.

(** Create a block device for an image file, using its extents in its
    lp_metadata.  The out-parameter [path] is threaded: the function returns
    its success and the value [*path] holds afterwards. *)
Definition MapWithDmLinear (name : string) (timeout_ms : Z) (path : string)
    : M (bool * string) :=
  metadata <- OpenMetadata e (metadata_dir_ this) ;;
  match metadata with
  | None => ret (false, path)
  | Some _ =>
      r <- CreateLogicalPartition e name timeout_ms path ;;
      let '(created, path) := r in
      if negb created then ret (false, path)
      else
        let status_string := "dm:" +:+ name in
        let status_file := GetStatusFilePath name in
        written <- WriteStringToFile e status_string status_file ;;
        if negb written then
          _ <- DestroyLogicalPartition e name ;;
          ret (false, path)
        else ret (true, path)
  end.

(** Helper to create a loop device for a file. *)
Definition CreateLoopDevice (file : string) (timeout_ms : Z) (path : string)
    : M (bool * string) :=
  file_fd <- sys_open e file ;;
  if file_fd <? 0 then ret (false, path)
  else loop_Attach e file timeout_ms path.

(** [~AutoDetachLoopDevices] when [Commit] was not called: every device of
    the vector the guard refers to is detached, results ignored. *)
Fixpoint AutoDetachLoopDevices (devices : list string) : M unit :=
  match devices with
  | [] => ret tt
  | device :: rest => _ <- loop_Detach e device ;; AutoDetachLoopDevices rest
  end.

(** The loop of [MapWithLoopDeviceList] that fills the [DmTable]; [None] when
    a loop device cannot be opened. *)
Fixpoint fill_table (device_list : list string) (start_sector sectors_needed : Z)
    (table : DmTable) : M (option DmTable) :=
  match device_list with
  | [] => ret (Some table)
  | block_device :: rest =>
      fd <- sys_open e block_device ;;
      if fd <? 0 then ret None
      else
        file_size <- get_block_device_size e block_device ;;
        let file_sectors := file_size / LP_SECTOR_SIZE in
        let segment_size := Z.min file_sectors sectors_needed in
        let table := table ++ [mkLinear start_sector segment_size block_device 0] in
        let start_sector := u64 (start_sector + segment_size) in
        let sectors_needed := u64 (sectors_needed - segment_size) in
        if sectors_needed =? 0 then ret (Some table)
        else fill_table rest start_sector sectors_needed table
  end.

(** The lines of the status file of a device-mapper node over loop devices. *)
Definition status_lines (name : string) (device_list : list string) : list string :=
  ("dm:" +:+ name) :: List.map (fun block_device => "loop:" +:+ block_device) device_list.

(** If an image is stored across multiple files, this takes a list of loop
    devices and joins them together using device-mapper. *)
Definition MapWithLoopDeviceList (device_list : list string) (name : string)
    (timeout_ms : Z) (path : string) : M (bool * string) :=
  metadata <- OpenMetadata e (metadata_dir_ this) ;;
  match metadata with
  | None => ret (false, path)
  | Some md =>
      match FindPartition md name with
      | None => ret (false, path)
      | Some partition =>
          let partition_size := GetPartitionSize md partition in
          if negb (partition_size mod LP_SECTOR_SIZE =? 0) then ret (false, path)
          else
            let sectors_needed := partition_size / LP_SECTOR_SIZE in
            filled <- fill_table device_list 0 sectors_needed [] ;;
            match filled with
            | None => ret (false, path)
            | Some table =>
                r <- dm_CreateDevice e name table timeout_ms path ;;
                let '(created, path) := r in
                if negb created then ret (false, path)
                else
                  (* Build the status file. *)
                  let lines := status_lines name device_list in
                  let status_message := Join lines nl in
                  let status_file := GetStatusFilePath name in
                  written <- WriteStringToFile e status_message status_file ;;
                  if negb written then
                    _ <- dm_DeleteDevice e name ;;
                    ret (false, path)
                  else ret (true, path)
            end
      end
  end.

Fixpoint OptimizeLoopDevices (device_list : list string) : M bool :=
  match device_list with
  | [] => ret true
  | device :: rest =>
      fd <- sys_open e device ;;
      if fd <? 0 then ret false
      else
        enabled <- loop_EnableDirectIo e device ;;
        if negb enabled then ret false else OptimizeLoopDevices rest
  end.

Definition steady_clock_now : M Z := fun w => (now e (trace w), w).

(** The loop of [MapWithLoopDevice] that maps each image file as a loopback
    device; it stops at the first file that cannot be attached. *)
Fixpoint attach_files (file_list : list string) (timeout_ms start_time : Z)
    (loop_devices : list string) : M (list string) :=
  match file_list with
  | [] => ret loop_devices
  | file :: rest =>
      t <- steady_clock_now ;;
      let elapsed := t - start_time in
      r <- CreateLoopDevice file (timeout_ms - elapsed) "" ;;
      let '(attached, loop_device) := r in
      if negb attached then ret loop_devices
      else attach_files rest timeout_ms start_time (loop_devices ++ [loop_device])
  end.

(** Helper to use one or more loop devices around image files.  Every
    [return false] after the guard [auto_detach] is constructed runs its
    destructor on the devices attached so far. *)
Definition MapWithLoopDevice (name : string) (timeout_ms : Z) (path : string)
    : M (bool * string) :=
  let image_header := GetImageHeaderPath name in
  listed <- SplitFiemap_GetSplitFileList e image_header ;;
  match listed with
  | None => ret (false, path)
  | Some file_list =>
      start_time <- steady_clock_now ;;
      loop_devices <- attach_files file_list timeout_ms start_time [] ;;
      if negb (Nat.eqb (length loop_devices) (length file_list)) then
        (* The number of devices will mismatch if CreateLoopDevice() failed. *)
        _ <- AutoDetachLoopDevices loop_devices ;;
        ret (false, path)
      else
        optimized <- OptimizeLoopDevices loop_devices ;;
        if negb optimized then
          _ <- AutoDetachLoopDevices loop_devices ;;
          ret (false, path)
        else
          r <- (if Nat.ltb 1 (length loop_devices)
                then MapWithLoopDeviceList loop_devices name timeout_ms path
                else ret (true, path)) ;;
          let '(joined, path) := r in
          if negb joined then
            _ <- AutoDetachLoopDevices loop_devices ;;
            ret (false, path)
          else
            let status_message := "loop:" +:+ back loop_devices in
            let status_file := GetStatusFilePath name in
            written <- WriteStringToFile e status_message status_file ;;
            if negb written then
              _ <- AutoDetachLoopDevices loop_devices ;;
              ret (false, path)
            else
              (* auto_detach.Commit() *)
              ret (true, back loop_devices)
  end.

(** The loop of [UnmapImageDevice] over the lines of the status file; [false]
    when it returns from the function early. *)
Fixpoint unmap_lines (lines : list string) : M bool :=
  match lines with
  | [] => ret true
  | line :: rest =>
      match Split line colon_char with
      | [tag; arg] =>
          if String.eqb tag "dm" then
            (* Failure to remove a dm node is fatal, since we can't safely
               remove the file or loop devices. *)
            deleted <- dm_DeleteDeviceIfExists e arg ;;
            if negb deleted then ret false else unmap_lines rest
          else if String.eqb tag "loop" then
            (* Failure to remove a loop device is not fatal, since we can
               still remove the backing file if we want. *)
            _ <- loop_Detach e arg ;;
            unmap_lines rest
          else unmap_lines rest
      | _ => unmap_lines rest
      end
  end.

(** The test [!force && !IsImageMapped(name)]: the mapped state is consulted
    only when the unmap is not forced. *)
Definition unmap_refused (name : string) (force : bool) : M bool :=
  if negb force then
    mapped <- IsImageMapped name ;;
    ret (negb mapped)
  else ret false.

Definition UnmapImageDevice (name : string) (force : bool) : M bool :=
  refused <- unmap_refused name force ;;
  if refused then ret false
  else
    let status_file := GetStatusFilePath name in
    read <- ReadFileToString e status_file ;;
    match read with
    | None => ret false
    | Some status =>
        let lines := Split status nl_char in
        replayed <- unmap_lines lines ;;
        if negb replayed then ret false
        else
          _ <- RemoveFileIfExists e status_file ;;
          let status_prop := GetStatusPropertyName name in
          _ <- SetProperty e status_prop "" ;;
          ret true
    end.

Definition MapImageDevice (name : string) (timeout_ms : Z) (path : string)
    : M (bool * string) :=
  mapped <- IsImageMapped name ;;
  if mapped then ret (false, path)
  else
    let image_header := GetImageHeaderPath name in
    found <- FiemapWriter_GetBlockDeviceForFile e image_header ;;
    match found with
    | None => ret (false, path)
    | Some (block_device, can_use_devicemapper) =>
        r <- (if can_use_devicemapper
              then MapWithDmLinear name timeout_ms path
              else MapWithLoopDevice name timeout_ms path) ;;
        let '(ok, path) := r in
        if negb ok then ret (false, path)
        else
          (* Set a property so we remember this is mapped. *)
          let prop_name := GetStatusPropertyName name in
          set <- SetProperty e prop_name path ;;
          if negb set then
            _ <- UnmapImageDevice name true ;;
            ret (false, path)
          else ret (true, path)
    end.

(** The loop of [RemoveAllImages]: [ok &= DeleteBackingImage(name)] for
    every partition. *)
Fixpoint delete_partitions (ps : list Partition) (ok : bool) : M bool :=
  match ps with
  | [] => ret ok
  | partition :: rest =>
      let partition_name := GetPartitionName partition in
      deleted <- DeleteBackingImage partition_name ;;
      delete_partitions rest (ok && deleted)
  end.

Definition RemoveAllImages : M bool :=
  present <- MetadataExists (metadata_dir_ this) ;;
  if negb present then ret true
  else
    metadata <- OpenMetadata e (metadata_dir_ this) ;;
    match metadata with
    | None => RemoveAllMetadata e (metadata_dir_ this)
    | Some md =>
        ok <- delete_partitions (partitions md) true ;;
        if ok then RemoveAllMetadata e (metadata_dir_ this) else ret false
    end.

(** ** MappedDevice *)

Record MappedDevice := mkMappedDevice {
  name_ : string;
  path_ : string;
  fd_ : Z
}.

(** The constructor: the device is already mapped; try and open it. *)
Definition MappedDevice_new (name path : string) : M MappedDevice :=
  fd <- sys_open e path ;;
  ret (mkMappedDevice name path fd).

(** The destructor: the descriptor is closed and the image unmapped. *)
Definition MappedDevice_delete (d : MappedDevice) : M unit :=
  _ <- UnmapImageDevice (name_ d) false ;;
  ret tt.

(** [MappedDevice::Open].  When the descriptor is negative, [return nullptr]
    lets the [unique_ptr] that owns the new device go out of scope, which
    runs the destructor. *)
Definition MappedDevice_Open (timeout_ms : Z) (name : string) : M (option MappedDevice) :=
  r <- MapImageDevice name timeout_ms "" ;;
  let '(mapped, path) := r in
  if negb mapped then ret None
  else
    device <- MappedDevice_new name path ;;
    if fd_ device <? 0 then
      _ <- MappedDevice_delete device ;;
      ret None
    else ret (Some device).

(** ** Creating images *)

Definition kChunkSize : Z := 4096.

(** The loop [while (remaining)] of [ZeroFillNewImage].  Every round writes at
    least one byte, so [fuel] rounds suffice once [remaining <= fuel]. *)
Fixpoint write_zeroes (fuel : nat) (path : string) (remaining : Z) : M bool :=
  if remaining =? 0 then ret true
  else
    match fuel with
    | O => ret true
    | S fuel =>
        let to_write := Z.min kChunkSize remaining in
        written <- WriteFully e path to_write ;;
        if negb written then ret false
        else write_zeroes fuel path (u64 (remaining - to_write))
    end.

Definition ZeroFillNewImage (name : string) : M bool :=
  let data_path := GetImageHeaderPath name in
  found <- FiemapWriter_GetBlockDeviceForFile e data_path ;;
  match found with
  | None => ret false
  | Some (block_device, can_use_devicemapper) =>
      if negb can_use_devicemapper then
        (* We've backed with loop devices, and since we store files in an
           unencrypted folder, the initial zeroes we wrote will suffice. *)
        ret true
      else
        opened <- MappedDevice_Open 10000 name ;;
        match opened with
        | None => ret false
        | Some device =>
            remaining <- get_block_device_size e (path_ device) ;;
            if remaining =? 0 then
              _ <- MappedDevice_delete device ;;
              ret false
            else
              done <- write_zeroes (Z.to_nat remaining) (path_ device) remaining ;;
              _ <- MappedDevice_delete device ;;
              ret done
        end
  end.

Definition CreateBackingImage (name : string) (size : Z) (flags : Z) : M bool :=
  let data_path := GetImageHeaderPath name in
  fw <- SplitFiemap_Create e data_path size ;;
  if negb fw then ret false
  else
    device_path <- GetDevicePathForFile e data_path ;;
    if StartsWith device_path "/dev/block/dm-" &&
       negb (StartsWith (metadata_dir_ this) kTestImageMetadataDir) then
      _ <- SplitFiemap_RemoveSplitFiles e data_path ;;
      ret false
    else
      let readonly := negb (Z.land flags (CREATE_IMAGE_READONLY e) =? 0) in
      updated <- UpdateMetadata e (metadata_dir_ this) name size readonly ;;
      if negb updated then ret false
      else if negb (Z.land flags (CREATE_IMAGE_ZERO_FILL e) =? 0) then
        filled <- ZeroFillNewImage name ;;
        if negb filled then
          _ <- DeleteBackingImage name ;;
          ret false
        else ret true
      else ret true.

End Manager.

(** ** The rest of the facade *)

(** [ImageManager::Open(metadata_dir, data_dir)] and
    [ImageManager::Open(dir_prefix)]; the partition opener the constructor
    installs plays no part in what follows. *)
Definition ImageManager_Open_dirs (metadata_dir data_dir : string) : ImageManager :=
  mkImageManager metadata_dir data_dir.

Definition ImageManager_Open (dir_prefix : string) : ImageManager :=
  let metadata_dir := "/metadata/gsi/" +:+ dir_prefix in
  let data_dir := "/data/gsi/" +:+ dir_prefix in
  ImageManager_Open_dirs metadata_dir data_dir.

Section Facade.

Variable e : Env.
Variable this : ImageManager.

(** [DeviceMapper::GetDeviceString], a query of the kernel: [None] when it
    fails, else the string it stores through [dev]. *)
Variable dm_GetDeviceString : string → World → option string.

(** [SplitFiemap::HasPinnedExtents] on the image whose header is given. *)
Variable HasPinnedExtents : string → World → bool.

Definition PartitionExists (name : string) : M bool :=
  present <- MetadataExists (metadata_dir_ this) ;;
  if negb present then ret false
  else
    metadata <- OpenMetadata e (metadata_dir_ this) ;;
    match metadata with
    | None => ret false
    | Some md => ret (bool_decide (is_Some (FindPartition md name)))
    end.

(** [access(header_file, F_OK) == 0]: a look at the disk that leaves no
    trace. *)
Definition BackingImageExists (name : string) : M bool :=
  let header_file := GetImageHeaderPath this name in
  fun w => (bool_decide (header_file ∈ images w), w).

Definition MapImageWithDeviceMapper (name : string) (dev : string) : M (bool * string) :=
  r <- MapWithDmLinear e this name 0 "" ;;
  let '(mapped, ignore_path) := r in
  if negb mapped then ret (false, dev)
  else
    fun w => match dm_GetDeviceString name w with
             | None => ((false, dev), w)
             | Some s => ((true, s), w)
             end.

(** Modelled from the spec: [SplitFiemap::Open] of [split_fiemap_writer.h],
    which hands out a handle when the backing files of the header are on
    disk. *)
Definition SplitFiemap_Open (path : string) : M bool :=
  fun w => (bool_decide (path ∈ images w), w).

(** The loop of [Validate] over the partitions of the metadata. *)
Fixpoint validate_partitions (ps : list Partition) : M bool :=
  match ps with
  | [] => ret true
  | partition :: rest =>
      let name := GetPartitionName partition in
      let image_path := GetImageHeaderPath this name in
      fiemap <- SplitFiemap_Open image_path ;;
      if negb fiemap then ret false
      else
        pinned <- (fun w => (HasPinnedExtents image_path w, w)) ;;
        if negb pinned then ret false
        else validate_partitions rest
  end.

Definition Validate : M bool :=
  metadata <- OpenMetadata e (metadata_dir_ this) ;;
  match metadata with
  | None => ret false
  | Some md => validate_partitions (partitions md)
  end.

End Facade.

(** ** Measures *)

(** The size of a loop device in sectors, as [MapWithLoopDeviceList] reads
    it. *)
Definition file_sectors (e : Env) (device : string) : Z :=
  u64 (block_device_size e device) / LP_SECTOR_SIZE.

Definition total_sectors (e : Env) (devices : list string) : Z :=
  List.fold_right (fun d n => file_sectors e d + n) 0 devices.

Definition table_length (table : DmTable) : Z :=
  List.fold_right (fun t n => length_sectors t + n) 0 table.

(** The targets follow one another from sector [start] on, each mapping its
    device from the device's first sector. *)
Fixpoint laid_end_to_end (start : Z) (table : DmTable) : bool :=
  match table with
  | [] => true
  | t :: rest =>
      (start_sector t =? start) && (physical_sector t =? 0) && (0 <=? length_sectors t)
      && laid_end_to_end (start + length_sectors t) rest
  end.

(** The sizes of the writes that fill [remaining] bytes with zeroes: whole
    chunks, then what is left. *)
Definition zero_chunks (remaining : Z) : list Z :=
  List.repeat kChunkSize (Z.to_nat (remaining / kChunkSize))
  ++ (if remaining mod kChunkSize =? 0 then [] else [remaining mod kChunkSize]).

(** How often the character [d] occurs in [s]. *)
Fixpoint count_char (d : ascii) (s : string) : nat :=
  match s with
  | EmptyString => O
  | String c r => if Ascii.eqb c d then S (count_char d r) else count_char d r
  end.

(** The calls that change what is mapped, stored or recorded. *)
Definition changing_call (c : Call) : bool :=
  match c with
  | call_GetProperty _ | call_dm_GetState _ | call_open _
  | call_get_block_device_size _ | call_ReadFileToString _
  | call_GetSplitFileList _ | call_GetBlockDeviceForFile _
  | call_GetDevicePathForFile _ | call_MetadataExists _ | call_OpenMetadata _ => false
  | _ => true
  end.

(** ** Observations *)

(** The calls that take a mapping apart or forget it. *)
Definition teardown_call (c : Call) : bool :=
  match c with
  | call_dm_DeleteDevice _ | call_dm_DeleteDeviceIfExists _
  | call_DestroyLogicalPartition _ | call_loop_Detach _
  | call_RemoveFileIfExists _ | call_SetProperty _ _ => true
  | _ => false
  end.

(** The call that removes the whole metadata store. *)
Definition removes_store (c : Call) : bool :=
  match c with call_RemoveAllMetadata _ => true | _ => false end.

(** [w'] differs from [w] by the calls [calls] only: they changed nothing. *)
Definition only_called (w w' : World) (calls : list Call) : Prop :=
  props w' = props w ∧ files w' = files w ∧ dm_nodes w' = dm_nodes w ∧
  loops w' = loops w ∧ images w' = images w ∧ metadata w' = metadata w ∧
  trace w' = trace w ++ calls.

(** Every image named in the metadata is given to [DeleteBackingImage], one
    after the other, and the outcomes are collected. *)
Fixpoint delete_each (e : Env) (this : ImageManager) (names : list string)
    : M (list bool) :=
  match names with
  | [] => ret []
  | name :: rest =>
      deleted <- DeleteBackingImage e this name ;;
      others <- delete_each e this rest ;;
      ret (deleted :: others)
  end.

(** ** A device to run the manager on *)

Module Scenario.

Definition manager : ImageManager := mkImageManager "/metadata/gsi/dsu" "/data/gsi/dsu".

Definition one_file (header : string) : list string := [header].
Definition two_files (header : string) : list string :=
  [header +:+ ".0000"; header +:+ ".0001"].

(** A device whose userdata sits on [/dev/block/sda1]; [can_dm] says whether
    device-mapper can be stacked on it, [file_list] how images are split and
    [bad] which calls fail.  A write to a file that fails does so after the
    file was opened. *)
Definition device (bad : list Call → Call → bool) (can_dm : bool)
    (file_list : string → list string) : Env :=
  mkEnv bad
    (fun _ _ => true)
    (fun file => if String.eqb file "/data/gsi/dsu/img.img.0001"
                 then "/dev/block/loop1" else "/dev/block/loop0")
    (fun name => "/dev/block/mapper/" +:+ name)
    (fun _ => ("/dev/block/sda1", can_dm))
    (fun _ => "/dev/block/sda1")
    file_list
    (fun _ => 4096)
    (fun _ => 3%N)
    (fun _ => 0)
    1 2.

Definition never : list Call → Call → bool := fun _ _ => false.

Definition open_fails : list Call → Call → bool :=
  fun _ c => match c with call_open _ => true | _ => false end.

Definition dm_delete_fails : list Call → Call → bool :=
  fun _ c => match c with call_dm_DeleteDeviceIfExists _ => true | _ => false end.

Definition detach_fails : list Call → Call → bool :=
  fun _ c => match c with call_loop_Detach _ => true | _ => false end.

Definition read_fails : list Call → Call → bool :=
  fun _ c => match c with call_ReadFileToString _ => true | _ => false end.

Definition set_property_fails : list Call → Call → bool :=
  fun _ c => match c with call_SetProperty _ _ => true | _ => false end.

Definition update_metadata_fails : list Call → Call → bool :=
  fun _ c => match c with call_UpdateMetadata _ _ _ _ => true | _ => false end.

(** The write of a one-line [loop:] record fails, any other write succeeds. *)
Definition loop_record_write_fails : list Call → Call → bool :=
  fun _ c => match c with
             | call_WriteStringToFile content _ => String.prefix "loop:" content
             | _ => false
             end.

(** The image [img] of 8192 bytes, created and not mapped. *)
Definition unmapped : World :=
  mkWorld ∅ ∅ ∅ ∅ {["/data/gsi/dsu/img.img"]}
    (Some (mkMetadata [mkPartition "img" 8192 false])) [].

(** The same image mapped through a device-mapper node over two loop
    devices, with the record that lists all three. *)
Definition mapped_over_loops : World :=
  mkWorld {["gsid.mapped_image.img" := "/dev/block/mapper/img"]}
    {["/metadata/gsi/dsu/img.status" :=
        Join (status_lines "img" ["/dev/block/loop0"; "/dev/block/loop1"]) nl]}
    {["img"]} {["/dev/block/loop0"; "/dev/block/loop1"]}
    {["/data/gsi/dsu/img.img"]}
    (Some (mkMetadata [mkPartition "img" 8192 false])) [].

(** Three images [A], [B] and [C]; [A] is mapped by a device-mapper node. *)
Definition three_images : World :=
  mkWorld {["gsid.mapped_image.A" := "/dev/block/mapper/A"]}
    {["/metadata/gsi/dsu/A.status" := "dm:A"]}
    {["A"]} ∅
    {["/data/gsi/dsu/A.img"; "/data/gsi/dsu/B.img"; "/data/gsi/dsu/C.img"]}
    (Some (mkMetadata [mkPartition "A" 4096 false; mkPartition "B" 4096 false;
                       mkPartition "C" 4096 false])) [].

End Scenario.

(** ** More devices to run the manager on *)

Module Cases.

(** A device whose userdata sits on the device-mapper node [dm-4]. *)
Definition on_dm (bad : list Call → Call → bool) : Env :=
  mkEnv bad
    (fun _ _ => true)
    (fun _ => "/dev/block/loop0")
    (fun name => "/dev/block/mapper/" +:+ name)
    (fun _ => ("/dev/block/dm-4", true))
    (fun _ => "/dev/block/dm-4")
    Scenario.one_file
    (fun _ => 8192)
    (fun _ => 3%N)
    (fun _ => 0)
    1 2.

(** The second file of an image cannot be attached. *)
Definition second_attach_fails : list Call → Call → bool :=
  fun _ c => match c with
             | call_loop_Attach file _ => String.eqb file "/data/gsi/dsu/img.img.0001"
             | _ => false
             end.

(** The descriptor on a device cannot be opened once the property of a
    mapping is set: the mapping succeeds and the guard on it cannot open the
    device. *)
Definition guard_open_fails : list Call → Call → bool :=
  fun h c => match c with
             | call_open _ =>
                 existsb (fun c' => match c' with call_SetProperty _ _ => true | _ => false end) h
             | _ => false
             end.

(** A property can be emptied but not set. *)
Definition record_property_fails : list Call → Call → bool :=
  fun _ c => match c with
             | call_SetProperty _ value => negb (String.eqb value "")
             | _ => false
             end.

Definition write_fails : list Call → Call → bool :=
  fun _ c => match c with call_WriteStringToFile _ _ => true | _ => false end.

Definition open_metadata_fails : list Call → Call → bool :=
  fun _ c => match c with call_OpenMetadata _ => true | _ => false end.

(** The kernel reports the device string of a node that is live. *)
Definition device_string (name : string) (w : World) : option string :=
  if decide (name ∈ dm_nodes w) then Some "253:4" else None.

(** No device string can be had. *)
Definition no_device_string (name : string) (w : World) : option string := None.

(** Every image keeps its extents. *)
Definition all_pinned (path : string) (w : World) : bool := true.

(** The image [img], not mapped, with the record a mapping through a loop
    device left behind when the device went down. *)
Definition stale_record : World :=
  mkWorld ∅ {["/metadata/gsi/dsu/img.status" := "loop:/dev/block/loop0"]} ∅ ∅
    {["/data/gsi/dsu/img.img"]}
    (Some (mkMetadata [mkPartition "img" 8192 false])) [].

(** Two images [B] and [C], neither of them mapped. *)
Definition two_images : World :=
  mkWorld ∅ ∅ ∅ ∅ {["/data/gsi/dsu/B.img"; "/data/gsi/dsu/C.img"]}
    (Some (mkMetadata [mkPartition "B" 4096 false; mkPartition "C" 4096 false])) [].

End Cases.

(** * Properties *)

(** ** Running the monad *)

Lemma bind_unfold {A B} (m : M A) (k : A → M B) (w : World) :
  bind m k w = k (m w).1 (m w).2.
Proof. unfold bind. by destruct (m w). Qed.

(** Evaluate the applied [ret]s of the goal, leaving the others folded. *)
Ltac ret_step :=
  repeat match goal with
         | |- context [@ret ?A ?a ?w] => change (@ret A a w) with (a, w)
         end;
  cbn [fst snd negb].

(** ** Splitting and joining status files *)

Lemma Split_free (d : ascii) (s : string) :
  free_of d s = true → Split s d = [s].
Proof.
  induction s as [|c r IH]; simpl; [done|].
  intros [Hc Hr]%andb_prop.
  destruct (Ascii.eqb c d); [done|].
  by rewrite (IH Hr).
Qed.

Lemma Split_append (d : ascii) (a b : string) :
  free_of d a = true → Split (a +:+ String d b) d = a :: Split b d.
Proof.
  induction a as [|c r IH]; simpl.
  - intros _. by rewrite Ascii.eqb_refl.
  - intros [Hc Hr]%andb_prop.
    destruct (Ascii.eqb c d); [done|].
    by rewrite (IH Hr).
Qed.

Lemma Split_Join (d : ascii) (l : string) (ls : list string) :
  Forall (fun s => free_of d s = true) (l :: ls) →
  Split (Join (l :: ls) (String d "")) d = l :: ls.
Proof.
  revert l. induction ls as [|l' ls IH]; intros l Hall.
  - simpl. apply Split_free. by inversion Hall.
  - inversion Hall as [|? ? Hl Hrest]; subst.
    change (Join (l :: l' :: ls) (String d ""))
      with (l +:+ String d (Join (l' :: ls) (String d ""))).
    rewrite Split_append by done.
    by rewrite IH.
Qed.

Lemma Split_dm_line (x : string) :
  free_of colon_char x = true → Split ("dm:" +:+ x) colon_char = ["dm"; x].
Proof.
  intros Hx.
  change ("dm:" +:+ x) with (String "d" (String "m" (String ":" x))).
  simpl. by rewrite (Split_free _ _ Hx).
Qed.

Lemma Split_loop_line (x : string) :
  free_of colon_char x = true → Split ("loop:" +:+ x) colon_char = ["loop"; x].
Proof.
  intros Hx.
  change ("loop:" +:+ x)
    with (String "l" (String "o" (String "o" (String "p" (String ":" x))))).
  simpl. by rewrite (Split_free _ _ Hx).
Qed.

Lemma free_of_append (d : ascii) (a b : string) :
  free_of d (a +:+ b) = free_of d a && free_of d b.
Proof. induction a as [|c r IH]; simpl; [done|]. by rewrite IH, andb_assoc. Qed.

Lemma status_lines_free (x : string) (ls : list string) :
  plain_name x = true → Forall (fun l => plain_name l = true) ls →
  Forall (fun s => free_of nl_char s = true) (status_lines x ls).
Proof.
  unfold plain_name, status_lines. intros [_ Hx]%andb_prop Hls.
  constructor.
  - by rewrite free_of_append, Hx.
  - apply Forall_forall. intros s [l [<- Hl]]%list_elem_of_In%in_map_iff.
    rewrite Forall_forall in Hls.
    apply list_elem_of_In, Hls in Hl. apply andb_prop in Hl as [_ Hl].
    cbv beta. by rewrite free_of_append, Hl.
Qed.

(** ** What single collaborator calls leave behind *)

Section Calls.

Variable e : Env.

Lemma loop_Detach_trace (d : string) (w : World) :
  trace (snd (loop_Detach e d w)) = trace w ++ [call_loop_Detach d].
Proof. unfold loop_Detach, attempt. by destruct (fails _ _ _). Qed.

Lemma dm_DeleteDeviceIfExists_trace (n : string) (w : World) :
  trace (snd (dm_DeleteDeviceIfExists e n w)) = trace w ++ [call_dm_DeleteDeviceIfExists n].
Proof.
  unfold dm_DeleteDeviceIfExists, attempt.
  destruct (decide _); [|done]. by destruct (fails _ _ _).
Qed.

Lemma RemoveFileIfExists_trace (p : string) (w : World) :
  trace (snd (RemoveFileIfExists e p w)) = trace w ++ [call_RemoveFileIfExists p].
Proof. unfold RemoveFileIfExists, attempt. by destruct (fails _ _ _). Qed.

Lemma SetProperty_trace (k v : string) (w : World) :
  trace (snd (SetProperty e k v w)) = trace w ++ [call_SetProperty k v].
Proof. unfold SetProperty, attempt. by destruct (fails _ _ _). Qed.

Lemma ReadFileToString_world (p : string) (w : World) :
  snd (ReadFileToString e p w) = log (call_ReadFileToString p) w.
Proof. done. Qed.

(** A write that failed has touched nothing but, at most, its own file. *)
Lemma after_failed_write_frame (p : string) (w : World) :
  props (after_failed_write e p w) = props w ∧
  dm_nodes (after_failed_write e p w) = dm_nodes w ∧
  loops (after_failed_write e p w) = loops w ∧
  trace (after_failed_write e p w) = trace w.
Proof. unfold after_failed_write. by destruct (write_opened e _ _). Qed.

Lemma after_failed_write_files (p : string) (w : World) :
  files (after_failed_write e p w) = files w ∨
  files (after_failed_write e p w) = delete p (files w).
Proof. unfold after_failed_write. destruct (write_opened e _ _); [by right|by left]. Qed.

End Calls.

(** ** Unmapping *)

Section Unmap.

Variable e : Env.
Variable this : ImageManager.



Lemma only_called_refl (w : World) : only_called w w [].
Proof. unfold only_called. by rewrite app_nil_r. Qed.

Lemma only_called_log (w w' : World) (calls : list Call) (c : Call) :
  only_called w w' calls → only_called w (log c w') (calls ++ [c]).
Proof.
  unfold only_called. intros (? & ? & ? & ? & ? & ? & Ht). simpl.
  rewrite Ht. by rewrite <- app_assoc.
Qed.

(** The mapped-state test only reads, and a forced unmap skips it. *)
Lemma unmap_refused_only_called (name : string) (force : bool) (w : World) :
  ∃ calls, only_called w (snd (unmap_refused name force w)) calls ∧
           existsb teardown_call calls = false ∧
           (force = true → calls = []).
Proof.
  unfold unmap_refused. destruct force; cbn [negb].
  - exists []. split; [apply only_called_refl|done].
  - rewrite bind_unfold. unfold IsImageMapped. rewrite bind_unfold.
    unfold GetProperty at 1. cbn [fst snd].
    destruct (String.eqb _ ""); [rewrite bind_unfold|];
      unfold GetProperty, dm_GetState, ret; cbn [fst snd].
    + exists ([] ++ [call_GetProperty (GetStatusPropertyName name)]
                 ++ [call_dm_GetState name]).
      split; [|by split].
      rewrite app_assoc. apply only_called_log, only_called_log, only_called_refl.
    + exists ([] ++ [call_GetProperty (GetStatusPropertyName name)]).
      split; [|by split].
      apply only_called_log, only_called_refl.
Qed.

(** C9: when the status file of the image cannot be read, an unmap, forced
    or not, returns failure, and all it has done is to call collaborators
    that read: no device-mapper node is deleted, no loop device detached, no
    status file removed and no property set; properties, files, nodes and
    loop devices are as they were. *)
Theorem UnmapImageDevice_unreadable_record_no_teardown
    (name : string) (force : bool) (w : World) :
  fst (ReadFileToString e (GetStatusFilePath this name)
         (snd (unmap_refused name force w))) = None →
  let result := UnmapImageDevice e this name force w in
  fst result = false ∧
  ∃ calls, only_called w (snd result) calls ∧ existsb teardown_call calls = false.
Proof.
  intros Hread result. subst result.
  destruct (unmap_refused_only_called name force w) as (calls & Hcalls & Hquiet & _).
  unfold UnmapImageDevice. rewrite bind_unfold.
  destruct (unmap_refused name force w).1.
  - split; [done|]. by exists calls.
  - rewrite bind_unfold, Hread, ReadFileToString_world. split; [done|].
    exists (calls ++ [call_ReadFileToString (GetStatusFilePath this name)]).
    split; [by apply only_called_log|].
    by rewrite existsb_app, Hquiet.
Qed.

(** The replay only adds calls. *)
Lemma unmap_lines_extends (lines : list string) (w : World) :
  ∃ calls, trace (snd (unmap_lines e lines w)) = trace w ++ calls.
Proof.
  revert w. induction lines as [|line rest IH]; intros w.
  - exists []. unfold unmap_lines, ret. cbn [snd]. by rewrite app_nil_r.
  - cbn [unmap_lines].
    destruct (Split line colon_char) as [|tag [|arg [|]]]; try apply IH.
    destruct (String.eqb tag "dm").
    + rewrite bind_unfold.
      pose proof (dm_DeleteDeviceIfExists_trace e arg w) as Hdel.
      destruct (dm_DeleteDeviceIfExists e arg w) as [[] w1]; cbn [fst snd negb] in Hdel |- *.
      * destruct (IH w1) as (calls & ->). rewrite Hdel.
        eexists. by rewrite <- app_assoc.
      * unfold ret. cbn [snd]. by eexists.
    + destruct (String.eqb tag "loop"); [|apply IH].
      rewrite bind_unfold.
      destruct (IH (snd (loop_Detach e arg w))) as (calls & ->).
      rewrite loop_Detach_trace. eexists. by rewrite <- app_assoc.
Qed.

(** What follows the reading of the status file only adds calls. *)
Lemma forced_unmap_tail (name : string) (w : World) (read : option string) :
  ∃ rest,
    trace (snd (match read with
                | None => ret false
                | Some status =>
                    replayed <- unmap_lines e (Split status nl_char) ;;
                    if negb replayed then ret false
                    else
                      _ <- RemoveFileIfExists e (GetStatusFilePath this name) ;;
                      _ <- SetProperty e (GetStatusPropertyName name) "" ;;
                      ret true
                end w)) = trace w ++ rest.
Proof.
  destruct read as [status|]; [|exists []; unfold ret; cbn [snd]; by rewrite app_nil_r].
  rewrite bind_unfold.
  destruct (unmap_lines_extends (Split status nl_char) w) as (calls & Hcalls).
  destruct (unmap_lines e _ w) as [[] w1]; cbn [fst snd negb] in Hcalls |- *.
  - rewrite !bind_unfold. unfold ret. cbn [snd].
    rewrite SetProperty_trace, RemoveFileIfExists_trace, Hcalls.
    eexists. by rewrite <- !app_assoc.
  - unfold ret. cbn [snd]. by eexists.
Qed.

(** The replay of a record runs to its end when no deletion of a
    device-mapper node fails, whatever the loop detaches return. *)
Lemma unmap_lines_completes (lines : list string) (w : World) :
  (∀ h n, fails e h (call_dm_DeleteDeviceIfExists n) = false) →
  fst (unmap_lines e lines w) = true.
Proof.
  intros Hdm. revert w. induction lines as [|line rest IH]; intros w; [done|].
  cbn [unmap_lines].
  destruct (Split line colon_char) as [|tag [|arg [|]]]; try apply IH.
  destruct (String.eqb tag "dm").
  - rewrite bind_unfold.
    assert (fst (dm_DeleteDeviceIfExists e arg w) = true) as ->; [|apply IH].
    unfold dm_DeleteDeviceIfExists, attempt.
    destruct (decide _); [|done]. by rewrite Hdm.
  - destruct (String.eqb tag "loop"); [|apply IH].
    rewrite bind_unfold. apply IH.
Qed.

(** C6 (amended): an unmap that gets past its mapped-state test, reads the
    status record and replays it to the end, which it does unless the
    deletion of a device-mapper node fails, goes on to ask for the removal of
    the status file and then for the clearing of the property, and returns
    success; the outcomes of the loop detaches play no part. *)
Theorem UnmapImageDevice_completed_replay_clears
    (name : string) (force : bool) (status : string) (w : World) :
  fst (unmap_refused name force w) = false →
  let w1 := snd (unmap_refused name force w) in
  let status_file := GetStatusFilePath this name in
  fst (ReadFileToString e status_file w1) = Some status →
  let replay := unmap_lines e (Split status nl_char)
                  (log (call_ReadFileToString status_file) w1) in
  fst replay = true →
  let result := UnmapImageDevice e this name force w in
  fst result = true ∧
  trace (snd result) =
    trace (snd replay) ++ [call_RemoveFileIfExists status_file;
                           call_SetProperty (GetStatusPropertyName name) ""].
Proof.
  intros Hpass w1 status_file Hread replay Hreplay result.
  subst result replay status_file w1.
  unfold UnmapImageDevice.
  rewrite bind_unfold, Hpass, bind_unfold, Hread, ReadFileToString_world.
  rewrite bind_unfold, Hreplay. cbn [negb].
  rewrite !bind_unfold. unfold ret. cbn [fst snd]. split; [done|].
  rewrite SetProperty_trace, RemoveFileIfExists_trace.
  by rewrite <- app_assoc.
Qed.

End Unmap.


Lemma UnmapImageDevice_unreadable_record_no_teardown_witness :
  let e := Scenario.device Scenario.read_fails false Scenario.two_files in
  let result := UnmapImageDevice e Scenario.manager "img" true Scenario.mapped_over_loops in
  fst result = false ∧
  ∃ calls, only_called Scenario.mapped_over_loops (snd result) calls ∧
           existsb teardown_call calls = false.
Proof.
  intros e.
  apply (UnmapImageDevice_unreadable_record_no_teardown e Scenario.manager "img" true
           Scenario.mapped_over_loops).
  reflexivity.
Defined.

Lemma UnmapImageDevice_completed_replay_clears_witness :
  let e := Scenario.device Scenario.detach_fails false Scenario.two_files in
  let result := UnmapImageDevice e Scenario.manager "img" false Scenario.mapped_over_loops in
  fst result = true ∧
  trace (snd result) =
    [call_GetProperty "gsid.mapped_image.img";
     call_ReadFileToString "/metadata/gsi/dsu/img.status";
     call_dm_DeleteDeviceIfExists "img";
     call_loop_Detach "/dev/block/loop0";
     call_loop_Detach "/dev/block/loop1"]
    ++ [call_RemoveFileIfExists "/metadata/gsi/dsu/img.status";
        call_SetProperty "gsid.mapped_image.img" ""].
Proof.
  intros e.
  apply (UnmapImageDevice_completed_replay_clears e Scenario.manager "img" false
           (Join (status_lines "img" ["/dev/block/loop0"; "/dev/block/loop1"]) nl)
           Scenario.mapped_over_loops).
  - reflexivity.
  - reflexivity.
  - reflexivity.
Defined.

(** C6, as stated, fails: the deletion of the node [img] fails, the unmap
    returns at once, and neither the removal of the status file nor the
    clearing of the property is asked for; both stay as they were. *)
Lemma UnmapImageDevice_dm_failure_skips_clearing :
  let e := Scenario.device Scenario.dm_delete_fails false Scenario.two_files in
  let w := Scenario.mapped_over_loops in
  let result := UnmapImageDevice e Scenario.manager "img" false w in
  fst (unmap_refused "img" false w) = false ∧
  fst result = false ∧
  trace (snd result) =
    [call_GetProperty "gsid.mapped_image.img";
     call_ReadFileToString "/metadata/gsi/dsu/img.status";
     call_dm_DeleteDeviceIfExists "img"] ∧
  files (snd result) !! "/metadata/gsi/dsu/img.status" =
    Some (Join (status_lines "img" ["/dev/block/loop0"; "/dev/block/loop1"]) nl) ∧
  props (snd result) !! "gsid.mapped_image.img" = Some "/dev/block/mapper/img".
Proof. vm_compute. repeat split. Qed.

(** ** Mapping *)

Section Map.

Variable e : Env.
Variable this : ImageManager.

Lemma CreateLoopDevice_path (file : string) (timeout_ms : Z) (p : string) (w : World) :
  fst (fst (CreateLoopDevice e file timeout_ms p w)) = true →
  snd (fst (CreateLoopDevice e file timeout_ms p w)) = loop_path e file.
Proof.
  unfold CreateLoopDevice. rewrite bind_unfold.
  destruct (_ <? 0); [done|].
  unfold loop_Attach. rewrite bind_unfold. unfold ret. cbn [fst snd].
  by intros ->.
Qed.

(** When no attachment failed, the loop devices are those of the files, in
    file order. *)
Lemma attach_files_all (file_list : list string) (timeout_ms start_time : Z)
    (acc : list string) (w : World) :
  length (fst (attach_files e file_list timeout_ms start_time acc w)) =
    (length acc + length file_list)%nat →
  fst (attach_files e file_list timeout_ms start_time acc w) =
    acc ++ List.map (loop_path e) file_list.
Proof.
  revert acc w. induction file_list as [|file rest IH]; intros acc w; cbn [attach_files].
  - intros _. unfold ret. cbn [fst List.map]. by rewrite app_nil_r.
  - rewrite !bind_unfold. unfold steady_clock_now. cbn [fst snd].
    pose proof (CreateLoopDevice_path file (timeout_ms - (now e (trace w) - start_time)) "" w)
      as Hpath.
    destruct (CreateLoopDevice e file _ "" w) as [[attached device] w1].
    cbn [fst snd] in Hpath |- *.
    destruct attached; cbn [negb].
    + rewrite (Hpath eq_refl). intros Hlen.
      rewrite IH.
      * by rewrite <- app_assoc.
      * rewrite Hlen, length_app. simpl. lia.
    + unfold ret. cbn [fst]. simpl. lia.
Qed.

(** A successful [MapWithLoopDeviceList] leaves the node live, hands out its
    path and has written the record that lists the node and then every loop
    device. *)
Lemma MapWithLoopDeviceList_success (device_list : list string) (name : string)
    (timeout_ms : Z) (p path : string) (w w' : World) :
  MapWithLoopDeviceList e this device_list name timeout_ms p w = ((true, path), w') →
  name ∈ dm_nodes w' ∧ path = dm_path e name ∧
  files w' !! GetStatusFilePath this name = Some (Join (status_lines name device_list) nl).
Proof.
  unfold MapWithLoopDeviceList. rewrite bind_unfold.
  destruct (OpenMetadata e _ w) as [[md|] w1]; cbn [fst snd]; [|done].
  destruct (FindPartition md name) as [partition|]; [|done].
  destruct (_ =? 0); cbn [negb]; [|done].
  rewrite bind_unfold.
  destruct (fill_table e _ _ _ _ w1) as [[table|] w2]; cbn [fst snd]; [|done].
  rewrite bind_unfold. unfold dm_CreateDevice. rewrite bind_unfold.
  unfold attempt.
  destruct (fails e (trace w2) _); unfold ret; cbn [fst snd negb]; [done|].
  rewrite bind_unfold. unfold WriteStringToFile, attempt.
  destruct (fails e _ _); cbn [fst snd negb]; [by rewrite bind_unfold|].
  unfold ret. intros [= <- <-]. split; [|split; [done|]].
  - cbn [dm_nodes set_files set_dm_nodes log]. set_solver.
  - cbn [files set_files log]. apply lookup_insert_eq.
Qed.

(** A mapping through loop devices that succeeds has attached one loop
    device per backing file, returns the last of them, and leaves the status
    file with the single line naming that device. *)
Lemma MapWithLoopDevice_success (name : string) (timeout_ms : Z) (p path : string)
    (w w' : World) :
  MapWithLoopDevice e this name timeout_ms p w = ((true, path), w') →
  path = back (List.map (loop_path e) (split_file_list e (GetImageHeaderPath this name))) ∧
  files w' !! GetStatusFilePath this name = Some ("loop:" +:+ path) ∧
  ((1 < length (split_file_list e (GetImageHeaderPath this name)))%nat → name ∈ dm_nodes w').
Proof.
  unfold MapWithLoopDevice. rewrite bind_unfold.
  unfold SplitFiemap_GetSplitFileList. cbn [fst snd].
  destruct (fails e _ _); [done|].
  rewrite bind_unfold. unfold steady_clock_now. cbn [fst snd].
  rewrite bind_unfold.
  pose proof (attach_files_all (split_file_list e (GetImageHeaderPath this name))
                timeout_ms (now e (trace (log (call_GetSplitFileList (GetImageHeaderPath this name)) w))) []
                (log (call_GetSplitFileList (GetImageHeaderPath this name)) w)) as Hall.
  destruct (attach_files e _ _ _ [] _) as [devices w2]. cbn [fst snd] in Hall |- *.
  destruct (Nat.eqb_spec (length devices) (length (split_file_list e (GetImageHeaderPath this name))))
    as [Hlen|_]; cbn [negb]; [|by rewrite bind_unfold].
  rewrite (Hall Hlen). cbn [app].
  rewrite bind_unfold.
  destruct (OptimizeLoopDevices e _ w2) as [[] w3]; cbn [fst snd negb]; [|by rewrite bind_unfold].
  rewrite bind_unfold.
  rewrite length_map.
  match goal with
  | |- context [(if Nat.ltb 1 ?n then ?a else ?b) w3] =>
      destruct ((if Nat.ltb 1 n then a else b) w3) as [[[] p1] w4] eqn:Hjoin
  end; cbn [fst snd negb]; [|by rewrite bind_unfold].
  rewrite bind_unfold. unfold WriteStringToFile, attempt.
  destruct (fails e _ _); cbn [fst snd negb]; [by rewrite bind_unfold|].
  unfold ret. intros [= <- <-]. split; [done|]. split.
  - cbn [files set_files log]. apply lookup_insert_eq.
  - intros Hmany. apply Nat.ltb_lt in Hmany. rewrite Hmany in Hjoin.
    apply MapWithLoopDeviceList_success in Hjoin as (Hnode & _).
    exact Hnode.
Qed.

(** What a successful [MapImageDevice] went through. *)
Lemma MapImageDevice_success (name : string) (timeout_ms : Z) (p path : string)
    (w w' : World) :
  MapImageDevice e this name timeout_ms p w = ((true, path), w') →
  ∃ w0 w1,
    (if snd (block_device_for_file e (GetImageHeaderPath this name))
     then MapWithDmLinear e this name timeout_ms p w0
     else MapWithLoopDevice e this name timeout_ms p w0) = ((true, path), w1) ∧
    w' = set_props <[GetStatusPropertyName name := path]>
           (log (call_SetProperty (GetStatusPropertyName name) path) w1).
Proof.
  unfold MapImageDevice. rewrite bind_unfold.
  destruct (IsImageMapped name w) as [[] wa]; cbn [fst snd]; [done|].
  rewrite bind_unfold. unfold FiemapWriter_GetBlockDeviceForFile. cbn [fst snd].
  destruct (fails e _ _); [done|].
  destruct (block_device_for_file e _) as [device can]. cbn [snd].
  rewrite bind_unfold.
  match goal with
  | |- context [(if can then ?a else ?b) ?w0] =>
      destruct ((if can then a else b) w0) as [[[] p1] w1] eqn:Hmap
  end; cbn [fst snd negb]; [|done].
  rewrite bind_unfold. unfold SetProperty, attempt.
  destruct (fails e _ _); cbn [fst snd negb]; [by rewrite bind_unfold|].
  unfold ret. intros [= <- <-]. eexists _, w1. split; [|done].
  by destruct can.
Qed.

(** A record that lists a device-mapper node first is never the one-line
    record of a loop device. *)
Lemma loop_line_is_not_dm_record (path name : string) (devices : list string) :
  "loop:" +:+ path ≠ Join (status_lines name devices) nl.
Proof.
  unfold status_lines. destruct devices as [|d rest]; cbn [List.map Join].
  - discriminate.
  - discriminate.
Qed.

(** C1 (not met by the code): a successful [MapImageDevice] of an image kept
    on storage that cannot take device-mapper leaves, as the status record of
    the image, the single line [loop:] followed by the returned path; the
    record is never one whose first line is [dm:<name>] followed by a
    [loop:] line per attached device, however many were attached. *)
Theorem MapImageDevice_loop_record_is_one_loop_line
    (name : string) (timeout_ms : Z) (p path : string) (w w' : World) :
  snd (block_device_for_file e (GetImageHeaderPath this name)) = false →
  MapImageDevice e this name timeout_ms p w = ((true, path), w') →
  files w' !! GetStatusFilePath this name = Some ("loop:" +:+ path) ∧
  ∀ devices,
    files w' !! GetStatusFilePath this name ≠ Some (Join (status_lines name devices) nl).
Proof.
  intros Hloop (w0 & w1 & Hmap & ->)%MapImageDevice_success.
  rewrite Hloop in Hmap.
  apply MapWithLoopDevice_success in Hmap as (_ & Hrecord & _).
  cbn [files set_props log]. split; [done|].
  intros devices. rewrite Hrecord. intros [= Heq].
  by apply loop_line_is_not_dm_record in Heq.
Qed.

(** C2 (not met by the code): a successful [MapImageDevice] of an image split
    over several backing files, on storage that cannot take device-mapper,
    returns the path of the loop device attached to the last backing file,
    although the device-mapper node that joins the loop devices is live. *)
Theorem MapImageDevice_multi_loop_returns_last_loop_device
    (name : string) (timeout_ms : Z) (p path : string) (w w' : World) :
  let file_list := split_file_list e (GetImageHeaderPath this name) in
  snd (block_device_for_file e (GetImageHeaderPath this name)) = false →
  (1 < length file_list)%nat →
  MapImageDevice e this name timeout_ms p w = ((true, path), w') →
  path = back (List.map (loop_path e) file_list) ∧ name ∈ dm_nodes w'.
Proof.
  intros file_list Hloop Hmany (w0 & w1 & Hmap & ->)%MapImageDevice_success.
  rewrite Hloop in Hmap.
  apply MapWithLoopDevice_success in Hmap as (Hpath & _ & Hnode).
  split; [done|]. by apply Hnode.
Qed.

End Map.

Lemma MapImageDevice_loop_record_is_one_loop_line_witness :
  let e := Scenario.device Scenario.never false Scenario.two_files in
  let result := MapImageDevice e Scenario.manager "img" 1000 "" Scenario.unmapped in
  fst result = (true, "/dev/block/loop1") ∧
  (files (snd result) !! GetStatusFilePath Scenario.manager "img"
     = Some ("loop:" +:+ "/dev/block/loop1") ∧
   ∀ devices, files (snd result) !! GetStatusFilePath Scenario.manager "img"
              ≠ Some (Join (status_lines "img" devices) nl)).
Proof.
  intros e result. split; [vm_compute; reflexivity|].
  apply (MapImageDevice_loop_record_is_one_loop_line e Scenario.manager "img" 1000 ""
           "/dev/block/loop1" Scenario.unmapped (snd result)).
  - vm_compute; reflexivity.
  - vm_compute; reflexivity.
Defined.

Lemma MapImageDevice_multi_loop_returns_last_loop_device_witness :
  let e := Scenario.device Scenario.never false Scenario.two_files in
  let result := MapImageDevice e Scenario.manager "img" 1000 "" Scenario.unmapped in
  dm_path e "img" = "/dev/block/mapper/img" ∧
  fst result = (true, "/dev/block/loop1") ∧
  ("/dev/block/loop1" =
     back (List.map (loop_path e) (split_file_list e (GetImageHeaderPath Scenario.manager "img"))) ∧
   "img" ∈ dm_nodes (snd result)).
Proof.
  intros e result. split; [vm_compute; reflexivity|]. split; [vm_compute; reflexivity|].
  apply (MapImageDevice_multi_loop_returns_last_loop_device e Scenario.manager "img" 1000 ""
           "/dev/block/loop1" Scenario.unmapped (snd result)).
  - vm_compute; reflexivity.
  - vm_compute. lia.
  - vm_compute; reflexivity.
Defined.

(** ** Failures after the devices exist *)

Section Rollback.

Variable e : Env.
Variable this : ImageManager.

(** In [MapWithDmLinear], a status write that fails after the node was
    created is followed by the destruction of the node, in the world the
    failed write leaves. *)
Lemma MapWithDmLinear_write_failure_destroys
    (name : string) (timeout_ms : Z) (p : string) (w : World) :
  let dir := metadata_dir_ this in
  is_Some (fst (OpenMetadata e dir w)) →
  let w1 := log (call_OpenMetadata dir) w in
  let create := call_CreateLogicalPartition name timeout_ms in
  fails e (trace w1) create = false →
  let w2 := set_dm_nodes (fun s => {[name]} ∪ s) (log create w1) in
  let write := call_WriteStringToFile ("dm:" +:+ name) (GetStatusFilePath this name) in
  fails e (trace w2) write = true →
  MapWithDmLinear e this name timeout_ms p w =
    ((false, dm_path e name),
     snd (DestroyLogicalPartition e name
            (log write (after_failed_write e (GetStatusFilePath this name) w2)))).
Proof.
  intros dir [md Hmd] w1 create Hcreate w2 write Hwrite.
  unfold MapWithDmLinear. rewrite bind_unfold. fold dir. rewrite Hmd.
  rewrite bind_unfold. unfold CreateLogicalPartition. rewrite bind_unfold.
  unfold attempt, OpenMetadata. cbn [fst snd].
  fold dir w1 create. rewrite Hcreate. unfold ret. cbn [fst snd negb].
  rewrite bind_unfold. unfold WriteStringToFile.
  fold w2 write. rewrite Hwrite. cbn [fst snd negb].
  by rewrite bind_unfold.
Qed.

(** In [MapWithLoopDeviceList], a status write that fails after the node was
    created is followed by the deletion of the node, in the world the failed
    write leaves. *)
Lemma MapWithLoopDeviceList_write_failure_deletes
    (device_list : list string) (name : string) (timeout_ms : Z) (p : string)
    (md : LpMetadata) (partition : Partition) (table : DmTable) (w w1 : World) :
  let dir := metadata_dir_ this in
  fst (OpenMetadata e dir w) = Some md →
  FindPartition md name = Some partition →
  GetPartitionSize md partition mod LP_SECTOR_SIZE = 0 →
  fill_table e device_list 0 (GetPartitionSize md partition / LP_SECTOR_SIZE) []
    (log (call_OpenMetadata dir) w) = (Some table, w1) →
  let create := call_dm_CreateDevice name table timeout_ms in
  fails e (trace w1) create = false →
  let w2 := set_dm_nodes (fun s => {[name]} ∪ s) (log create w1) in
  let write := call_WriteStringToFile (Join (status_lines name device_list) nl)
                 (GetStatusFilePath this name) in
  fails e (trace w2) write = true →
  MapWithLoopDeviceList e this device_list name timeout_ms p w =
    ((false, dm_path e name),
     snd (dm_DeleteDevice e name
            (log write (after_failed_write e (GetStatusFilePath this name) w2)))).
Proof.
  intros dir Hmd Hfind Haligned Hfill create Hcreate w2 write Hwrite.
  unfold MapWithLoopDeviceList. rewrite bind_unfold. fold dir. rewrite Hmd, Hfind.
  rewrite Haligned. cbn [Z.eqb negb].
  rewrite bind_unfold. unfold OpenMetadata at 1 2. cbn [snd]. fold dir. rewrite Hfill.
  cbn [fst snd]. rewrite bind_unfold. unfold dm_CreateDevice. rewrite bind_unfold.
  unfold attempt. fold create. rewrite Hcreate. unfold ret. cbn [fst snd negb].
  rewrite bind_unfold. unfold WriteStringToFile.
  fold w2 write. rewrite Hwrite. cbn [fst snd negb].
  by rewrite bind_unfold.
Qed.

End Rollback.

(** C7 (not met by the code): on a device that cannot stack device-mapper,
    with an image split over two files, [MapWithLoopDeviceList] creates the
    node [img] and writes its record; the status write that follows in
    [MapWithLoopDevice] fails; the mapping returns failure having detached
    both loop devices, and the node [img] over them is still live. *)
Theorem MapImageDevice_late_write_failure_leaves_node :
  let e := Scenario.device Scenario.loop_record_write_fails false Scenario.two_files in
  let result := MapImageDevice e Scenario.manager "img" 1000 "" Scenario.unmapped in
  fst (fst result) = false ∧
  elements (dm_nodes (snd result)) = ["img"] ∧
  elements (loops (snd result)) = [] ∧
  trace (snd result) =
    [call_GetProperty "gsid.mapped_image.img";
     call_dm_GetState "img";
     call_GetBlockDeviceForFile "/data/gsi/dsu/img.img";
     call_GetSplitFileList "/data/gsi/dsu/img.img";
     call_open "/data/gsi/dsu/img.img.0000";
     call_loop_Attach "/data/gsi/dsu/img.img.0000" 1000;
     call_open "/data/gsi/dsu/img.img.0001";
     call_loop_Attach "/data/gsi/dsu/img.img.0001" 1000;
     call_open "/dev/block/loop0";
     call_loop_EnableDirectIo "/dev/block/loop0";
     call_open "/dev/block/loop1";
     call_loop_EnableDirectIo "/dev/block/loop1";
     call_OpenMetadata "/metadata/gsi/dsu";
     call_open "/dev/block/loop0";
     call_get_block_device_size "/dev/block/loop0";
     call_open "/dev/block/loop1";
     call_get_block_device_size "/dev/block/loop1";
     call_dm_CreateDevice "img"
       [mkLinear 0 8 "/dev/block/loop0" 0; mkLinear 8 8 "/dev/block/loop1" 0] 1000;
     call_WriteStringToFile
       (Join (status_lines "img" ["/dev/block/loop0"; "/dev/block/loop1"]) nl)
       "/metadata/gsi/dsu/img.status";
     call_WriteStringToFile "loop:/dev/block/loop1" "/metadata/gsi/dsu/img.status";
     call_loop_Detach "/dev/block/loop0";
     call_loop_Detach "/dev/block/loop1"].
Proof. vm_compute. repeat split. Qed.

(** ** The property and the guard *)

Section Guard.

Variable e : Env.
Variable this : ImageManager.

(** A forced unmap starts by reading the status file: the mapped state is not
    looked at. *)
Lemma forced_unmap_starts_with_read (name : string) (w : World) :
  ∃ rest, trace (snd (UnmapImageDevice e this name true w)) =
          trace w ++ call_ReadFileToString (GetStatusFilePath this name) :: rest.
Proof.
  unfold UnmapImageDevice, unmap_refused. cbn [negb].
  rewrite bind_unfold. change (ret false w) with (false, w). cbn [fst snd].
  rewrite bind_unfold, ReadFileToString_world.
  destruct (forced_unmap_tail e this name
              (log (call_ReadFileToString (GetStatusFilePath this name)) w)
              (ReadFileToString e (GetStatusFilePath this name) w).1) as (rest & ->).
  exists rest. cbn [trace log]. by rewrite <- app_assoc.
Qed.

(** When the mapping itself has succeeded, by device-mapper or by loop
    devices, and the property that records it cannot be set,
    [MapImageDevice] returns failure after a forced unmap of the image: the
    call that follows the failed [SetProperty] is the reading of the status
    file, without any look at the mapped state, and the world it returns is
    the one [UnmapImageDevice] with [force] leaves.  What that unmap takes
    down is what the status file lists. *)
Lemma MapImageDevice_property_failure_forces_unmap
    (name : string) (timeout_ms : Z) (p path : string) (w w1 : World) :
  let header := GetImageHeaderPath this name in
  let prop_name := GetStatusPropertyName name in
  fst (IsImageMapped name w) = false →
  let wa := snd (IsImageMapped name w) in
  fails e (trace wa) (call_GetBlockDeviceForFile header) = false →
  let wb := log (call_GetBlockDeviceForFile header) wa in
  (if snd (block_device_for_file e header)
   then MapWithDmLinear e this name timeout_ms p wb
   else MapWithLoopDevice e this name timeout_ms p wb) = ((true, path), w1) →
  fails e (trace w1) (call_SetProperty prop_name path) = true →
  let w2 := log (call_SetProperty prop_name path) w1 in
  let result := MapImageDevice e this name timeout_ms p w in
  fst result = (false, path) ∧
  snd result = snd (UnmapImageDevice e this name true w2) ∧
  ∃ rest, trace (snd result) =
          trace w1 ++ [call_SetProperty prop_name path;
                       call_ReadFileToString (GetStatusFilePath this name)] ++ rest.
Proof.
  intros header prop_name Hfree wa Hfound wb Hmap Hset w2 result.
  assert (result = ((false, path), snd (UnmapImageDevice e this name true w2))) as ->.
  { subst result. unfold MapImageDevice. rewrite bind_unfold, Hfree.
    rewrite bind_unfold. unfold FiemapWriter_GetBlockDeviceForFile. cbn [fst snd].
    fold header wa. rewrite Hfound. fold wb.
    destruct (block_device_for_file e header) as [device can]. cbn [snd] in Hmap.
    rewrite bind_unfold.
    assert ((if can then MapWithDmLinear e this name timeout_ms p
             else MapWithLoopDevice e this name timeout_ms p) wb = ((true, path), w1)) as ->
      by by destruct can.
    cbn [fst snd negb]. rewrite bind_unfold. unfold SetProperty, attempt.
    fold prop_name. rewrite Hset. cbn [fst snd negb]. fold w2.
    by rewrite bind_unfold. }
  cbn [fst snd]. split; [done|]. split; [done|].
  destruct (forced_unmap_starts_with_read name w2) as (rest & ->).
  exists rest. subst w2. cbn [trace log]. by rewrite <- app_assoc.
Qed.

(** When the image was mapped and the descriptor on the returned path
    cannot be opened, [MappedDevice::Open] fails and, before it returns,
    releases the guard it had built, which unmaps the image without force;
    for a non-empty path that unmap is not refused: the property is read and
    then the status file. *)
Lemma MappedDevice_Open_failed_open_runs_unmap
    (name : string) (timeout_ms : Z) (path : string) (w w1 : World) :
  MapImageDevice e this name timeout_ms "" w = ((true, path), w1) →
  fails e (trace w1) (call_open path) = true →
  let w2 := log (call_open path) w1 in
  let result := MappedDevice_Open e this timeout_ms name w in
  fst result = None ∧
  snd result = snd (UnmapImageDevice e this name false w2) ∧
  (path ≠ "" →
   ∃ rest, trace (snd result) =
           trace w1 ++ [call_open path;
                        call_GetProperty (GetStatusPropertyName name);
                        call_ReadFileToString (GetStatusFilePath this name)] ++ rest).
Proof.
  intros Hmap Hopen w2 result.
  assert (result = (None, snd (UnmapImageDevice e this name false w2))) as ->.
  { subst result. unfold MappedDevice_Open. rewrite bind_unfold, Hmap. cbn [fst snd negb].
    rewrite bind_unfold. unfold MappedDevice_new. rewrite bind_unfold.
    unfold sys_open. cbn [fst snd]. rewrite Hopen. unfold ret at 1 2. cbn [fst snd fd_].
    fold w2. change (-1 <? 0) with true. cbv iota.
    rewrite bind_unfold. unfold MappedDevice_delete. by rewrite bind_unfold. }
  cbn [fst snd]. split; [done|]. split; [done|].
  intros Hpath.
  apply MapImageDevice_success in Hmap as (w0 & w3 & _ & ->).
  unfold UnmapImageDevice, unmap_refused. cbn [negb].
  rewrite !bind_unfold. unfold IsImageMapped. rewrite bind_unfold.
  unfold GetProperty. cbn [fst snd].
  assert (default "" (props w2 !! GetStatusPropertyName name) = path) as ->.
  { subst w2. cbn [props set_props log]. by rewrite lookup_insert_eq. }
  destruct (String.eqb_spec path "") as [|_]; [done|].
  ret_step. rewrite bind_unfold, ReadFileToString_world.
  destruct (forced_unmap_tail e this name
              (log (call_ReadFileToString (GetStatusFilePath this name))
                 (log (call_GetProperty (GetStatusPropertyName name)) w2))
              (ReadFileToString e (GetStatusFilePath this name)
                 (log (call_GetProperty (GetStatusPropertyName name)) w2)).1)
    as (rest & Hrest).
  exists rest. rewrite Hrest. subst w2. cbn [trace log set_props].
  by rewrite <- !app_assoc.
Qed.

End Guard.

(** ** Removing all images *)

Section Removal.

Variable e : Env.
Variable this : ImageManager.

(** The loop of [RemoveAllImages] gives every partition to
    [DeleteBackingImage] and keeps the conjunction of the outcomes. *)
Lemma delete_partitions_delete_each (ps : list Partition) (ok : bool) (w : World) :
  let attempts := delete_each e this (List.map GetPartitionName ps) w in
  delete_partitions e this ps ok w = (ok && forallb id (fst attempts), snd attempts).
Proof.
  revert ok w. induction ps as [|partition rest IH]; intros ok w.
  - cbn. by rewrite andb_true_r.
  - cbn [delete_partitions List.map delete_each]. rewrite !bind_unfold.
    rewrite IH. ret_step. unfold ret. cbn [fst snd forallb].
    unfold id at 2. by rewrite andb_assoc.
Qed.

Lemma delete_each_length (names : list string) (w : World) :
  length (fst (delete_each e this names w)) = length names.
Proof.
  revert w. induction names as [|name rest IH]; intros w; [done|].
  cbn [delete_each]. rewrite !bind_unfold. unfold ret. cbn [fst length].
  by rewrite IH.
Qed.

(** [DeleteBackingImage] never asks for the removal of the whole store. *)
Lemma DeleteBackingImage_calls (name : string) (w : World) :
  ∃ calls, trace (snd (DeleteBackingImage e this name w)) = trace w ++ calls ∧
           existsb removes_store calls = false.
Proof.
  unfold DeleteBackingImage. rewrite bind_unfold.
  assert (∃ calls, trace (snd (IsImageMapped name w)) = trace w ++ calls ∧
                   existsb removes_store calls = false) as (c0 & H0 & Hq0).
  { unfold IsImageMapped. rewrite bind_unfold. unfold GetProperty. cbn [fst snd].
    destruct (String.eqb _ ""); [rewrite bind_unfold|]; unfold dm_GetState; ret_step;
      cbn [trace log]; eexists; (split; [by rewrite <- ?app_assoc|done]). }
  destruct (IsImageMapped name w) as [[] w1]; cbn [fst snd] in H0 |- *.
  { ret_step. by exists c0. }
  rewrite bind_unfold. unfold SplitFiemap_RemoveSplitFiles, attempt.
  destruct (fails e (trace w1) _); cbn [fst snd negb].
  { ret_step. cbn [trace log]. rewrite H0. eexists. rewrite <- app_assoc.
    split; [done|]. by rewrite existsb_app, Hq0. }
  rewrite bind_unfold.
  match goal with
  | |- context [RemoveFileIfExists e ?f ?w0] =>
      pose proof (RemoveFileIfExists_trace e f w0) as Hremove;
      destruct (RemoveFileIfExists e f w0) as [removed w3]
  end.
  cbn [fst snd trace set_images log] in Hremove |- *.
  unfold RemoveImageMetadata.
  destruct (metadata w3); unfold attempt; [destruct (fails e _ _)|];
    cbn [snd trace log set_metadata]; rewrite Hremove, H0;
    eexists; rewrite <- !app_assoc;
    (split; [done|]); by rewrite existsb_app, Hq0.
Qed.

Lemma delete_each_calls (names : list string) (w : World) :
  ∃ calls, trace (snd (delete_each e this names w)) = trace w ++ calls ∧
           existsb removes_store calls = false.
Proof.
  revert w. induction names as [|name rest IH]; intros w.
  - exists []. cbn. by rewrite app_nil_r.
  - cbn [delete_each]. rewrite !bind_unfold. ret_step. unfold ret. cbn [snd].
    destruct (DeleteBackingImage_calls name w) as (c1 & H1 & Hq1).
    destruct (IH (snd (DeleteBackingImage e this name w))) as (c2 & H2 & Hq2).
    exists (c1 ++ c2). rewrite H2, H1, <- app_assoc. split; [done|].
    by rewrite existsb_app, Hq1, Hq2.
Qed.

(** C5 (amended): with a store that opens, [RemoveAllImages] gives every
    image named in it to [DeleteBackingImage], whatever the earlier
    deletions returned.  When all of them succeeded it goes on to remove the
    store and returns what that removal returns.  When one of them failed it
    returns failure without asking for the removal of the store. *)
Theorem RemoveAllImages_deletes_each_then_short_circuits (md : LpMetadata) (w : World) :
  let dir := metadata_dir_ this in
  metadata w = Some md →
  let w1 := log (call_MetadataExists dir) w in
  fails e (trace w1) (call_OpenMetadata dir) = false →
  let w2 := log (call_OpenMetadata dir) w1 in
  let attempts := delete_each e this (List.map GetPartitionName (partitions md)) w2 in
  let result := RemoveAllImages e this w in
  length (fst attempts) = length (partitions md) ∧
  (forallb id (fst attempts) = true →
   result = RemoveAllMetadata e dir (snd attempts)) ∧
  (forallb id (fst attempts) = false →
   fst result = false ∧ snd result = snd attempts ∧
   ∃ calls, trace (snd result) = trace w ++ calls ∧ existsb removes_store calls = false).
Proof.
  intros dir Hmd w1 Hopen w2 attempts result.
  split; [subst attempts; by rewrite delete_each_length, length_map|].
  assert (result = if forallb id (fst attempts)
                   then RemoveAllMetadata e dir (snd attempts)
                   else (false, snd attempts)) as ->.
  { subst result. unfold RemoveAllImages. rewrite bind_unfold.
    unfold MetadataExists. cbn [fst snd]. rewrite Hmd.
    rewrite bool_decide_eq_true_2 by by eexists. cbn [negb].
    rewrite bind_unfold. unfold OpenMetadata. cbn [fst snd].
    fold dir w1. rewrite Hopen. change (metadata w1) with (metadata w).
    rewrite Hmd. fold w2.
    rewrite bind_unfold, delete_partitions_delete_each. fold attempts.
    cbn [fst snd andb]. by destruct (forallb id (fst attempts)). }
  split; intros ->; [done|]. cbn [fst snd]. split; [done|]. split; [done|].
  subst attempts.
  destruct (delete_each_calls (List.map GetPartitionName (partitions md)) w2)
    as (calls & -> & Hquiet).
  exists ([call_MetadataExists dir; call_OpenMetadata dir] ++ calls).
  subst w2 w1. cbn [trace log]. rewrite <- !app_assoc. split; [done|].
  by rewrite existsb_app, Hquiet.
Qed.

End Removal.

Lemma RemoveAllImages_deletes_each_then_short_circuits_witness :
  let e := Scenario.device Scenario.never true Scenario.two_files in
  let md := mkMetadata [mkPartition "A" 4096 false; mkPartition "B" 4096 false;
                        mkPartition "C" 4096 false] in
  let w2 := log (call_OpenMetadata "/metadata/gsi/dsu")
              (log (call_MetadataExists "/metadata/gsi/dsu") Scenario.three_images) in
  let attempts := delete_each e Scenario.manager (List.map GetPartitionName (partitions md)) w2 in
  let result := RemoveAllImages e Scenario.manager Scenario.three_images in
  fst attempts = [false; true; true] ∧
  (length (fst attempts) = length (partitions md) ∧
   (forallb id (fst attempts) = true →
    result = RemoveAllMetadata e "/metadata/gsi/dsu" (snd attempts)) ∧
   (forallb id (fst attempts) = false →
    fst result = false ∧ snd result = snd attempts ∧
    ∃ calls, trace (snd result) = trace Scenario.three_images ++ calls ∧
             existsb removes_store calls = false)).
Proof.
  intros e md w2 attempts result. split; [vm_compute; reflexivity|].
  apply (RemoveAllImages_deletes_each_then_short_circuits e Scenario.manager md
           Scenario.three_images); vm_compute; reflexivity.
Defined.

(** C5, as stated, fails: of the images [A] (mapped), [B] and [C], the last
    two are deleted and [A] is not; the call returns failure, and the
    removal of the metadata store is never asked for: the store is still
    there, holding [A]. *)
Lemma RemoveAllImages_failure_skips_store_removal :
  let e := Scenario.device Scenario.never true Scenario.two_files in
  let result := RemoveAllImages e Scenario.manager Scenario.three_images in
  fst result = false ∧
  elements (images (snd result)) = ["/data/gsi/dsu/A.img"] ∧
  metadata (snd result) = Some (mkMetadata [mkPartition "A" 4096 false]) ∧
  trace (snd result) =
    [call_MetadataExists "/metadata/gsi/dsu";
     call_OpenMetadata "/metadata/gsi/dsu";
     call_GetProperty "gsid.mapped_image.A";
     call_GetProperty "gsid.mapped_image.B";
     call_dm_GetState "B";
     call_RemoveSplitFiles "/data/gsi/dsu/B.img";
     call_RemoveFileIfExists "/metadata/gsi/dsu/B.status";
     call_RemoveImageMetadata "/metadata/gsi/dsu" "B";
     call_GetProperty "gsid.mapped_image.C";
     call_dm_GetState "C";
     call_RemoveSplitFiles "/data/gsi/dsu/C.img";
     call_RemoveFileIfExists "/metadata/gsi/dsu/C.status";
     call_RemoveImageMetadata "/metadata/gsi/dsu" "C"] ∧
  existsb removes_store (trace (snd result)) = false.
Proof. vm_compute. repeat split. Qed.

(** ** Creating a backing image *)

Section Create.

Variable e : Env.
Variable this : ImageManager.

(** C10: once the backing files of a new image are allocated,
    [CreateBackingImage] has three ways to fail.  When the files sit on a
    device-mapper device outside the test directory, it removes the split
    files.  When the metadata entry cannot be written, it returns failure
    with nothing undone: its calls were the allocation, the query for the
    device path and the failed update, and the backing files are on disk.
    When the zero fill fails, it deletes the whole image. *)
Theorem CreateBackingImage_metadata_failure_keeps_files
    (name : string) (size flags : Z) (w : World) :
  let data_path := GetImageHeaderPath this name in
  let dir := metadata_dir_ this in
  let create := call_SplitFiemap_Create data_path size in
  fails e (trace w) create = false →
  let w1 := set_images (fun s => {[data_path]} ∪ s) (log create w) in
  let w2 := log (call_GetDevicePathForFile data_path) w1 in
  let on_dm := StartsWith (device_path_for_file e data_path) "/dev/block/dm-"
               && negb (StartsWith dir kTestImageMetadataDir) in
  let readonly := negb (Z.land flags (CREATE_IMAGE_READONLY e) =? 0) in
  let update := call_UpdateMetadata dir name size readonly in
  let result := CreateBackingImage e this name size flags w in
  (on_dm = true →
   fst result = false ∧
   snd result = snd (SplitFiemap_RemoveSplitFiles e data_path w2)) ∧
  (on_dm = false → fails e (trace w2) update = true →
   fst result = false ∧
   snd result = log update w2 ∧
   trace (snd result) = trace w ++ [create; call_GetDevicePathForFile data_path; update] ∧
   data_path ∈ images (snd result)) ∧
  (on_dm = false → fails e (trace w2) update = false →
   Z.land flags (CREATE_IMAGE_ZERO_FILL e) ≠ 0 →
   let w3 := snd (UpdateMetadata e dir name size readonly w2) in
   fst (ZeroFillNewImage e this name w3) = false →
   fst result = false ∧
   snd result = snd (DeleteBackingImage e this name (snd (ZeroFillNewImage e this name w3)))).
Proof.
  intros data_path dir create Hcreate w1 w2 on_dm readonly update result.
  subst result. unfold CreateBackingImage. rewrite bind_unfold.
  unfold SplitFiemap_Create, attempt. fold data_path create. rewrite Hcreate.
  cbn [fst snd negb]. fold w1. rewrite bind_unfold.
  unfold GetDevicePathForFile. cbn [fst snd]. fold w2 dir on_dm.
  split; [|split].
  - intros ->. by rewrite bind_unfold.
  - intros -> Hupdate. rewrite bind_unfold.
    unfold UpdateMetadata, attempt. fold readonly update. rewrite Hupdate.
    cbn [fst snd negb]. ret_step. split; [done|]. split; [done|]. split.
    + subst w2 w1. cbn [trace log set_images]. by rewrite <- !app_assoc.
    + subst w2 w1. cbn [images log set_images]. set_solver.
  - intros -> Hupdate Hflag Hfill. rewrite bind_unfold.
    fold readonly.
    assert (fst (UpdateMetadata e dir name size readonly w2) = true) as ->.
    { unfold UpdateMetadata, attempt. fold update. by rewrite Hupdate. }
    cbn [negb].
    destruct (Z.eqb_spec (Z.land flags (CREATE_IMAGE_ZERO_FILL e)) 0) as [|_]; [done|].
    cbn [negb]. rewrite bind_unfold, Hfill. cbn [negb].
    by rewrite bind_unfold.
Qed.

End Create.

Lemma CreateBackingImage_metadata_failure_keeps_files_witness :
  let e := Scenario.device Scenario.update_metadata_fails false Scenario.two_files in
  let result := CreateBackingImage e Scenario.manager "new" 8192 0 Scenario.unmapped in
  fst result = false ∧
  trace (snd result) =
    trace Scenario.unmapped ++
    [call_SplitFiemap_Create (GetImageHeaderPath Scenario.manager "new") 8192;
     call_GetDevicePathForFile (GetImageHeaderPath Scenario.manager "new");
     call_UpdateMetadata "/metadata/gsi/dsu" "new" 8192
       (negb (Z.land 0 (CREATE_IMAGE_READONLY e) =? 0))] ∧
  GetImageHeaderPath Scenario.manager "new" ∈ images (snd result).
Proof.
  intros e result.
  pose proof (CreateBackingImage_metadata_failure_keeps_files e Scenario.manager "new" 8192 0
                Scenario.unmapped) as H.
  destruct H as (_ & H & _); [vm_compute; reflexivity|].
  destruct H as (H1 & _ & H3 & H4); [vm_compute; reflexivity ..|].
  split; [exact H1|]. split; [exact H3|exact H4].
Defined.

(** ** Sanity of the model *)

(** The loop of [ZeroFillNewImage] never runs out of rounds: with at least
    [remaining] of them, one more changes nothing. *)
Lemma write_zeroes_fuel (e : Env) (fuel : nat) (path : string) (remaining : Z) (w : World) :
  0 <= remaining <= Z.of_nat fuel → remaining < 2 ^ 64 →
  write_zeroes e (S fuel) path remaining w = write_zeroes e fuel path remaining w.
Proof.
  revert remaining w. induction fuel as [|fuel IH]; intros remaining w Hfuel Hbound.
  - assert (remaining = 0) as -> by lia. reflexivity.
  - change (write_zeroes e (S (S fuel)) path remaining w)
      with ((if remaining =? 0 then ret true
             else written <- WriteFully e path (Z.min kChunkSize remaining) ;;
                  if negb written then ret false
                  else write_zeroes e (S fuel) path
                         (u64 (remaining - Z.min kChunkSize remaining))) w).
    change (write_zeroes e (S fuel) path remaining w)
      with ((if remaining =? 0 then ret true
             else written <- WriteFully e path (Z.min kChunkSize remaining) ;;
                  if negb written then ret false
                  else write_zeroes e fuel path
                         (u64 (remaining - Z.min kChunkSize remaining))) w).
    destruct (Z.eqb_spec remaining 0) as [|Hpos]; [done|].
    rewrite !bind_unfold.
    destruct (WriteFully e path _ w).1; cbn [negb]; [|done].
    unfold u64, kChunkSize. rewrite Z.mod_small by lia.
    apply IH; lia.
Qed.

(** An image kept in one file is mapped by its loop device alone: the
    returned path and the record name that device and no node is created. *)
Example MapImageDevice_single_loop :
  let e := Scenario.device Scenario.never false Scenario.one_file in
  let result := MapImageDevice e Scenario.manager "img" 1000 "" Scenario.unmapped in
  fst result = (true, "/dev/block/loop0") ∧
  files (snd result) !! "/metadata/gsi/dsu/img.status" = Some "loop:/dev/block/loop0" ∧
  elements (dm_nodes (snd result)) = [] ∧
  elements (loops (snd result)) = ["/dev/block/loop0"].
Proof. vm_compute. repeat split. Qed.

(** An image kept in two files, mapped and then unmapped: the record names
    the last loop device only, so the unmap detaches that one and leaves the
    node and the first loop device behind. *)
Example MapImageDevice_two_loops_then_unmap :
  let e := Scenario.device Scenario.never false Scenario.two_files in
  let mapped := MapImageDevice e Scenario.manager "img" 1000 "" Scenario.unmapped in
  let result := UnmapImageDevice e Scenario.manager "img" false (snd mapped) in
  fst mapped = (true, "/dev/block/loop1") ∧
  fst result = true ∧
  elements (dm_nodes (snd result)) = ["img"] ∧
  elements (loops (snd result)) = ["/dev/block/loop0"] ∧
  files (snd result) !! "/metadata/gsi/dsu/img.status" = None.
Proof. vm_compute. repeat split. Qed.

(** * Further properties *)

(** ** The table over a set of loop devices *)

Section Table.

Variable e : Env.

Lemma file_sectors_nonneg (d : string) : 0 <= file_sectors e d.
Proof.
  unfold file_sectors, u64, LP_SECTOR_SIZE.
  apply Z.div_pos; [|lia]. apply Z.mod_pos_bound. lia.
Qed.

Lemma total_sectors_nonneg (devices : list string) : 0 <= total_sectors e devices.
Proof.
  induction devices as [|d rest IH]; cbn; [lia|].
  pose proof (file_sectors_nonneg d). unfold total_sectors in IH. lia.
Qed.

(** The loop that fills the table, from any point it can reach: the targets
    it adds follow one another from [start], use the devices in order, and
    together are as long as what is needed or, when the devices fall short,
    as the devices. *)
Lemma fill_table_segments (devices : list string) (start needed : Z) (acc : DmTable)
    (w : World) (table : DmTable) (w' : World) :
  0 <= start → 0 <= needed → start + needed < 2 ^ 64 →
  fill_table e devices start needed acc w = (Some table, w') →
  ∃ segments,
    table = acc ++ segments ∧
    laid_end_to_end start segments = true ∧
    table_length segments = Z.min needed (total_sectors e devices) ∧
    List.map block_device segments = take (length segments) devices.
Proof.
  revert start needed acc w table w'.
  induction devices as [|d rest IH]; intros start needed acc w table w' Hstart Hneeded Hbound.
  - cbn. intros [= <- <-]. exists []. rewrite app_nil_r. cbn. repeat split. lia.
  - cbn [fill_table]. rewrite bind_unfold. unfold sys_open. cbn [fst snd].
    destruct (fails e (trace w) (call_open d)); [done|].
    assert ((Z.of_N (next_fd e (trace w)) <? 0) = false) as -> by (apply Z.ltb_ge; lia).
    rewrite bind_unfold. unfold get_block_device_size. cbn [fst snd].
    fold (file_sectors e d).
    pose proof (file_sectors_nonneg d) as Hd.
    set (segment := Z.min (file_sectors e d) needed).
    assert (0 <= segment <= needed) as Hsegment by (subst segment; lia).
    assert (u64 (start + segment) = start + segment) as Hs
      by (unfold u64; apply Z.mod_small; lia).
    assert (u64 (needed - segment) = needed - segment) as Hn
      by (unfold u64; apply Z.mod_small; lia).
    fold segment. rewrite !Hs, !Hn.
    destruct (Z.eqb_spec (needed - segment) 0) as [Hdone|Hmore].
    + intros [= <- <-]. exists [mkLinear start segment d 0].
      split; [done|]. cbn. split; [|split].
      * rewrite Z.eqb_refl. cbn. destruct (Z.leb_spec 0 segment); [done|lia].
      * pose proof (total_sectors_nonneg rest). unfold total_sectors in *.
        subst segment. lia.
      * done.
    + intros Hrest.
      apply IH in Hrest as (segments & -> & Hlaid & Hlength & Hdevices); [|lia..].
      exists (mkLinear start segment d 0 :: segments).
      split; [by rewrite <- app_assoc|]. cbn. split; [|split].
      * rewrite Z.eqb_refl. cbn. destruct (Z.leb_spec 0 segment); [done|lia].
      * unfold table_length in Hlength. rewrite Hlength.
        unfold total_sectors. subst segment. lia.
      * by rewrite Hdevices.
Qed.

Lemma fill_table_extends (devices : list string) (start needed : Z) (acc : DmTable)
    (w : World) :
  ∃ calls, trace (snd (fill_table e devices start needed acc w)) = trace w ++ calls.
Proof.
  revert start needed acc w. induction devices as [|d rest IH]; intros start needed acc w.
  - exists []. cbn. by rewrite app_nil_r.
  - cbn [fill_table]. rewrite bind_unfold. unfold sys_open. cbn [fst snd].
    destruct (_ <? 0); [by eexists|].
    rewrite bind_unfold. unfold get_block_device_size. cbn [fst snd].
    destruct (_ =? 0).
    + eexists. unfold ret. cbn [snd trace log]. by rewrite <- app_assoc.
    + match goal with
      | |- context [fill_table e rest ?s ?n ?a ?w0] =>
          destruct (IH s n a w0) as (calls & ->)
      end.
      eexists. cbn [trace log]. by rewrite <- !app_assoc.
Qed.

Variable this : ImageManager.

(** X1: the table a successful [MapWithLoopDeviceList] hands to the
    device-mapper, in the call that precedes the write of the record, starts
    at sector 0, lays its targets end to end, each from the first sector of
    its loop device, takes the loop devices in list order, and is as long as
    the partition, or as the loop devices together when they are shorter. *)
Theorem MapWithLoopDeviceList_table
    (device_list : list string) (name : string) (timeout_ms : Z) (p path : string)
    (w w' : World) :
  MapWithLoopDeviceList e this device_list name timeout_ms p w = ((true, path), w') →
  ∃ md partition table calls,
    fst (OpenMetadata e (metadata_dir_ this) w) = Some md ∧
    FindPartition md name = Some partition ∧
    trace w' = trace w ++ calls
               ++ [call_dm_CreateDevice name table timeout_ms;
                   call_WriteStringToFile (Join (status_lines name device_list) nl)
                     (GetStatusFilePath this name)] ∧
    laid_end_to_end 0 table = true ∧
    table_length table =
      Z.min (GetPartitionSize md partition / LP_SECTOR_SIZE) (total_sectors e device_list) ∧
    List.map block_device table = take (length table) device_list.
Proof.
  unfold MapWithLoopDeviceList. rewrite bind_unfold.
  destruct (OpenMetadata e _ w).1 as [md|] eqn:Hmd; [|done].
  destruct (FindPartition md name) as [partition|] eqn:Hfind; [|done].
  destruct (_ =? 0); cbn [negb]; [|done].
  rewrite bind_unfold.
  assert (0 <= GetPartitionSize md partition / LP_SECTOR_SIZE < 2 ^ 64) as Hsize.
  { unfold GetPartitionSize, u64, LP_SECTOR_SIZE.
    pose proof (Z.mod_pos_bound (p_size partition) (2 ^ 64) ltac:(lia)) as Hmod.
    split; [apply Z.div_pos; lia|].
    apply Z.div_lt_upper_bound; lia. }
  match goal with
  | |- context [fill_table e device_list 0 ?n [] ?w0] =>
      pose proof (fill_table_segments device_list 0 n [] w0) as Hsegments;
      destruct (fill_table_extends device_list 0 n [] w0) as (calls & Hcalls);
      destruct (fill_table e device_list 0 n [] w0) as [[table|] w2]
  end; cbn [fst snd] in Hcalls |- *; [|done].
  destruct (Hsegments table w2) as (segments & -> & Hlaid & Hlength & Hdevices);
    [lia..|done|].
  rewrite bind_unfold. unfold dm_CreateDevice. rewrite bind_unfold. unfold attempt.
  destruct (fails e (trace w2) _); unfold ret; cbn [fst snd negb]; [done|].
  rewrite bind_unfold. unfold WriteStringToFile, attempt.
  destruct (fails e _ _); cbn [fst snd negb]; [by rewrite bind_unfold|].
  intros [= <- <-]. exists md, partition, segments.
  exists (call_OpenMetadata (metadata_dir_ this) :: calls).
  split; [done|]. split; [done|]. split; [|done].
  cbn [trace set_files set_dm_nodes log]. rewrite Hcalls.
  unfold OpenMetadata. cbn [snd trace log]. by rewrite <- !app_assoc.
Qed.

End Table.

Lemma MapWithLoopDeviceList_table_witness :
  let e := Scenario.device Scenario.never false Scenario.two_files in
  let device_list := ["/dev/block/loop0"; "/dev/block/loop1"] in
  let result := MapWithLoopDeviceList e Scenario.manager device_list "img" 1000 ""
                  Scenario.unmapped in
  fst result = (true, "/dev/block/mapper/img") ∧
  ∃ md partition table calls,
    fst (OpenMetadata e (metadata_dir_ Scenario.manager) Scenario.unmapped) = Some md ∧
    FindPartition md "img" = Some partition ∧
    trace (snd result) =
      trace Scenario.unmapped ++ calls
      ++ [call_dm_CreateDevice "img" table 1000;
          call_WriteStringToFile (Join (status_lines "img" device_list) nl)
            (GetStatusFilePath Scenario.manager "img")] ∧
    laid_end_to_end 0 table = true ∧
    table_length table =
      Z.min (GetPartitionSize md partition / LP_SECTOR_SIZE) (total_sectors e device_list) ∧
    List.map block_device table = take (length table) device_list.
Proof.
  intros e device_list result. split; [vm_compute; reflexivity|].
  apply (MapWithLoopDeviceList_table e Scenario.manager device_list "img" 1000 ""
           "/dev/block/mapper/img" Scenario.unmapped (snd result)).
  vm_compute; reflexivity.
Defined.

(** ** The mapped state *)

Section MappedState.

Variable e : Env.
Variable this : ImageManager.

(** An image counts as mapped when its property is not empty or a
    device-mapper node carries its name; asking only reads. *)
Lemma IsImageMapped_spec (name : string) (w : World) :
  fst (IsImageMapped name w) =
    negb (String.eqb (default "" (props w !! GetStatusPropertyName name)) "")
    || bool_decide (name ∈ dm_nodes w) ∧
  ∃ calls, only_called w (snd (IsImageMapped name w)) calls ∧
           existsb changing_call calls = false ∧ existsb teardown_call calls = false.
Proof.
  unfold IsImageMapped. rewrite bind_unfold. unfold GetProperty. cbn [fst snd].
  destruct (String.eqb _ ""); cbn [negb orb].
  - rewrite bind_unfold. unfold dm_GetState. ret_step. split.
    + by destruct (decide (name ∈ dm_nodes _)) as [Hin|Hout];
        [rewrite bool_decide_eq_true_2|rewrite bool_decide_eq_false_2].
    + exists ([] ++ [call_GetProperty (GetStatusPropertyName name)]
                 ++ [call_dm_GetState name]).
      split; [|done]. rewrite app_assoc.
      apply only_called_log, only_called_log, only_called_refl.
  - ret_step. split; [done|].
    exists ([] ++ [call_GetProperty (GetStatusPropertyName name)]).
    split; [|done]. apply only_called_log, only_called_refl.
Qed.

(** X2: an image whose property is set, or whose name a live device-mapper
    node carries, is not mapped again: [MapImageDevice] returns failure,
    leaves [path] alone, and has only read. *)
Theorem MapImageDevice_refuses_mapped_image
    (name : string) (timeout_ms : Z) (p : string) (w : World) :
  default "" (props w !! GetStatusPropertyName name) ≠ "" ∨ name ∈ dm_nodes w →
  let result := MapImageDevice e this name timeout_ms p w in
  fst result = (false, p) ∧
  ∃ calls, only_called w (snd result) calls ∧ existsb changing_call calls = false.
Proof.
  intros Hmapped result. subst result.
  destruct (IsImageMapped_spec name w) as (Hres & calls & Hcalls & Hquiet & _).
  assert (fst (IsImageMapped name w) = true) as Htrue.
  { rewrite Hres. destruct Hmapped as [Hprop|Hnode].
    - by destruct (String.eqb_spec (default "" (props w !! GetStatusPropertyName name)) "").
    - rewrite bool_decide_eq_true_2 by done. apply orb_true_r. }
  unfold MapImageDevice. rewrite bind_unfold, Htrue. ret_step.
  split; [done|]. by exists calls.
Qed.

(** X3: an image whose property is empty and whose name no device-mapper
    node carries is not unmapped unless forced: [UnmapImageDevice] returns
    failure without reading the status file, and has only read. *)
Theorem UnmapImageDevice_refuses_unmapped_image (name : string) (w : World) :
  default "" (props w !! GetStatusPropertyName name) = "" → name ∉ dm_nodes w →
  let result := UnmapImageDevice e this name false w in
  fst result = false ∧
  only_called w (snd result)
    [call_GetProperty (GetStatusPropertyName name); call_dm_GetState name].
Proof.
  intros Hprop Hnode result. subst result.
  unfold UnmapImageDevice, unmap_refused. cbn [negb].
  rewrite !bind_unfold. unfold IsImageMapped. rewrite bind_unfold.
  unfold GetProperty. cbn [fst snd]. rewrite Hprop. cbn [String.eqb].
  rewrite bind_unfold. unfold dm_GetState. cbn [fst snd log dm_nodes].
  destruct (decide (name ∈ dm_nodes w)); [done|]. ret_step. cbn [is_INVALID negb].
  split; [done|].
  change [call_GetProperty (GetStatusPropertyName name); call_dm_GetState name]
    with (([] ++ [call_GetProperty (GetStatusPropertyName name)]) ++ [call_dm_GetState name]).
  apply only_called_log, only_called_log, only_called_refl.
Qed.

End MappedState.

Lemma MapImageDevice_refuses_mapped_image_witness :
  let e := Scenario.device Scenario.never false Scenario.two_files in
  let result := MapImageDevice e Scenario.manager "img" 1000 "" Scenario.mapped_over_loops in
  fst result = (false, "") ∧
  ∃ calls, only_called Scenario.mapped_over_loops (snd result) calls ∧
           existsb changing_call calls = false.
Proof.
  intros e result.
  apply (MapImageDevice_refuses_mapped_image e Scenario.manager "img" 1000 ""
           Scenario.mapped_over_loops).
  left. vm_compute. discriminate.
Defined.

Lemma UnmapImageDevice_refuses_unmapped_image_witness :
  let e := Scenario.device Scenario.never false Scenario.two_files in
  let result := UnmapImageDevice e Scenario.manager "img" false Scenario.unmapped in
  fst result = false ∧
  only_called Scenario.unmapped (snd result)
    [call_GetProperty (GetStatusPropertyName "img"); call_dm_GetState "img"].
Proof.
  intros e result.
  apply (UnmapImageDevice_refuses_unmapped_image e Scenario.manager "img" Scenario.unmapped).
  - vm_compute; reflexivity.
  - apply (bool_decide_unpack _). vm_compute. exact I.
Defined.

(** ** Sets of nodes and devices *)

Lemma added_is_member (x : string) (s : gset string) : x ∈ {[x]} ∪ s.
Proof. set_solver. Qed.

Lemma add_then_remove (x : string) (s : gset string) :
  ({[x]} ∪ s) ∖ {[x]} = s ∖ {[x]}.
Proof.
  apply set_eq. intros y.
  rewrite !elem_of_difference, elem_of_union, elem_of_singleton. tauto.
Qed.

Lemma remove_absent (x : string) (s : gset string) : x ∉ s → s ∖ {[x]} = s.
Proof.
  intros Hx. apply set_eq. intros y.
  rewrite elem_of_difference, elem_of_singleton. split; [tauto|].
  intros Hy. split; [done|]. by intros ->.
Qed.

(** ** Calls that succeed *)

Section Steps.

Variable e : Env.
Variable this : ImageManager.

Lemma dm_DeleteDeviceIfExists_live (name : string) (w : World) :
  name ∈ dm_nodes w → fails e (trace w) (call_dm_DeleteDeviceIfExists name) = false →
  dm_DeleteDeviceIfExists e name w =
    (true, set_dm_nodes (fun s => s ∖ {[name]}) (log (call_dm_DeleteDeviceIfExists name) w)).
Proof.
  intros Hin Hok. unfold dm_DeleteDeviceIfExists, attempt.
  destruct (decide (name ∈ dm_nodes w)); [|done]. by rewrite Hok.
Qed.

Lemma loop_Detach_ok (device : string) (w : World) :
  fails e (trace w) (call_loop_Detach device) = false →
  loop_Detach e device w =
    (true, set_loops (fun s => s ∖ {[device]}) (log (call_loop_Detach device) w)).
Proof. intros Hok. unfold loop_Detach, attempt. by rewrite Hok. Qed.

Lemma RemoveFileIfExists_ok (path : string) (w : World) :
  fails e (trace w) (call_RemoveFileIfExists path) = false →
  RemoveFileIfExists e path w =
    (true, set_files (delete path) (log (call_RemoveFileIfExists path) w)).
Proof. intros Hok. unfold RemoveFileIfExists, attempt. by rewrite Hok. Qed.

Lemma SetProperty_ok (key value : string) (w : World) :
  fails e (trace w) (call_SetProperty key value) = false →
  SetProperty e key value w =
    (true, set_props <[key := value]> (log (call_SetProperty key value) w)).
Proof. intros Hok. unfold SetProperty, attempt. by rewrite Hok. Qed.

(** One [dm:] line of a record. *)
Lemma unmap_lines_dm_line (x : string) (rest : list string) (w : World) :
  free_of colon_char x = true →
  unmap_lines e (("dm:" +:+ x) :: rest) w =
    if fst (dm_DeleteDeviceIfExists e x w)
    then unmap_lines e rest (snd (dm_DeleteDeviceIfExists e x w))
    else (false, snd (dm_DeleteDeviceIfExists e x w)).
Proof.
  intros Hx. cbn [unmap_lines]. rewrite (Split_dm_line _ Hx).
  cbn [String.eqb Ascii.eqb Bool.eqb]. rewrite bind_unfold.
  by destruct (dm_DeleteDeviceIfExists e x w).1.
Qed.

(** One [loop:] line of a record. *)
Lemma unmap_lines_loop_line (x : string) (rest : list string) (w : World) :
  free_of colon_char x = true →
  unmap_lines e (("loop:" +:+ x) :: rest) w =
    unmap_lines e rest (snd (loop_Detach e x w)).
Proof.
  intros Hx. cbn [unmap_lines]. rewrite (Split_loop_line _ Hx).
  cbn [String.eqb Ascii.eqb Bool.eqb]. by rewrite bind_unfold.
Qed.

(** An unmap that is not refused, reads its record and replays it to the
    end. *)
Lemma UnmapImageDevice_replayed (name : string) (force : bool) (status : string)
    (w w3 : World) :
  fst (unmap_refused name force w) = false →
  fst (ReadFileToString e (GetStatusFilePath this name)
         (snd (unmap_refused name force w))) = Some status →
  unmap_lines e (Split status nl_char)
    (log (call_ReadFileToString (GetStatusFilePath this name))
       (snd (unmap_refused name force w))) = (true, w3) →
  UnmapImageDevice e this name force w =
    (true, snd (SetProperty e (GetStatusPropertyName name) ""
                  (snd (RemoveFileIfExists e (GetStatusFilePath this name) w3)))).
Proof.
  intros Hpass Hread Hreplay. unfold UnmapImageDevice.
  rewrite bind_unfold, Hpass, bind_unfold, Hread, ReadFileToString_world.
  rewrite bind_unfold, Hreplay. cbn [fst snd negb].
  by rewrite !bind_unfold.
Qed.

(** The mapped-state test of an unmap lets a mapped image through. *)
Lemma unmap_refused_mapped (name : string) (force : bool) (w : World) :
  fst (IsImageMapped name w) = true →
  fst (unmap_refused name force w) = false ∧
  ∃ calls, only_called w (snd (unmap_refused name force w)) calls.
Proof.
  intros Hmapped. unfold unmap_refused. destruct force; cbn [negb].
  - split; [done|]. exists []. apply only_called_refl.
  - rewrite bind_unfold, Hmapped. ret_step. split; [done|].
    destruct (IsImageMapped_spec name w) as (_ & calls & Hcalls & _). by exists calls.
Qed.

End Steps.

(** ** Mapping and unmapping again *)

Section RoundTrip.

Variable e : Env.
Variable this : ImageManager.

Lemma MapWithDmLinear_success (name : string) (timeout_ms : Z) (p path : string)
    (w w' : World) :
  MapWithDmLinear e this name timeout_ms p w = ((true, path), w') →
  path = dm_path e name ∧
  w' = set_files <[GetStatusFilePath this name := "dm:" +:+ name]>
         (log (call_WriteStringToFile ("dm:" +:+ name) (GetStatusFilePath this name))
            (set_dm_nodes (fun s => {[name]} ∪ s)
               (log (call_CreateLogicalPartition name timeout_ms)
                  (log (call_OpenMetadata (metadata_dir_ this)) w)))).
Proof.
  unfold MapWithDmLinear. rewrite bind_unfold.
  unfold OpenMetadata. cbn [fst snd].
  destruct (if fails e _ _ then None else metadata w); [|done].
  rewrite bind_unfold. unfold CreateLogicalPartition. rewrite bind_unfold.
  unfold attempt. destruct (fails e _ _); ret_step; [done|].
  rewrite bind_unfold. unfold WriteStringToFile, attempt.
  destruct (fails e _ _); cbn [fst snd negb]; [by rewrite bind_unfold|].
  unfold ret. by intros [= <- <-].
Qed.

(** What a successful [MapImageDevice] started from. *)
Lemma MapImageDevice_success_from (name : string) (timeout_ms : Z) (p path : string)
    (w w' : World) :
  MapImageDevice e this name timeout_ms p w = ((true, path), w') →
  fst (IsImageMapped name w) = false ∧
  ∃ w1,
    (if snd (block_device_for_file e (GetImageHeaderPath this name))
     then MapWithDmLinear e this name timeout_ms p
     else MapWithLoopDevice e this name timeout_ms p)
      (log (call_GetBlockDeviceForFile (GetImageHeaderPath this name))
         (snd (IsImageMapped name w))) = ((true, path), w1) ∧
    w' = set_props <[GetStatusPropertyName name := path]>
           (log (call_SetProperty (GetStatusPropertyName name) path) w1).
Proof.
  unfold MapImageDevice. rewrite bind_unfold.
  destruct (IsImageMapped name w) as [[] wa]; cbn [fst snd]; [done|].
  rewrite bind_unfold. unfold FiemapWriter_GetBlockDeviceForFile. cbn [fst snd].
  destruct (fails e _ _); [done|].
  destruct (block_device_for_file e _) as [device can]. cbn [snd].
  rewrite bind_unfold.
  match goal with
  | |- context [(if can then ?a else ?b) ?w0] =>
      destruct ((if can then a else b) w0) as [[[] p1] w1] eqn:Hmap
  end; cbn [fst snd negb]; [|done].
  rewrite bind_unfold. unfold SetProperty, attempt.
  destruct (fails e _ _); cbn [fst snd negb]; [by rewrite bind_unfold|].
  unfold ret. intros [= <- <-]. split; [done|]. exists w1. split; [|done].
  by destruct can.
Qed.

(** An image that is not mapped has an empty property and no node. *)
Lemma IsImageMapped_false (name : string) (w : World) :
  fst (IsImageMapped name w) = false →
  default "" (props w !! GetStatusPropertyName name) = "" ∧ name ∉ dm_nodes w.
Proof.
  destruct (IsImageMapped_spec name w) as (-> & _).
  intros [Hprop Hnode]%orb_false_elim. split.
  - by destruct (String.eqb_spec (default "" (props w !! GetStatusPropertyName name)) "").
  - by apply bool_decide_eq_false in Hnode.
Qed.

(** X4: when an image is mapped by device-mapper and then unmapped, and the
    calls of the unmap do not fail, nothing of the mapping stays: the unmap
    succeeds, nodes and loop devices are those from before the mapping, the
    status file is gone, the property is empty, and the image no longer
    counts as mapped. *)
Theorem MapImageDevice_dm_linear_then_unmap
    (name : string) (timeout_ms : Z) (p path : string) (w w1 : World) :
  let status_file := GetStatusFilePath this name in
  let prop_name := GetStatusPropertyName name in
  plain_name name = true →
  snd (block_device_for_file e (GetImageHeaderPath this name)) = true →
  MapImageDevice e this name timeout_ms p w = ((true, path), w1) →
  (∀ h, fails e h (call_ReadFileToString status_file) = false) →
  (∀ h, fails e h (call_dm_DeleteDeviceIfExists name) = false) →
  (∀ h, fails e h (call_RemoveFileIfExists status_file) = false) →
  (∀ h, fails e h (call_SetProperty prop_name "") = false) →
  let result := UnmapImageDevice e this name false w1 in
  fst result = true ∧
  dm_nodes (snd result) = dm_nodes w ∧
  loops (snd result) = loops w ∧
  files (snd result) = delete status_file (files w) ∧
  props (snd result) = <[prop_name := ""]> (props w) ∧
  fst (IsImageMapped name (snd result)) = false.
Proof.
  intros status_file prop_name Hname Hdm Hmap Hread Hdelete Hremove Hclear result.
  apply MapImageDevice_success_from in Hmap as (Hfree & w2 & Hmap & ->).
  rewrite Hdm in Hmap. apply MapWithDmLinear_success in Hmap as (-> & ->).
  apply IsImageMapped_false in Hfree as (Hprop & Hnode).
  destruct (IsImageMapped_spec name w) as (_ & calls0 & Hcalls0 & _).
  destruct Hcalls0 as (Hp0 & Hf0 & Hd0 & Hl0 & _ & _ & _).
  apply andb_prop in Hname as [Hcolon Hnl].
  assert (fst result = true ∧
          dm_nodes (snd result) = ({[name]} ∪ dm_nodes w) ∖ {[name]} ∧
          loops (snd result) = loops w ∧
          files (snd result) =
            delete status_file (<[status_file := "dm:" +:+ name]> (files w)) ∧
          props (snd result) =
            <[prop_name := ""]> (<[prop_name := dm_path e name]> (props w)))
    as (Hres & Hnodes & Hloops & Hfiles & Hprops).
  { subst result.
    set (w1 := set_props _ _).
    assert (fst (IsImageMapped name w1) = true) as Hmapped.
    { destruct (IsImageMapped_spec name w1) as (-> & _).
      apply orb_true_iff. right. apply bool_decide_eq_true.
      subst w1. cbn [dm_nodes set_props log set_files set_dm_nodes].
      apply added_is_member. }
    destruct (unmap_refused_mapped name false w1 Hmapped) as (Hpass & calls1 & Hcalls1).
    destruct Hcalls1 as (Hp1 & Hf1 & Hd1 & Hl1 & _ & _ & _).
    set (wa := snd (unmap_refused name false w1)) in *.
    assert (props wa = <[prop_name := dm_path e name]> (props w)) as Hpa
      by (rewrite Hp1; subst w1; cbn [props set_props log set_files set_dm_nodes];
          by rewrite Hp0).
    assert (files wa = <[status_file := "dm:" +:+ name]> (files w)) as Hfa
      by (rewrite Hf1; subst w1; cbn [files set_props log set_files set_dm_nodes];
          by rewrite Hf0).
    assert (dm_nodes wa = {[name]} ∪ dm_nodes w) as Hda
      by (rewrite Hd1; subst w1; cbn [dm_nodes set_props log set_files set_dm_nodes];
          by rewrite Hd0).
    assert (loops wa = loops w) as Hla
      by (rewrite Hl1; subst w1; cbn [loops set_props log set_files set_dm_nodes];
          by rewrite Hl0).
    rewrite (UnmapImageDevice_replayed e this name false ("dm:" +:+ name) w1
               (set_dm_nodes (fun s => s ∖ {[name]})
                  (log (call_dm_DeleteDeviceIfExists name)
                     (log (call_ReadFileToString status_file) wa)))).
    - rewrite RemoveFileIfExists_ok by apply Hremove.
      rewrite SetProperty_ok by apply Hclear.
      cbn [fst snd props files dm_nodes loops set_props log set_files set_dm_nodes].
      by rewrite Hpa, Hfa, Hda, Hla.
    - done.
    - fold wa status_file. unfold ReadFileToString. cbn [fst].
      by rewrite Hfa, lookup_insert_eq, Hread.
    - fold wa status_file.
      rewrite (Split_free nl_char) by (by rewrite free_of_append, Hnl).
      rewrite unmap_lines_dm_line by done.
      rewrite dm_DeleteDeviceIfExists_live; [done| |apply Hdelete].
      cbn [dm_nodes log]. rewrite Hda. apply added_is_member. }
  split; [done|].
  assert (dm_nodes (snd result) = dm_nodes w) as Hnodes'
    by (by rewrite Hnodes, add_then_remove, remove_absent).
  split; [done|]. split; [done|].
  split; [by rewrite Hfiles, delete_insert_eq|].
  split; [by rewrite Hprops, insert_insert_eq|].
  destruct (IsImageMapped_spec name (snd result)) as (-> & _).
  rewrite Hprops, lookup_insert_eq. cbn [default String.eqb negb orb].
  apply bool_decide_eq_false. by rewrite Hnodes'.
Qed.

End RoundTrip.

Lemma MapImageDevice_dm_linear_then_unmap_witness :
  let e := Scenario.device Scenario.never true Scenario.two_files in
  let mapped := MapImageDevice e Scenario.manager "img" 1000 "" Scenario.unmapped in
  let result := UnmapImageDevice e Scenario.manager "img" false (snd mapped) in
  fst mapped = (true, "/dev/block/mapper/img") ∧
  (fst result = true ∧
   dm_nodes (snd result) = dm_nodes Scenario.unmapped ∧
   loops (snd result) = loops Scenario.unmapped ∧
   files (snd result) =
     delete (GetStatusFilePath Scenario.manager "img") (files Scenario.unmapped) ∧
   props (snd result) = <[GetStatusPropertyName "img" := ""]> (props Scenario.unmapped) ∧
   fst (IsImageMapped "img" (snd result)) = false).
Proof.
  intros e mapped result. split; [vm_compute; reflexivity|].
  apply (MapImageDevice_dm_linear_then_unmap e Scenario.manager "img" 1000 ""
           "/dev/block/mapper/img" Scenario.unmapped (snd mapped));
    try (intros h; reflexivity); vm_compute; reflexivity.
Defined.

Section SingleLoop.

Variable e : Env.
Variable this : ImageManager.

(** Run the goal forward through calls whose outcome the surroundings
    decide, splitting on each decision. *)
Ltac run_calls :=
  repeat first
    [ rewrite bind_unfold
    | progress ret_step
    | progress cbn [fst snd negb attach_files OptimizeLoopDevices AutoDetachLoopDevices
                    length Nat.eqb Nat.ltb Nat.leb app]
    | progress unfold steady_clock_now, CreateLoopDevice, sys_open, loop_Attach,
        loop_EnableDirectIo, loop_Detach, WriteStringToFile, attempt,
        SplitFiemap_GetSplitFileList
    | progress change (-1 <? 0) with true
    | match goal with
      | |- context [Z.of_N ?n <? 0] =>
          replace (Z.of_N n <? 0) with false by (symmetry; apply Z.ltb_ge; lia)
      | |- context [if fails e ?h ?c then _ else _] => destruct (fails e h c)
      end ].

(** The state a successful mapping of a one-file image through its loop
    device leaves. *)
Lemma MapWithLoopDevice_single_success (name : string) (timeout_ms : Z) (p path file : string)
    (w w' : World) :
  split_file_list e (GetImageHeaderPath this name) = [file] →
  MapWithLoopDevice e this name timeout_ms p w = ((true, path), w') →
  path = loop_path e file ∧
  props w' = props w ∧
  files w' = <[GetStatusFilePath this name := "loop:" +:+ path]> (files w) ∧
  dm_nodes w' = dm_nodes w ∧
  loops w' = {[path]} ∪ loops w.
Proof.
  intros Hlist. unfold MapWithLoopDevice. rewrite bind_unfold.
  unfold SplitFiemap_GetSplitFileList. cbn [fst snd]. rewrite Hlist.
  destruct (fails e (trace w) _); [done|].
  run_calls; try done.
  unfold back, id. cbn [last default]. by intros [= <- <-].
Qed.

(** X5: when an image kept in one file is mapped through its loop device and
    then unmapped, and the calls of the unmap do not fail, nothing of the
    mapping stays: the unmap succeeds, the loop device is detached, no node
    was made, the status file is gone, the property is empty, and the image
    no longer counts as mapped. *)
Theorem MapImageDevice_single_loop_then_unmap
    (name : string) (timeout_ms : Z) (p path file : string) (w w1 : World) :
  let status_file := GetStatusFilePath this name in
  let prop_name := GetStatusPropertyName name in
  split_file_list e (GetImageHeaderPath this name) = [file] →
  snd (block_device_for_file e (GetImageHeaderPath this name)) = false →
  plain_name path = true → path ≠ "" →
  MapImageDevice e this name timeout_ms p w = ((true, path), w1) →
  (∀ h, fails e h (call_ReadFileToString status_file) = false) →
  (∀ h, fails e h (call_loop_Detach path) = false) →
  (∀ h, fails e h (call_RemoveFileIfExists status_file) = false) →
  (∀ h, fails e h (call_SetProperty prop_name "") = false) →
  let result := UnmapImageDevice e this name false w1 in
  fst result = true ∧
  path = loop_path e file ∧
  dm_nodes (snd result) = dm_nodes w ∧
  loops (snd result) = loops w ∖ {[path]} ∧
  files (snd result) = delete status_file (files w) ∧
  props (snd result) = <[prop_name := ""]> (props w) ∧
  fst (IsImageMapped name (snd result)) = false.
Proof.
  intros status_file prop_name Hlist Hloop Hplain Hpath Hmap Hread Hdetach Hremove Hclear
    result.
  apply MapImageDevice_success_from in Hmap as (Hfree & w2 & Hmap & ->).
  rewrite Hloop in Hmap.
  apply (MapWithLoopDevice_single_success _ _ _ _ file) in Hmap
    as (Hdev & Hp2 & Hf2 & Hd2 & Hl2); [|done].
  apply IsImageMapped_false in Hfree as (Hprop & Hnode).
  destruct (IsImageMapped_spec name w) as (_ & calls0 & Hcalls0 & _).
  destruct Hcalls0 as (Hp0 & Hf0 & Hd0 & Hl0 & _ & _ & _).
  cbn [props files dm_nodes loops log] in Hp2, Hf2, Hd2, Hl2.
  rewrite Hp0 in Hp2. rewrite Hf0 in Hf2. rewrite Hd0 in Hd2. rewrite Hl0 in Hl2.
  apply andb_prop in Hplain as [Hcolon Hnl].
  set (w1 := set_props _ _) in *.
  assert (fst (IsImageMapped name w1) = true) as Hmapped.
  { destruct (IsImageMapped_spec name w1) as (-> & _).
    apply orb_true_iff. left. subst w1. cbn [props set_props log].
    fold prop_name. rewrite lookup_insert_eq. cbn [default]. unfold id.
    by destruct (String.eqb_spec path ""). }
  destruct (unmap_refused_mapped name false w1 Hmapped) as (Hpass & calls1 & Hcalls1).
  destruct Hcalls1 as (Hp1 & Hf1 & Hd1 & Hl1 & _ & _ & _).
  set (wa := snd (unmap_refused name false w1)) in *.
  assert (props wa = <[prop_name := path]> (props w)) as Hpa
    by (rewrite Hp1; subst w1; cbn [props set_props log]; by rewrite Hp2).
  assert (files wa = <[status_file := "loop:" +:+ path]> (files w)) as Hfa
    by (rewrite Hf1; subst w1; cbn [files set_props log]; by rewrite Hf2).
  assert (dm_nodes wa = dm_nodes w) as Hda
    by (rewrite Hd1; subst w1; cbn [dm_nodes set_props log]; by rewrite Hd2).
  assert (loops wa = {[path]} ∪ loops w) as Hla
    by (rewrite Hl1; subst w1; cbn [loops set_props log]; by rewrite Hl2).
  assert (UnmapImageDevice e this name false w1 =
            (true, snd (SetProperty e prop_name ""
                          (snd (RemoveFileIfExists e status_file
                                  (set_loops (fun s => s ∖ {[path]})
                                     (log (call_loop_Detach path)
                                        (log (call_ReadFileToString status_file) wa))))))))
    as Hrun.
  { apply (UnmapImageDevice_replayed e this name false ("loop:" +:+ path)).
    - done.
    - fold wa status_file. unfold ReadFileToString. cbn [fst].
      by rewrite Hfa, lookup_insert_eq, Hread.
    - fold wa status_file.
      rewrite (Split_free nl_char) by (by rewrite free_of_append, Hnl).
      rewrite unmap_lines_loop_line by done.
      by rewrite loop_Detach_ok by apply Hdetach. }
  subst result. rewrite Hrun.
  rewrite RemoveFileIfExists_ok by apply Hremove.
  rewrite SetProperty_ok by apply Hclear.
  cbn [fst snd props files dm_nodes loops set_props log set_files set_loops].
  rewrite Hpa, Hfa, Hda, Hla.
  split; [done|]. split; [done|]. split; [done|].
  split; [apply add_then_remove|].
  split; [by rewrite delete_insert_eq|].
  split; [by rewrite insert_insert_eq|].
  match goal with |- fst (IsImageMapped name ?wz) = false =>
    destruct (IsImageMapped_spec name wz) as (-> & _) end.
  cbn [props dm_nodes set_props log set_files set_loops].
  rewrite Hpa, Hda, lookup_insert_eq. cbn [default String.eqb negb orb].
  by apply bool_decide_eq_false.
Qed.

End SingleLoop.

Lemma MapImageDevice_single_loop_then_unmap_witness :
  let e := Scenario.device Scenario.never false Scenario.one_file in
  let mapped := MapImageDevice e Scenario.manager "img" 1000 "" Scenario.unmapped in
  let result := UnmapImageDevice e Scenario.manager "img" false (snd mapped) in
  fst mapped = (true, "/dev/block/loop0") ∧
  (fst result = true ∧
   "/dev/block/loop0" = loop_path e "/data/gsi/dsu/img.img" ∧
   dm_nodes (snd result) = dm_nodes Scenario.unmapped ∧
   loops (snd result) = loops Scenario.unmapped ∖ {["/dev/block/loop0"]} ∧
   files (snd result) =
     delete (GetStatusFilePath Scenario.manager "img") (files Scenario.unmapped) ∧
   props (snd result) = <[GetStatusPropertyName "img" := ""]> (props Scenario.unmapped) ∧
   fst (IsImageMapped "img" (snd result)) = false).
Proof.
  intros e mapped result. split; [vm_compute; reflexivity|].
  apply (MapImageDevice_single_loop_then_unmap e Scenario.manager "img" 1000 ""
           "/dev/block/loop0" "/data/gsi/dsu/img.img" Scenario.unmapped (snd mapped));
    try (intros h; reflexivity); try discriminate; vm_compute; reflexivity.
Defined.

(** ** What an unmap takes down *)

Section Replay.

Variable e : Env.
Variable this : ImageManager.

Lemma dm_DeleteDeviceIfExists_ok (name : string) (w : World) :
  fails e (trace w) (call_dm_DeleteDeviceIfExists name) = false →
  fst (dm_DeleteDeviceIfExists e name w) = true ∧
  dm_nodes (snd (dm_DeleteDeviceIfExists e name w)) = dm_nodes w ∖ {[name]} ∧
  loops (snd (dm_DeleteDeviceIfExists e name w)) = loops w ∧
  files (snd (dm_DeleteDeviceIfExists e name w)) = files w ∧
  props (snd (dm_DeleteDeviceIfExists e name w)) = props w.
Proof.
  intros Hok. unfold dm_DeleteDeviceIfExists, attempt.
  destruct (decide (name ∈ dm_nodes w)) as [Hin|Hout].
  - by rewrite Hok.
  - cbn [fst snd dm_nodes loops files props log]. by rewrite remove_absent.
Qed.

(** The unmap of an image whose record is the line [dm:] with its name, when
    none of its calls fails: the node goes, and the record, and the property
    is emptied. *)
Lemma UnmapImageDevice_dm_record (name : string) (force : bool) (w : World) :
  let status_file := GetStatusFilePath this name in
  let prop_name := GetStatusPropertyName name in
  plain_name name = true →
  fst (unmap_refused name force w) = false →
  files w !! status_file = Some ("dm:" +:+ name) →
  (∀ h, fails e h (call_ReadFileToString status_file) = false) →
  (∀ h, fails e h (call_dm_DeleteDeviceIfExists name) = false) →
  (∀ h, fails e h (call_RemoveFileIfExists status_file) = false) →
  (∀ h, fails e h (call_SetProperty prop_name "") = false) →
  let result := UnmapImageDevice e this name force w in
  fst result = true ∧
  dm_nodes (snd result) = dm_nodes w ∖ {[name]} ∧
  loops (snd result) = loops w ∧
  files (snd result) = delete status_file (files w) ∧
  props (snd result) = <[prop_name := ""]> (props w).
Proof.
  intros status_file prop_name [Hcolon Hnl]%andb_prop Hpass Hrecord Hread Hdelete Hremove
    Hclear result.
  destruct (unmap_refused_only_called name force w) as (calls & Hcalls & _).
  destruct Hcalls as (Hp & Hf & Hd & Hl & _ & _ & _).
  set (wa := snd (unmap_refused name force w)) in *.
  set (wr := log (call_ReadFileToString status_file) wa).
  destruct (dm_DeleteDeviceIfExists_ok name wr (Hdelete _))
    as (Hdeleted & Hd3 & Hl3 & Hf3 & Hp3).
  subst result.
  rewrite (UnmapImageDevice_replayed e this name force ("dm:" +:+ name) w
             (snd (dm_DeleteDeviceIfExists e name wr))).
  - rewrite RemoveFileIfExists_ok by apply Hremove.
    rewrite SetProperty_ok by apply Hclear.
    cbn [fst snd props files dm_nodes loops set_props log set_files].
    rewrite Hd3, Hl3, Hf3, Hp3. subst wr. cbn [props files dm_nodes loops log].
    by rewrite Hp, Hf, Hd, Hl.
  - done.
  - fold wa status_file. unfold ReadFileToString. cbn [fst].
    by rewrite Hf, Hrecord, Hread.
  - fold wa status_file wr.
    rewrite (Split_free nl_char) by (by rewrite free_of_append, Hnl).
    rewrite unmap_lines_dm_line by done.
    by rewrite Hdeleted.
Qed.

(** The unmap of an image whose record is the line [loop:] with a device,
    when none of its calls fails: the device is detached, the record goes,
    and the property is emptied. *)
Lemma UnmapImageDevice_loop_record (name path : string) (force : bool) (w : World) :
  let status_file := GetStatusFilePath this name in
  let prop_name := GetStatusPropertyName name in
  plain_name path = true →
  fst (unmap_refused name force w) = false →
  files w !! status_file = Some ("loop:" +:+ path) →
  (∀ h, fails e h (call_ReadFileToString status_file) = false) →
  (∀ h, fails e h (call_loop_Detach path) = false) →
  (∀ h, fails e h (call_RemoveFileIfExists status_file) = false) →
  (∀ h, fails e h (call_SetProperty prop_name "") = false) →
  let result := UnmapImageDevice e this name force w in
  fst result = true ∧
  dm_nodes (snd result) = dm_nodes w ∧
  loops (snd result) = loops w ∖ {[path]} ∧
  files (snd result) = delete status_file (files w) ∧
  props (snd result) = <[prop_name := ""]> (props w).
Proof.
  intros status_file prop_name [Hcolon Hnl]%andb_prop Hpass Hrecord Hread Hdetach Hremove
    Hclear result.
  destruct (unmap_refused_only_called name force w) as (calls & Hcalls & _).
  destruct Hcalls as (Hp & Hf & Hd & Hl & _ & _ & _).
  set (wa := snd (unmap_refused name force w)) in *.
  set (wr := log (call_ReadFileToString status_file) wa).
  subst result.
  rewrite (UnmapImageDevice_replayed e this name force ("loop:" +:+ path) w
             (set_loops (fun s => s ∖ {[path]}) (log (call_loop_Detach path) wr))).
  - rewrite RemoveFileIfExists_ok by apply Hremove.
    rewrite SetProperty_ok by apply Hclear.
    subst wr. cbn [fst snd props files dm_nodes loops set_props log set_files set_loops].
    by rewrite Hp, Hf, Hd, Hl.
  - done.
  - fold wa status_file. unfold ReadFileToString. cbn [fst].
    by rewrite Hf, Hrecord, Hread.
  - fold wa status_file wr.
    rewrite (Split_free nl_char) by (by rewrite free_of_append, Hnl).
    rewrite unmap_lines_loop_line by done.
    by rewrite loop_Detach_ok by apply Hdetach.
Qed.

(** Whatever fails, the unmap of an image whose record is the line [loop:]
    with a device deletes no node and detaches no other device. *)
Lemma UnmapImageDevice_loop_record_keeps_nodes (name path : string) (force : bool)
    (w : World) :
  plain_name path = true →
  files w !! GetStatusFilePath this name = Some ("loop:" +:+ path) →
  let result := UnmapImageDevice e this name force w in
  dm_nodes (snd result) = dm_nodes w ∧
  (∀ d, d ∈ loops w → d ≠ path → d ∈ loops (snd result)).
Proof.
  intros [Hcolon Hnl]%andb_prop Hrecord result. subst result.
  destruct (unmap_refused_only_called name force w) as (calls & Hcalls & _).
  destruct Hcalls as (_ & Hf & Hd & Hl & _ & _ & _).
  unfold UnmapImageDevice. rewrite bind_unfold.
  destruct (unmap_refused name force w) as [refused wa]. cbn [fst snd] in Hf, Hd, Hl |- *.
  destruct refused.
  { ret_step. split; [done|]. intros d Hin _. by rewrite Hl. }
  rewrite bind_unfold. unfold ReadFileToString. cbn [fst snd]. rewrite Hf, Hrecord.
  destruct (fails e (trace wa) _).
  { ret_step. cbn [dm_nodes loops log]. split; [done|]. intros d Hin _. by rewrite Hl. }
  rewrite bind_unfold.
  rewrite (Split_free nl_char) by (by rewrite free_of_append, Hnl).
  rewrite unmap_lines_loop_line by done.
  cbn [unmap_lines]. ret_step. rewrite !bind_unfold. ret_step.
  unfold SetProperty, RemoveFileIfExists, loop_Detach, attempt.
  repeat match goal with
         | |- context [if fails e ?h ?c then _ else _] => destruct (fails e h c)
         end;
    cbn [fst snd dm_nodes loops set_props set_files set_loops log];
    (split; [done|intros d Hin Hne; rewrite Hl;
                  first [done
                        |apply elem_of_difference;
                         split; [done|by rewrite elem_of_singleton]]]).
Qed.

(** The state a successful mapping by device-mapper leaves. *)
Lemma MapImageDevice_dm_linear_state (name : string) (timeout_ms : Z) (p path : string)
    (w w1 : World) :
  snd (block_device_for_file e (GetImageHeaderPath this name)) = true →
  MapImageDevice e this name timeout_ms p w = ((true, path), w1) →
  (name ∉ dm_nodes w) ∧
  props w1 = <[GetStatusPropertyName name := path]> (props w) ∧
  files w1 = <[GetStatusFilePath this name := "dm:" +:+ name]> (files w) ∧
  dm_nodes w1 = {[name]} ∪ dm_nodes w ∧
  loops w1 = loops w.
Proof.
  intros Hdm Hmap.
  apply MapImageDevice_success_from in Hmap as (Hfree & w2 & Hmap & ->).
  rewrite Hdm in Hmap. apply MapWithDmLinear_success in Hmap as (-> & ->).
  apply IsImageMapped_false in Hfree as (_ & Hnode).
  destruct (IsImageMapped_spec name w) as (_ & calls0 & Hcalls0 & _).
  destruct Hcalls0 as (Hp0 & Hf0 & Hd0 & Hl0 & _ & _ & _).
  cbn [props files dm_nodes loops set_props set_files set_dm_nodes log].
  by rewrite Hp0, Hf0, Hd0, Hl0.
Qed.

(** The state a successful mapping of a one-file image through its loop
    device leaves. *)
Lemma MapImageDevice_single_loop_state (name : string) (timeout_ms : Z)
    (p path file : string) (w w1 : World) :
  split_file_list e (GetImageHeaderPath this name) = [file] →
  snd (block_device_for_file e (GetImageHeaderPath this name)) = false →
  MapImageDevice e this name timeout_ms p w = ((true, path), w1) →
  (name ∉ dm_nodes w) ∧
  props w1 = <[GetStatusPropertyName name := path]> (props w) ∧
  files w1 = <[GetStatusFilePath this name := "loop:" +:+ path]> (files w) ∧
  dm_nodes w1 = dm_nodes w ∧
  loops w1 = {[path]} ∪ loops w.
Proof.
  intros Hlist Hloop Hmap.
  apply MapImageDevice_success_from in Hmap as (Hfree & w2 & Hmap & ->).
  rewrite Hloop in Hmap.
  apply (MapWithLoopDevice_single_success e this _ _ _ _ file) in Hmap
    as (Hdev & Hp2 & Hf2 & Hd2 & Hl2); [|done].
  apply IsImageMapped_false in Hfree as (_ & Hnode).
  destruct (IsImageMapped_spec name w) as (_ & calls0 & Hcalls0 & _).
  destruct Hcalls0 as (Hp0 & Hf0 & Hd0 & Hl0 & _ & _ & _).
  cbn [props files dm_nodes loops log] in Hp2, Hf2, Hd2, Hl2.
  cbn [props files dm_nodes loops set_props log].
  by rewrite Hp2, Hf2, Hd2, Hl2, Hp0, Hf0, Hd0, Hl0.
Qed.

End Replay.

(** ** The guard that cannot open its device *)

Section GuardRelease.

Variable e : Env.
Variable this : ImageManager.

(** C4 (amended): when the image was mapped and the descriptor on the
    returned path cannot be opened, [MappedDevice::Open] fails and, before it
    returns, releases the guard it had built, which unmaps the image without
    force: the state [Open] leaves is the state that unmap leaves, and for a
    non-empty path the unmap is not refused, it reads the property and then
    the status file.  When the image was mapped by device-mapper, or through
    the loop device of its one file, and no call of the unmap fails, nothing
    of the mapping is left: nodes are as before the call, the loop device
    that was attached is detached, the status file is gone, the property is
    empty, and the image does not count as mapped. *)
Theorem MappedDevice_Open_failed_open_unmaps
    (name : string) (timeout_ms : Z) (path : string) (w w1 : World) :
  let header := GetImageHeaderPath this name in
  let status_file := GetStatusFilePath this name in
  let prop_name := GetStatusPropertyName name in
  MapImageDevice e this name timeout_ms "" w = ((true, path), w1) →
  fails e (trace w1) (call_open path) = true →
  let w2 := log (call_open path) w1 in
  let result := MappedDevice_Open e this timeout_ms name w in
  fst result = None ∧
  snd result = snd (UnmapImageDevice e this name false w2) ∧
  (path ≠ "" →
   ∃ rest, trace (snd result) =
           trace w1 ++ [call_open path;
                        call_GetProperty prop_name;
                        call_ReadFileToString status_file] ++ rest) ∧
  ((∀ h, fails e h (call_ReadFileToString status_file) = false) →
   (∀ h, fails e h (call_dm_DeleteDeviceIfExists name) = false) →
   (∀ h, fails e h (call_loop_Detach path) = false) →
   (∀ h, fails e h (call_RemoveFileIfExists status_file) = false) →
   (∀ h, fails e h (call_SetProperty prop_name "") = false) →
   (snd (block_device_for_file e header) = true ∧ plain_name name = true) ∨
   (snd (block_device_for_file e header) = false ∧
    length (split_file_list e header) = 1%nat ∧ plain_name path = true ∧ path ≠ "") →
   dm_nodes (snd result) = dm_nodes w ∧
   loops (snd result) =
     (if snd (block_device_for_file e header) then loops w else loops w ∖ {[path]}) ∧
   files (snd result) = delete status_file (files w) ∧
   props (snd result) = <[prop_name := ""]> (props w) ∧
   fst (IsImageMapped name (snd result)) = false).
Proof.
  intros header status_file prop_name Hmap Hopen w2 result.
  destruct (MappedDevice_Open_failed_open_runs_unmap e this name timeout_ms path w w1
              Hmap Hopen) as (Hnone & Hworld & Hstart).
  fold w2 result in Hnone, Hworld, Hstart.
  split; [done|]. split; [done|]. split; [done|].
  intros Hread Hdelete Hdetach Hremove Hclear Hhow.
  rewrite Hworld.
  assert (∀ wz, props wz = <[prop_name := ""]> (props w) → dm_nodes wz = dm_nodes w →
                name ∉ dm_nodes w → fst (IsImageMapped name wz) = false) as Hgone.
  { intros wz Hp Hd Hnode. destruct (IsImageMapped_spec name wz) as (-> & _).
    rewrite Hp, Hd. fold prop_name. rewrite lookup_insert_eq.
    cbn [default String.eqb negb orb]. by apply bool_decide_eq_false. }
  destruct Hhow as [[Hdm Hplain]|(Hloop & Hone & Hplain & Hpath)].
  - destruct (MapImageDevice_dm_linear_state e this name timeout_ms "" path w w1 Hdm Hmap)
      as (Hnode & Hp1 & Hf1 & Hd1 & Hl1).
    fold header in Hdm. rewrite Hdm.
    assert (fst (IsImageMapped name w2) = true) as Hmapped.
    { destruct (IsImageMapped_spec name w2) as (-> & _).
      apply orb_true_iff. right. apply bool_decide_eq_true.
      subst w2. cbn [dm_nodes log]. rewrite Hd1. apply added_is_member. }
    destruct (unmap_refused_mapped name false w2 Hmapped) as (Hpass & _).
    destruct (UnmapImageDevice_dm_record e this name false w2 Hplain Hpass)
      as (_ & Hd & Hl & Hf & Hp); try done.
    { subst w2. cbn [files log]. rewrite Hf1. apply lookup_insert_eq. }
    fold status_file prop_name in Hf, Hp.
    subst w2. cbn [props files dm_nodes loops log] in Hd, Hl, Hf, Hp.
    rewrite Hd1 in Hd. rewrite Hl1 in Hl. rewrite Hf1 in Hf. rewrite Hp1 in Hp.
    fold status_file in Hf. fold prop_name in Hp.
    rewrite add_then_remove, remove_absent in Hd by done.
    rewrite delete_insert_eq in Hf. rewrite insert_insert_eq in Hp.
    repeat (split; [done|]). by apply Hgone.
  - destruct (split_file_list e header) as [|file [|? ?]] eqn:Hlist; try done.
    destruct (MapImageDevice_single_loop_state e this name timeout_ms "" path file w w1
                Hlist Hloop Hmap) as (Hnode & Hp1 & Hf1 & Hd1 & Hl1).
    fold header in Hloop. rewrite Hloop.
    assert (fst (IsImageMapped name w2) = true) as Hmapped.
    { destruct (IsImageMapped_spec name w2) as (-> & _).
      apply orb_true_iff. left. subst w2. cbn [props log]. rewrite Hp1.
      rewrite lookup_insert_eq. cbn [default]. unfold id.
      by destruct (String.eqb_spec path ""). }
    destruct (unmap_refused_mapped name false w2 Hmapped) as (Hpass & _).
    destruct (UnmapImageDevice_loop_record e this name path false w2 Hplain Hpass)
      as (_ & Hd & Hl & Hf & Hp); try done.
    { subst w2. cbn [files log]. rewrite Hf1. apply lookup_insert_eq. }
    fold status_file prop_name in Hf, Hp.
    subst w2. cbn [props files dm_nodes loops log] in Hd, Hl, Hf, Hp.
    rewrite Hd1 in Hd. rewrite Hl1 in Hl. rewrite Hf1 in Hf. rewrite Hp1 in Hp.
    fold status_file in Hf. fold prop_name in Hp.
    rewrite add_then_remove in Hl.
    rewrite delete_insert_eq in Hf. rewrite insert_insert_eq in Hp.
    repeat (split; [done|]). by apply Hgone.
Qed.

End GuardRelease.

Lemma MappedDevice_Open_failed_open_unmaps_witness :
  let by_dm := Scenario.device Scenario.open_fails true Scenario.two_files in
  let by_loop := Scenario.device Cases.guard_open_fails false Scenario.one_file in
  let w := Scenario.unmapped in
  let status_file := GetStatusFilePath Scenario.manager "img" in
  let prop_name := GetStatusPropertyName "img" in
  let opened e := MappedDevice_Open e Scenario.manager 1000 "img" w in
  fst (MapImageDevice by_dm Scenario.manager "img" 1000 "" w) = (true, "/dev/block/mapper/img") ∧
  fst (MapImageDevice by_loop Scenario.manager "img" 1000 "" w) = (true, "/dev/block/loop0") ∧
  (fst (opened by_dm) = None ∧
   dm_nodes (snd (opened by_dm)) = dm_nodes w ∧
   loops (snd (opened by_dm)) = loops w ∧
   files (snd (opened by_dm)) = delete status_file (files w) ∧
   props (snd (opened by_dm)) = <[prop_name := ""]> (props w) ∧
   fst (IsImageMapped "img" (snd (opened by_dm))) = false) ∧
  (fst (opened by_loop) = None ∧
   dm_nodes (snd (opened by_loop)) = dm_nodes w ∧
   loops (snd (opened by_loop)) = loops w ∖ {["/dev/block/loop0"]} ∧
   files (snd (opened by_loop)) = delete status_file (files w) ∧
   props (snd (opened by_loop)) = <[prop_name := ""]> (props w) ∧
   fst (IsImageMapped "img" (snd (opened by_loop))) = false).
Proof.
  intros by_dm by_loop w status_file prop_name opened.
  split; [vm_compute; reflexivity|]. split; [vm_compute; reflexivity|]. split.
  - destruct (MappedDevice_Open_failed_open_unmaps by_dm Scenario.manager "img" 1000
                "/dev/block/mapper/img" w
                (snd (MapImageDevice by_dm Scenario.manager "img" 1000 "" w)))
      as (Hnone & _ & _ & Hdown); [vm_compute; reflexivity..|].
    split; [exact Hnone|].
    apply Hdown; try (intros h; reflexivity).
    left. split; vm_compute; reflexivity.
  - destruct (MappedDevice_Open_failed_open_unmaps by_loop Scenario.manager "img" 1000
                "/dev/block/loop0" w
                (snd (MapImageDevice by_loop Scenario.manager "img" 1000 "" w)))
      as (Hnone & _ & _ & Hdown); [vm_compute; reflexivity..|].
    split; [exact Hnone|].
    apply Hdown; try (intros h; reflexivity).
    right. split; [vm_compute; reflexivity|]. split; [vm_compute; reflexivity|].
    split; [vm_compute; reflexivity|]. discriminate.
Defined.

(** C4, as stated, fails: the image is mapped by device-mapper, the guard
    cannot open the node, and when [MappedDevice::Open] returns its failure
    the node is deleted, the status file removed and the property emptied. *)
Lemma MappedDevice_Open_failed_open_leaves_nothing_mapped :
  let e := Scenario.device Scenario.open_fails true Scenario.two_files in
  let mapped := MapImageDevice e Scenario.manager "img" 1000 "" Scenario.unmapped in
  let result := MappedDevice_Open e Scenario.manager 1000 "img" Scenario.unmapped in
  fst mapped = (true, "/dev/block/mapper/img") ∧
  elements (dm_nodes (snd mapped)) = ["img"] ∧
  fst result = None ∧
  elements (dm_nodes (snd result)) = [] ∧
  files (snd result) !! "/metadata/gsi/dsu/img.status" = None ∧
  props (snd result) !! "gsid.mapped_image.img" = Some "" ∧
  fst (IsImageMapped "img" (snd result)) = false ∧
  trace (snd result) =
    [call_GetProperty "gsid.mapped_image.img";
     call_dm_GetState "img";
     call_GetBlockDeviceForFile "/data/gsi/dsu/img.img";
     call_OpenMetadata "/metadata/gsi/dsu";
     call_CreateLogicalPartition "img" 1000;
     call_WriteStringToFile "dm:img" "/metadata/gsi/dsu/img.status";
     call_SetProperty "gsid.mapped_image.img" "/dev/block/mapper/img";
     call_open "/dev/block/mapper/img";
     call_GetProperty "gsid.mapped_image.img";
     call_ReadFileToString "/metadata/gsi/dsu/img.status";
     call_dm_DeleteDeviceIfExists "img";
     call_RemoveFileIfExists "/metadata/gsi/dsu/img.status";
     call_SetProperty "gsid.mapped_image.img" ""].
Proof. vm_compute. repeat split. Qed.

(** An image split over two files: its record names the last loop device
    only, so that the release of the guard detaches that device and leaves
    the node and the first loop device where they are. *)
Example MappedDevice_Open_failed_open_two_files :
  let e := Scenario.device Cases.guard_open_fails false Scenario.two_files in
  let result := MappedDevice_Open e Scenario.manager 1000 "img" Scenario.unmapped in
  fst result = None ∧
  elements (dm_nodes (snd result)) = ["img"] ∧
  elements (loops (snd result)) = ["/dev/block/loop0"] ∧
  fst (IsImageMapped "img" (snd result)) = true.
Proof. vm_compute. repeat split. Qed.

(** ** The property that cannot be set *)

Section PropertyFailure.

Variable e : Env.
Variable this : ImageManager.

(** When the image was mapped by device-mapper, or through the loop device
    of its one file, and the property cannot be set, the forced unmap, if
    none of its calls fails, takes down all that the mapping had made. *)
Lemma MapImageDevice_property_failure_unmaps
    (name : string) (timeout_ms : Z) (p path : string) (w w1 : World) :
  let header := GetImageHeaderPath this name in
  let status_file := GetStatusFilePath this name in
  let prop_name := GetStatusPropertyName name in
  fst (IsImageMapped name w) = false →
  let wa := snd (IsImageMapped name w) in
  fails e (trace wa) (call_GetBlockDeviceForFile header) = false →
  let wb := log (call_GetBlockDeviceForFile header) wa in
  (if snd (block_device_for_file e header)
   then MapWithDmLinear e this name timeout_ms p wb
   else MapWithLoopDevice e this name timeout_ms p wb) = ((true, path), w1) →
  fails e (trace w1) (call_SetProperty prop_name path) = true →
  (∀ h, fails e h (call_ReadFileToString status_file) = false) →
  (∀ h, fails e h (call_dm_DeleteDeviceIfExists name) = false) →
  (∀ h, fails e h (call_loop_Detach path) = false) →
  (∀ h, fails e h (call_RemoveFileIfExists status_file) = false) →
  (∀ h, fails e h (call_SetProperty prop_name "") = false) →
  (snd (block_device_for_file e header) = true ∧ plain_name name = true) ∨
  (snd (block_device_for_file e header) = false ∧
   length (split_file_list e header) = 1%nat ∧ plain_name path = true) →
  let result := MapImageDevice e this name timeout_ms p w in
  fst result = (false, path) ∧
  dm_nodes (snd result) = dm_nodes w ∧
  loops (snd result) =
    (if snd (block_device_for_file e header) then loops w else loops w ∖ {[path]}) ∧
  files (snd result) = delete status_file (files w) ∧
  props (snd result) = <[prop_name := ""]> (props w).
Proof.
  intros header status_file prop_name Hfree wa Hfound wb Hmap Hset Hread Hdelete Hdetach
    Hremove Hclear Hhow result.
  destruct (MapImageDevice_property_failure_forces_unmap e this name timeout_ms p path w w1)
    as (Hres & Hworld & _); try done.
  fold result in Hres, Hworld. split; [done|]. rewrite Hworld.
  apply IsImageMapped_false in Hfree as (_ & Hnode).
  destruct (IsImageMapped_spec name w) as (_ & calls0 & Hcalls0 & _).
  destruct Hcalls0 as (Hp0 & Hf0 & Hd0 & Hl0 & _ & _ & _). fold wa in Hp0, Hf0, Hd0, Hl0.
  set (w2 := log (call_SetProperty (GetStatusPropertyName name) path) w1).
  destruct Hhow as [[Hdm Hplain]|(Hloop & Hone & Hplain)].
  - rewrite Hdm in Hmap |- *. apply MapWithDmLinear_success in Hmap as (-> & ->).
    destruct (UnmapImageDevice_dm_record e this name true w2 Hplain eq_refl)
      as (_ & Hd & Hl & Hf & Hp); try done.
    { subst w2. cbn [files set_files log]. apply lookup_insert_eq. }
    fold status_file prop_name in Hf, Hp.
    subst w2 wb. cbn [props files dm_nodes loops set_files set_dm_nodes log] in Hd, Hl, Hf, Hp.
    rewrite Hd0 in Hd. rewrite Hl0 in Hl. rewrite Hf0 in Hf. rewrite Hp0 in Hp.
    fold status_file in Hf.
    rewrite add_then_remove, remove_absent in Hd by done.
    rewrite delete_insert_eq in Hf. done.
  - rewrite Hloop in Hmap |- *.
    destruct (split_file_list e header) as [|file [|? ?]] eqn:Hlist; try done.
    apply (MapWithLoopDevice_single_success e this _ _ _ _ file) in Hmap
      as (_ & Hp1 & Hf1 & Hd1 & Hl1); [|done].
    destruct (UnmapImageDevice_loop_record e this name path true w2 Hplain eq_refl)
      as (_ & Hd & Hl & Hf & Hp); try done.
    { subst w2. cbn [files log]. rewrite Hf1. apply lookup_insert_eq. }
    fold status_file prop_name in Hf, Hp.
    subst w2 wb. cbn [props files dm_nodes loops log] in Hd, Hl, Hf, Hp, Hp1, Hf1, Hd1, Hl1.
    rewrite Hd1, Hd0 in Hd. rewrite Hl1, Hl0 in Hl. rewrite Hf1, Hf0 in Hf.
    rewrite Hp1, Hp0 in Hp. fold status_file in Hf.
    rewrite add_then_remove in Hl. rewrite delete_insert_eq in Hf. done.
Qed.

(** C8 (not met by the code): on storage that cannot take device-mapper, an
    image split over several files is mapped, through a node over its loop
    devices, and the property that records the mapping cannot be set.
    [MapImageDevice] returns failure after its forced unmap, and yet the node
    it had created is live, the image counts as mapped, and of the loop
    devices it had attached only the last may have been detached: the status
    file listed nothing else. *)
Theorem MapImageDevice_property_failure_leaves_node
    (name : string) (timeout_ms : Z) (p path : string) (w w1 : World) :
  let header := GetImageHeaderPath this name in
  let prop_name := GetStatusPropertyName name in
  fst (IsImageMapped name w) = false →
  let wa := snd (IsImageMapped name w) in
  fails e (trace wa) (call_GetBlockDeviceForFile header) = false →
  let wb := log (call_GetBlockDeviceForFile header) wa in
  snd (block_device_for_file e header) = false →
  (1 < length (split_file_list e header))%nat →
  MapWithLoopDevice e this name timeout_ms p wb = ((true, path), w1) →
  plain_name path = true →
  fails e (trace w1) (call_SetProperty prop_name path) = true →
  let result := MapImageDevice e this name timeout_ms p w in
  fst result = (false, path) ∧
  (name ∉ dm_nodes w) ∧
  name ∈ dm_nodes (snd result) ∧
  fst (IsImageMapped name (snd result)) = true ∧
  (∀ d, d ∈ loops w1 → d ≠ path → d ∈ loops (snd result)).
Proof.
  intros header prop_name Hfree wa Hfound wb Hloop Hmany Hmap Hplain Hset result.
  destruct (MapImageDevice_property_failure_forces_unmap e this name timeout_ms p path w w1)
    as (Hres & Hworld & _); try done.
  { fold header. by rewrite Hloop. }
  fold result in Hres, Hworld. subst prop_name.
  apply MapWithLoopDevice_success in Hmap as (_ & Hrecord & Hnode).
  specialize (Hnode Hmany).
  destruct (UnmapImageDevice_loop_record_keeps_nodes e this name path true
              (log (call_SetProperty (GetStatusPropertyName name) path) w1) Hplain Hrecord)
    as (Hd & Hl).
  cbn [dm_nodes loops log] in Hd, Hl.
  assert (name ∈ dm_nodes (snd result)) as Hlive by (by rewrite Hworld, Hd).
  split; [done|].
  split; [by apply IsImageMapped_false in Hfree as (_ & ?)|].
  split; [done|]. split; [|by rewrite Hworld].
  destruct (IsImageMapped_spec name (snd result)) as (-> & _).
  rewrite (bool_decide_eq_true_2 _ Hlive). apply orb_true_r.
Qed.

End PropertyFailure.

(** On a device: the image is mapped by device-mapper, the property cannot
    be set, and the node and the record are gone again. *)
Example MapImageDevice_property_failure_dm_linear :
  let e := Scenario.device Cases.record_property_fails true Scenario.one_file in
  let result := MapImageDevice e Scenario.manager "img" 1000 "" Scenario.unmapped in
  fst result = (false, "/dev/block/mapper/img") ∧
  elements (dm_nodes (snd result)) = [] ∧
  files (snd result) !! "/metadata/gsi/dsu/img.status" = None ∧
  trace (snd result) =
    [call_GetProperty "gsid.mapped_image.img";
     call_dm_GetState "img";
     call_GetBlockDeviceForFile "/data/gsi/dsu/img.img";
     call_OpenMetadata "/metadata/gsi/dsu";
     call_CreateLogicalPartition "img" 1000;
     call_WriteStringToFile "dm:img" "/metadata/gsi/dsu/img.status";
     call_SetProperty "gsid.mapped_image.img" "/dev/block/mapper/img";
     call_ReadFileToString "/metadata/gsi/dsu/img.status";
     call_dm_DeleteDeviceIfExists "img";
     call_RemoveFileIfExists "/metadata/gsi/dsu/img.status";
     call_SetProperty "gsid.mapped_image.img" ""].
Proof. vm_compute. repeat split. Qed.

Lemma MapImageDevice_property_failure_leaves_node_witness :
  let e := Scenario.device Scenario.set_property_fails false Scenario.two_files in
  let w := Scenario.unmapped in
  let wb := log (call_GetBlockDeviceForFile "/data/gsi/dsu/img.img")
              (snd (IsImageMapped "img" w)) in
  let w1 := snd (MapWithLoopDevice e Scenario.manager "img" 1000 "" wb) in
  let result := MapImageDevice e Scenario.manager "img" 1000 "" w in
  "/dev/block/loop0" ∈ loops w1 ∧
  elements (loops (snd result)) = ["/dev/block/loop0"] ∧
  files (snd result) !! "/metadata/gsi/dsu/img.status" = None ∧
  fst (UnmapImageDevice e Scenario.manager "img" false (snd result)) = false ∧
  (fst result = (false, "/dev/block/loop1") ∧
   ("img" ∉ dm_nodes w) ∧
   "img" ∈ dm_nodes (snd result) ∧
   fst (IsImageMapped "img" (snd result)) = true ∧
   (∀ d, d ∈ loops w1 → d ≠ "/dev/block/loop1" → d ∈ loops (snd result))).
Proof.
  intros e w wb w1 result.
  split; [apply (bool_decide_unpack _); vm_compute; exact I|].
  split; [vm_compute; reflexivity|].
  split; [vm_compute; reflexivity|]. split; [vm_compute; reflexivity|].
  apply (MapImageDevice_property_failure_leaves_node e Scenario.manager "img" 1000 ""
           "/dev/block/loop1" w w1).
  - vm_compute; reflexivity.
  - vm_compute; reflexivity.
  - vm_compute; reflexivity.
  - vm_compute. lia.
  - vm_compute; reflexivity.
  - vm_compute; reflexivity.
  - vm_compute; reflexivity.
Defined.

(** ** After a mapping *)

Section AfterMap.

Variable e : Env.
Variable this : ImageManager.

(** X6: right after a successful [MapImageDevice] by device-mapper, or one
    that returned a non-empty path, the image counts as mapped, and a second
    [MapImageDevice] of it fails. *)
Theorem MapImageDevice_then_mapped
    (name : string) (timeout_ms timeout_ms' : Z) (p p' path : string) (w w' : World) :
  MapImageDevice e this name timeout_ms p w = ((true, path), w') →
  snd (block_device_for_file e (GetImageHeaderPath this name)) = true ∨ path ≠ "" →
  fst (IsImageMapped name w') = true ∧
  fst (MapImageDevice e this name timeout_ms' p' w') = (false, p').
Proof.
  intros Hmap Hhow.
  assert (fst (IsImageMapped name w') = true) as Hmapped.
  { apply MapImageDevice_success_from in Hmap as (_ & w1 & Hmap & ->).
    destruct (IsImageMapped_spec name
                (set_props <[GetStatusPropertyName name := path]>
                   (log (call_SetProperty (GetStatusPropertyName name) path) w1)))
      as (-> & _).
    cbn [props dm_nodes set_props log]. rewrite lookup_insert_eq. cbn [default].
    unfold id. apply orb_true_iff.
    destruct (String.eqb_spec path "") as [->|Hpath]; [|by left].
    right. destruct Hhow as [Hdm|]; [|done].
    rewrite Hdm in Hmap. apply MapWithDmLinear_success in Hmap as (_ & ->).
    apply bool_decide_eq_true. cbn [dm_nodes set_files set_dm_nodes log].
    apply added_is_member. }
  split; [done|].
  unfold MapImageDevice. by rewrite bind_unfold, Hmapped.
Qed.

End AfterMap.

Lemma MapImageDevice_then_mapped_witness :
  let e := Scenario.device Scenario.never false Scenario.one_file in
  let mapped := MapImageDevice e Scenario.manager "img" 1000 "" Scenario.unmapped in
  fst (IsImageMapped "img" (snd mapped)) = true ∧
  fst (MapImageDevice e Scenario.manager "img" 500 "" (snd mapped)) = (false, "").
Proof.
  intros e mapped.
  apply (MapImageDevice_then_mapped e Scenario.manager "img" 1000 500 "" ""
           "/dev/block/loop0" Scenario.unmapped (snd mapped)).
  - vm_compute; reflexivity.
  - right. discriminate.
Defined.

(** ** Deleting a backing image *)

Section Delete.

Variable e : Env.
Variable this : ImageManager.

Lemma find_without (name : string) (m : option LpMetadata) :
  FindPartition (mkMetadata (without_partition name m)) name = None.
Proof.
  unfold FindPartition, without_partition. cbn [partitions].
  destruct m as [md|]; [|done].
  induction (partitions md) as [|q rest IH]; [done|].
  cbn [List.filter].
  destruct (String.eqb (GetPartitionName q) name) eqn:Hq; cbn [negb]; [done|].
  cbn [List.find]. by rewrite Hq.
Qed.

(** X7: a mapped image is not deleted: [DeleteBackingImage] returns failure
    having only read; backing files, status file and metadata are as they
    were. *)
Theorem DeleteBackingImage_refuses_mapped_image (name : string) (w : World) :
  default "" (props w !! GetStatusPropertyName name) ≠ "" ∨ name ∈ dm_nodes w →
  let result := DeleteBackingImage e this name w in
  fst result = false ∧
  ∃ calls, only_called w (snd result) calls ∧ existsb changing_call calls = false.
Proof.
  intros Hmapped result. subst result.
  destruct (IsImageMapped_spec name w) as (Hres & calls & Hcalls & Hquiet & _).
  assert (fst (IsImageMapped name w) = true) as Htrue.
  { rewrite Hres. destruct Hmapped as [Hprop|Hnode].
    - by destruct (String.eqb_spec (default "" (props w !! GetStatusPropertyName name)) "").
    - rewrite bool_decide_eq_true_2 by done. apply orb_true_r. }
  unfold DeleteBackingImage. rewrite bind_unfold, Htrue. ret_step.
  split; [done|]. by exists calls.
Qed.

(** X8: a [DeleteBackingImage] that succeeds found the image unmapped and
    leaves neither its backing files nor its entry in the metadata; nodes,
    loop devices and properties are not touched. *)
Theorem DeleteBackingImage_success (name : string) (w w' : World) :
  DeleteBackingImage e this name w = (true, w') →
  fst (IsImageMapped name w) = false ∧
  (GetImageHeaderPath this name ∉ images w') ∧
  (∃ md, metadata w' = Some md ∧ FindPartition md name = None) ∧
  dm_nodes w' = dm_nodes w ∧ loops w' = loops w ∧ props w' = props w.
Proof.
  unfold DeleteBackingImage. rewrite bind_unfold.
  destruct (IsImageMapped_spec name w) as (_ & calls & Hcalls & _).
  destruct Hcalls as (Hp0 & _ & Hd0 & Hl0 & _ & _ & _).
  destruct (IsImageMapped name w) as [[] w0]; cbn [fst snd] in *; [done|].
  rewrite bind_unfold. unfold SplitFiemap_RemoveSplitFiles, attempt.
  destruct (fails e (trace w0) _); cbn [fst snd negb]; [done|].
  rewrite bind_unfold. unfold RemoveFileIfExists, attempt.
  destruct (fails e _ _); cbn [fst snd]; unfold RemoveImageMetadata;
    cbn [metadata set_files set_images log];
    (destruct (metadata w0) as [md|]; [|done]);
    unfold attempt; (destruct (fails e _ _); [done|]);
    intros [= <-]; (split; [done|]);
    cbn [images metadata dm_nodes loops props set_metadata set_files set_images log];
    (split; [rewrite elem_of_difference, elem_of_singleton; tauto|]);
    (split; [eexists; split; [done|apply (find_without name (Some md))]|]);
    by rewrite Hp0, Hd0, Hl0.
Qed.

End Delete.

Lemma DeleteBackingImage_refuses_mapped_image_witness :
  let e := Scenario.device Scenario.never true Scenario.two_files in
  let result := DeleteBackingImage e Scenario.manager "A" Scenario.three_images in
  fst result = false ∧
  ∃ calls, only_called Scenario.three_images (snd result) calls ∧
           existsb changing_call calls = false.
Proof.
  intros e result.
  apply (DeleteBackingImage_refuses_mapped_image e Scenario.manager "A" Scenario.three_images).
  right. apply (bool_decide_unpack _). vm_compute. exact I.
Defined.

Lemma DeleteBackingImage_success_witness :
  let e := Scenario.device Scenario.never true Scenario.two_files in
  let result := DeleteBackingImage e Scenario.manager "B" Scenario.three_images in
  fst (IsImageMapped "B" Scenario.three_images) = false ∧
  (GetImageHeaderPath Scenario.manager "B" ∉ images (snd result)) ∧
  (∃ md, metadata (snd result) = Some md ∧ FindPartition md "B" = None) ∧
  dm_nodes (snd result) = dm_nodes Scenario.three_images ∧
  loops (snd result) = loops Scenario.three_images ∧
  props (snd result) = props Scenario.three_images.
Proof.
  intros e result.
  apply (DeleteBackingImage_success e Scenario.manager "B" Scenario.three_images (snd result)).
  vm_compute; reflexivity.
Defined.

(** ** Filling a new image with zeroes *)

Lemma zero_chunks_zero : zero_chunks 0 = [].
Proof. reflexivity. Qed.

Lemma zero_chunks_step (remaining : Z) :
  0 < remaining →
  zero_chunks remaining =
    Z.min kChunkSize remaining :: zero_chunks (remaining - Z.min kChunkSize remaining).
Proof.
  intros Hpos. unfold zero_chunks, kChunkSize.
  destruct (Z.le_gt_cases 4096 remaining) as [Hbig|Hsmall].
  - rewrite Z.min_l by lia.
    assert (remaining / 4096 = (remaining - 4096) / 4096 + 1) as ->.
    { replace remaining with ((remaining - 4096) + 1 * 4096) at 1 by lia.
      by rewrite Z.div_add by lia. }
    assert (remaining mod 4096 = (remaining - 4096) mod 4096) as ->.
    { replace remaining with ((remaining - 4096) + 1 * 4096) at 1 by lia.
      by rewrite Z.mod_add by lia. }
    rewrite Z2Nat.inj_add by (try apply Z.div_pos; lia).
    change (Z.to_nat 1) with 1%nat. rewrite Nat.add_1_r. reflexivity.
  - rewrite Z.min_r by lia. rewrite Z.sub_diag.
    rewrite Z.div_small, Z.mod_small by lia.
    cbn. destruct (Z.eqb_spec remaining 0); [lia|done].
Qed.

Lemma zero_chunks_sound (fuel : nat) (remaining : Z) :
  0 <= remaining <= Z.of_nat fuel →
  List.fold_right Z.add 0 (zero_chunks remaining) = remaining ∧
  Forall (fun n => 0 < n <= kChunkSize) (zero_chunks remaining).
Proof.
  revert remaining. induction fuel as [|fuel IH]; intros remaining Hfuel.
  - assert (remaining = 0) as -> by lia. by rewrite zero_chunks_zero.
  - destruct (Z.eq_dec remaining 0) as [->|Hpos]; [by rewrite zero_chunks_zero|].
    rewrite zero_chunks_step by lia.
    destruct (IH (remaining - Z.min kChunkSize remaining)) as (Hsum & Hall);
      [unfold kChunkSize; lia|].
    cbn [List.fold_right]. rewrite Hsum. split; [lia|].
    constructor; [unfold kChunkSize; lia|done].
Qed.

(** X9: when no write fails, the loop of [ZeroFillNewImage] returns success
    after writing the whole size of the device: chunks of 4096 bytes, then,
    if the size is no multiple of 4096, one shorter write; the writes add up
    to the size and none is empty. *)
Theorem write_zeroes_writes_every_byte
    (e : Env) (fuel : nat) (path : string) (remaining : Z) (w : World) :
  0 <= remaining <= Z.of_nat fuel → remaining < 2 ^ 64 →
  (∀ h n, fails e h (call_WriteFully path n) = false) →
  let result := write_zeroes e fuel path remaining w in
  fst result = true ∧
  trace (snd result) = trace w ++ List.map (call_WriteFully path) (zero_chunks remaining) ∧
  List.fold_right Z.add 0 (zero_chunks remaining) = remaining ∧
  Forall (fun n => 0 < n <= kChunkSize) (zero_chunks remaining).
Proof.
  intros Hfuel Hbound Hok result.
  destruct (zero_chunks_sound fuel remaining Hfuel) as (Hsum & Hall).
  split; [|split; [|done]]; subst result.
  - clear Hsum Hall. revert remaining w Hfuel Hbound.
    induction fuel as [|fuel IH]; intros remaining w Hfuel Hbound.
    + assert (remaining = 0) as -> by lia. reflexivity.
    + cbn [write_zeroes].
      destruct (Z.eqb_spec remaining 0) as [|Hpos]; [done|].
      rewrite bind_unfold. unfold WriteFully at 1 2, attempt. rewrite Hok.
      cbn [fst snd negb]. unfold u64. rewrite Z.mod_small by (unfold kChunkSize; lia).
      apply IH; unfold kChunkSize; lia.
  - clear Hsum Hall. revert remaining w Hfuel Hbound.
    induction fuel as [|fuel IH]; intros remaining w Hfuel Hbound.
    + assert (remaining = 0) as -> by lia. cbn. by rewrite app_nil_r.
    + cbn [write_zeroes].
      destruct (Z.eqb_spec remaining 0) as [->|Hpos].
      { cbn. by rewrite app_nil_r. }
      rewrite bind_unfold. unfold WriteFully at 1 2, attempt. rewrite Hok.
      cbn [fst snd negb]. unfold u64. rewrite Z.mod_small by (unfold kChunkSize; lia).
      rewrite IH by (unfold kChunkSize; lia).
      rewrite (zero_chunks_step remaining) by lia.
      unfold id. cbn [trace log List.map]. by rewrite <- app_assoc.
Qed.

Lemma write_zeroes_writes_every_byte_witness :
  let e := Scenario.device Scenario.never true Scenario.two_files in
  let result := write_zeroes e (Z.to_nat 8292) "/dev/block/mapper/img" 8292 Scenario.unmapped in
  zero_chunks 8292 = [4096; 4096; 100] ∧
  (fst result = true ∧
   trace (snd result) =
     trace Scenario.unmapped
     ++ List.map (call_WriteFully "/dev/block/mapper/img") (zero_chunks 8292) ∧
   List.fold_right Z.add 0 (zero_chunks 8292) = 8292 ∧
   Forall (fun n => 0 < n <= kChunkSize) (zero_chunks 8292)).
Proof.
  intros e result. split; [vm_compute; reflexivity|].
  apply (write_zeroes_writes_every_byte e (Z.to_nat 8292) "/dev/block/mapper/img" 8292
           Scenario.unmapped).
  - lia.
  - lia.
  - intros h n. reflexivity.
Defined.

(** ** Writing and reading status records *)

Lemma Split_length (d : ascii) (s : string) :
  length (Split s d) = S (count_char d s).
Proof.
  induction s as [|c r IH]; [done|]. cbn [Split count_char].
  destruct (Ascii.eqb c d); cbn [length]; [by rewrite IH|].
  destruct (Split r d); [done|]. exact IH.
Qed.

(** X10: the record [MapWithLoopDeviceList] writes for a node and its loop
    devices, none of whose names holds a colon or a newline, is read back by
    the two splits of [UnmapImageDevice] as the step [dm] with the node's
    name followed by one step [loop] per device, in the order written. *)
Theorem status_record_round_trip (name : string) (device_list : list string) :
  plain_name name = true →
  Forall (fun d => plain_name d = true) device_list →
  List.map (fun line => Split line colon_char)
    (Split (Join (status_lines name device_list) nl) nl_char) =
  ["dm"; name] :: List.map (fun d => ["loop"; d]) device_list.
Proof.
  intros Hname Hdevices.
  pose proof (status_lines_free name device_list Hname Hdevices) as Hfree.
  unfold status_lines, nl in Hfree |- *. rewrite (Split_Join nl_char _ _ Hfree).
  apply andb_prop in Hname as [Hname _].
  cbn [List.map]. rewrite (Split_dm_line _ Hname). f_equal. clear Hfree.
  induction Hdevices as [|d rest Hd _ IH]; [done|].
  apply andb_prop in Hd as [Hd _].
  cbn [List.map]. by rewrite (Split_loop_line _ Hd), IH.
Qed.

Lemma status_record_round_trip_witness :
  List.map (fun line => Split line colon_char)
    (Split (Join (status_lines "img" ["/dev/block/loop0"; "/dev/block/loop1"]) nl) nl_char) =
  ["dm"; "img"]
  :: List.map (fun d => ["loop"; d]) ["/dev/block/loop0"; "/dev/block/loop1"].
Proof.
  apply (status_record_round_trip "img" ["/dev/block/loop0"; "/dev/block/loop1"]).
  - reflexivity.
  - repeat constructor.
Defined.

Section Malformed.

Variable e : Env.
Variable this : ImageManager.

(** Lines that do not hold exactly one colon are passed over. *)
Lemma unmap_lines_skips (lines : list string) (w : World) :
  Forall (fun line => count_char colon_char line ≠ 1%nat) lines →
  unmap_lines e lines w = (true, w).
Proof.
  induction 1 as [|line rest Hline _ IH]; [done|].
  cbn [unmap_lines]. pose proof (Split_length colon_char line) as Hlen.
  destruct (Split line colon_char) as [|tag [|arg [|]]]; try exact IH.
  cbn [length] in Hlen. congruence.
Qed.

(** X11: a status file none of whose lines holds exactly one colon, such as
    an empty file, or one whose only line names a loop device with a colon
    in its path, makes a forced unmap succeed without tearing anything down:
    after reading it, the unmap only asks for the removal of the file and
    the clearing of the property. *)
Theorem UnmapImageDevice_skips_malformed_lines (name status : string) (w : World) :
  let status_file := GetStatusFilePath this name in
  fst (ReadFileToString e status_file w) = Some status →
  Forall (fun line => count_char colon_char line ≠ 1%nat) (Split status nl_char) →
  let result := UnmapImageDevice e this name true w in
  fst result = true ∧
  trace (snd result) =
    trace w ++ [call_ReadFileToString status_file;
                call_RemoveFileIfExists status_file;
                call_SetProperty (GetStatusPropertyName name) ""] ∧
  dm_nodes (snd result) = dm_nodes w ∧ loops (snd result) = loops w.
Proof.
  intros status_file Hread Hlines result. subst result.
  rewrite (UnmapImageDevice_replayed e this name true status w
             (log (call_ReadFileToString status_file) w)).
  - cbn [fst snd]. split; [done|].
    rewrite SetProperty_trace, RemoveFileIfExists_trace. cbn [trace log].
    split; [by rewrite <- !app_assoc|].
    unfold SetProperty, RemoveFileIfExists, attempt.
    by repeat destruct (fails e _ _).
  - done.
  - done.
  - cbn [unmap_refused negb]. ret_step. by apply unmap_lines_skips.
Qed.

End Malformed.

Lemma UnmapImageDevice_skips_malformed_lines_witness :
  let e := Scenario.device Scenario.never false Scenario.one_file in
  let w := set_files <[GetStatusFilePath Scenario.manager "img" := "loop:/dev/block/by:id"]>
             Scenario.unmapped in
  let result := UnmapImageDevice e Scenario.manager "img" true w in
  fst result = true ∧
  trace (snd result) =
    trace w ++ [call_ReadFileToString (GetStatusFilePath Scenario.manager "img");
                call_RemoveFileIfExists (GetStatusFilePath Scenario.manager "img");
                call_SetProperty (GetStatusPropertyName "img") ""] ∧
  dm_nodes (snd result) = dm_nodes w ∧ loops (snd result) = loops w.
Proof.
  intros e w result.
  apply (UnmapImageDevice_skips_malformed_lines e Scenario.manager "img"
           "loop:/dev/block/by:id" w).
  - vm_compute; reflexivity.
  - vm_compute. repeat constructor. lia.
Defined.

(** ** Names and paths *)

Lemma append_length (a b : string) :
  String.length (a +:+ b) = (String.length a + String.length b)%nat.
Proof.
  induction a as [|c a IH]; [done|].
  change (S (String.length (a +:+ b)) = S (String.length a + String.length b)).
  by rewrite IH.
Qed.

Lemma append_cancel_r (a b s : string) : a +:+ s = b +:+ s → a = b.
Proof.
  revert b. induction a as [|c a IH]; intros [|c' b] Heq.
  - done.
  - apply (f_equal String.length) in Heq. rewrite !append_length in Heq.
    cbn [String.length] in Heq. lia.
  - apply (f_equal String.length) in Heq. rewrite !append_length in Heq.
    cbn [String.length] in Heq. lia.
  - change (String c (a +:+ s) = String c' (b +:+ s)) in Heq.
    injection Heq as -> Heq. by rewrite (IH b Heq).
Qed.

Lemma append_cancel_l (s a b : string) : s +:+ a = s +:+ b → a = b.
Proof.
  induction s as [|c s IH]; [done|].
  change (String c (s +:+ a) = String c (s +:+ b) → a = b).
  intros [= Heq]. by apply IH.
Qed.

(** X12: two different image names never share a status file, a header file
    or a property: every image of a manager has its own. *)
Theorem image_names_keep_apart (this : ImageManager) (n1 n2 : string) :
  n1 ≠ n2 →
  GetStatusFilePath this n1 ≠ GetStatusFilePath this n2 ∧
  GetImageHeaderPath this n1 ≠ GetImageHeaderPath this n2 ∧
  GetStatusPropertyName n1 ≠ GetStatusPropertyName n2.
Proof.
  intros Hne. unfold GetStatusFilePath, GetImageHeaderPath, GetStatusPropertyName, JoinPaths.
  split; [|split]; intros Heq; apply Hne.
  - apply append_cancel_r in Heq. by do 2 apply append_cancel_l in Heq.
  - apply append_cancel_r in Heq. by do 2 apply append_cancel_l in Heq.
  - by apply append_cancel_l in Heq.
Qed.

Lemma image_names_keep_apart_witness :
  GetStatusFilePath Scenario.manager "A" ≠ GetStatusFilePath Scenario.manager "B" ∧
  GetImageHeaderPath Scenario.manager "A" ≠ GetImageHeaderPath Scenario.manager "B" ∧
  GetStatusPropertyName "A" ≠ GetStatusPropertyName "B".
Proof. apply (image_names_keep_apart Scenario.manager "A" "B"). discriminate. Defined.

(** ** Creating on device-mapper, and finding what was created *)

Section Created.

Variable e : Env.

Lemma open_test_mode (dir_prefix : string) :
  StartsWith (metadata_dir_ (ImageManager_Open dir_prefix)) kTestImageMetadataDir =
  StartsWith dir_prefix "test".
Proof. reflexivity. Qed.

(** X13: for a manager opened by directory prefix, the creation of an image
    whose backing files sit on a device-mapper device, with no call failing
    and no zero fill asked for, succeeds exactly when the prefix begins with
    [test]; otherwise it fails and the split files it had allocated are
    removed again. *)
Theorem CreateBackingImage_on_device_mapper
    (dir_prefix name : string) (size flags : Z) (w : World) :
  let this := ImageManager_Open dir_prefix in
  let data_path := GetImageHeaderPath this name in
  StartsWith (device_path_for_file e data_path) "/dev/block/dm-" = true →
  (∀ h, fails e h (call_SplitFiemap_Create data_path size) = false) →
  (∀ h, fails e h (call_RemoveSplitFiles data_path) = false) →
  (∀ h r, fails e h (call_UpdateMetadata (metadata_dir_ this) name size r) = false) →
  Z.land flags (CREATE_IMAGE_ZERO_FILL e) = 0 →
  let result := CreateBackingImage e this name size flags w in
  fst result = StartsWith dir_prefix "test" ∧
  (data_path ∈ images (snd result) ↔ StartsWith dir_prefix "test" = true).
Proof.
  intros this data_path Hdm Hcreate Hremove Hupdate Hflag result. subst result.
  unfold CreateBackingImage. rewrite bind_unfold.
  unfold SplitFiemap_Create, attempt. fold data_path. rewrite Hcreate.
  cbn [fst snd negb]. rewrite bind_unfold. unfold GetDevicePathForFile. cbn [fst snd].
  rewrite Hdm. cbn [andb].
  change (StartsWith (metadata_dir_ this) kTestImageMetadataDir)
    with (StartsWith dir_prefix "test").
  destruct (StartsWith dir_prefix "test"); cbn [negb].
  - rewrite bind_unfold. unfold UpdateMetadata, attempt. rewrite Hupdate.
    cbn [fst snd negb]. rewrite Hflag. cbn [Z.eqb negb]. ret_step.
    split; [done|]. cbn [images set_metadata set_images log].
    split; [done|]. intros _. apply added_is_member.
  - rewrite bind_unfold. unfold SplitFiemap_RemoveSplitFiles, attempt. rewrite Hremove.
    ret_step. split; [done|]. cbn [images set_images log].
    rewrite elem_of_difference, elem_of_singleton. split; [tauto|done].
Qed.

Variable this : ImageManager.

Lemma find_added (name : string) (size : Z) (readonly : bool) (m : option LpMetadata) :
  FindPartition (mkMetadata (without_partition name m ++ [mkPartition name size readonly]))
    name = Some (mkPartition name size readonly).
Proof.
  pose proof (find_without name m) as Hnone.
  unfold FindPartition in *. cbn [partitions] in *.
  induction (without_partition name m) as [|q rest IH]; cbn [app List.find].
  - unfold GetPartitionName. cbn [p_name]. by rewrite String.eqb_refl.
  - cbn [List.find] in Hnone.
    destruct (String.eqb (GetPartitionName q) name); [done|]. by apply IH.
Qed.

(** X14: an image created without zero fill is found afterwards:
    [BackingImageExists] sees its header file, the metadata holds its
    partition with the size and the read-only bit it was created with, and
    [PartitionExists] finds it when the metadata opens. *)
Theorem CreateBackingImage_then_exists (name : string) (size flags : Z) (w w' : World) :
  Z.land flags (CREATE_IMAGE_ZERO_FILL e) = 0 →
  CreateBackingImage e this name size flags w = (true, w') →
  fst (BackingImageExists this name w') = true ∧
  (∃ md, metadata w' = Some md ∧
         FindPartition md name =
           Some (mkPartition name size
                   (negb (Z.land flags (CREATE_IMAGE_READONLY e) =? 0)))) ∧
  (fails e (trace w' ++ [call_MetadataExists (metadata_dir_ this)])
     (call_OpenMetadata (metadata_dir_ this)) = false →
   fst (PartitionExists e this name w') = true).
Proof.
  intros Hflag. unfold CreateBackingImage. rewrite bind_unfold.
  unfold SplitFiemap_Create, attempt.
  destruct (fails e _ _); cbn [fst snd negb]; [done|].
  rewrite bind_unfold. unfold GetDevicePathForFile. cbn [fst snd].
  destruct (_ && _); [by rewrite bind_unfold|].
  rewrite bind_unfold. unfold UpdateMetadata, attempt.
  destruct (fails e _ _); cbn [fst snd negb]; [done|].
  rewrite Hflag. cbn [Z.eqb negb]. unfold ret. intros [= <-].
  split; [|split].
  - unfold BackingImageExists. cbn [fst images set_metadata set_images log].
    apply bool_decide_eq_true, added_is_member.
  - cbn [metadata set_metadata]. eexists. split; [done|]. apply find_added.
  - intros Hopen. unfold PartitionExists. rewrite bind_unfold.
    unfold MetadataExists. cbn [fst snd metadata set_metadata].
    rewrite bool_decide_eq_true_2 by by eexists. cbn [negb].
    rewrite bind_unfold. unfold OpenMetadata.
    cbn [fst snd trace metadata set_metadata set_images log] in Hopen |- *.
    rewrite Hopen. ret_step. apply bool_decide_eq_true. rewrite find_added. by eexists.
Qed.

End Created.

Lemma CreateBackingImage_on_device_mapper_witness :
  let e := Cases.on_dm Scenario.never in
  let this := ImageManager_Open "test/dsu" in
  let result := CreateBackingImage e this "new" 8192 0 Scenario.unmapped in
  fst result = StartsWith "test/dsu" "test" ∧
  (GetImageHeaderPath this "new" ∈ images (snd result) ↔
   StartsWith "test/dsu" "test" = true).
Proof.
  intros e this result.
  apply (CreateBackingImage_on_device_mapper e "test/dsu" "new" 8192 0 Scenario.unmapped);
    try (intros h; reflexivity); try (intros h r; reflexivity); vm_compute; reflexivity.
Defined.

Lemma CreateBackingImage_then_exists_witness :
  let e := Scenario.device Scenario.never false Scenario.one_file in
  let result := CreateBackingImage e Scenario.manager "new" 8192 1 Scenario.unmapped in
  fst (BackingImageExists Scenario.manager "new" (snd result)) = true ∧
  (∃ md, metadata (snd result) = Some md ∧
         FindPartition md "new" =
           Some (mkPartition "new" 8192 (negb (Z.land 1 (CREATE_IMAGE_READONLY e) =? 0)))) ∧
  (fails e (trace (snd result) ++ [call_MetadataExists (metadata_dir_ Scenario.manager)])
     (call_OpenMetadata (metadata_dir_ Scenario.manager)) = false →
   fst (PartitionExists e Scenario.manager "new" (snd result)) = true).
Proof.
  intros e result.
  apply (CreateBackingImage_then_exists e Scenario.manager "new" 8192 1 Scenario.unmapped
           (snd result)); vm_compute; reflexivity.
Defined.

(** ** Mapping by device-mapper only *)

Section DeviceMapperOnly.

Variable e : Env.
Variable this : ImageManager.
Variable dm_GetDeviceString : string → World → option string.

(** X15: once its [MapWithDmLinear] has succeeded,
    [MapImageWithDeviceMapper] changes nothing more: it answers with the
    device string when there is one and with failure when there is none, and
    in both cases the node is live and recorded in the status file.  The
    property is not set, yet the image counts as mapped and a later unmap
    without force is not refused. *)
Theorem MapImageWithDeviceMapper_keeps_mapping
    (name dev path : string) (w w1 : World) :
  MapWithDmLinear e this name 0 "" w = ((true, path), w1) →
  let result := MapImageWithDeviceMapper e this dm_GetDeviceString name dev w in
  snd result = w1 ∧
  fst result = match dm_GetDeviceString name w1 with
               | Some s => (true, s)
               | None => (false, dev)
               end ∧
  name ∈ dm_nodes (snd result) ∧
  files (snd result) !! GetStatusFilePath this name = Some ("dm:" +:+ name) ∧
  props (snd result) = props w ∧
  fst (IsImageMapped name (snd result)) = true ∧
  fst (unmap_refused name false (snd result)) = false.
Proof.
  intros Hmap result.
  assert (result = (match dm_GetDeviceString name w1 with
                    | Some s => (true, s)
                    | None => (false, dev)
                    end, w1)) as ->.
  { subst result. unfold MapImageWithDeviceMapper. rewrite bind_unfold, Hmap.
    cbn [fst snd negb]. by destruct (dm_GetDeviceString name w1). }
  cbn [fst snd]. split; [done|]. split; [done|].
  apply MapWithDmLinear_success in Hmap as (_ & ->).
  assert (name ∈ dm_nodes
            (set_files <[GetStatusFilePath this name := "dm:" +:+ name]>
               (log (call_WriteStringToFile ("dm:" +:+ name) (GetStatusFilePath this name))
                  (set_dm_nodes (fun s => {[name]} ∪ s)
                     (log (call_CreateLogicalPartition name 0)
                        (log (call_OpenMetadata (metadata_dir_ this)) w)))))) as Hnode
    by apply added_is_member.
  split; [done|]. split; [apply lookup_insert_eq|]. split; [done|].
  match goal with |- fst (IsImageMapped name ?w2) = true ∧ _ =>
    assert (fst (IsImageMapped name w2) = true) as Hmapped
  end.
  { match goal with |- fst (IsImageMapped name ?w2) = true =>
      destruct (IsImageMapped_spec name w2) as (-> & _) end.
    rewrite (bool_decide_eq_true_2 _ Hnode). apply orb_true_r. }
  split; [done|]. by apply unmap_refused_mapped.
Qed.

End DeviceMapperOnly.

Lemma MapImageWithDeviceMapper_keeps_mapping_witness :
  let e := Scenario.device Scenario.never true Scenario.one_file in
  let w1 := snd (MapWithDmLinear e Scenario.manager "img" 0 "" Scenario.unmapped) in
  let result := MapImageWithDeviceMapper e Scenario.manager Cases.no_device_string
                  "img" "" Scenario.unmapped in
  fst result = (false, "") ∧
  (snd result = w1 ∧
   fst result = match Cases.no_device_string "img" w1 with
                | Some s => (true, s)
                | None => (false, "")
                end ∧
   "img" ∈ dm_nodes (snd result) ∧
   files (snd result) !! GetStatusFilePath Scenario.manager "img" = Some ("dm:" +:+ "img") ∧
   props (snd result) = props Scenario.unmapped ∧
   fst (IsImageMapped "img" (snd result)) = true ∧
   fst (unmap_refused "img" false (snd result)) = false).
Proof.
  intros e w1 result. split; [vm_compute; reflexivity|].
  apply (MapImageWithDeviceMapper_keeps_mapping e Scenario.manager Cases.no_device_string
           "img" "" "/dev/block/mapper/img" Scenario.unmapped w1).
  vm_compute; reflexivity.
Defined.

(** ** Validating the images *)

Section Validation.

Variable e : Env.
Variable this : ImageManager.
Variable HasPinnedExtents : string → World → bool.

Lemma validate_partitions_spec (ps : list Partition) (w : World) :
  snd (validate_partitions this HasPinnedExtents ps w) = w ∧
  (fst (validate_partitions this HasPinnedExtents ps w) = true ↔
   Forall (fun q => GetImageHeaderPath this (GetPartitionName q) ∈ images w ∧
                    HasPinnedExtents (GetImageHeaderPath this (GetPartitionName q)) w = true)
     ps).
Proof.
  induction ps as [|q rest [IHw IH]]; [by split|].
  cbn [validate_partitions]. rewrite bind_unfold. unfold SplitFiemap_Open. cbn [fst snd].
  rewrite Forall_cons.
  destruct (decide (GetImageHeaderPath this (GetPartitionName q) ∈ images w)) as [Hin|Hout].
  - rewrite bool_decide_eq_true_2 by done. cbn [negb]. rewrite bind_unfold. cbn [fst snd].
    destruct (HasPinnedExtents _ w); cbn [negb].
    + split; [done|]. rewrite IH. tauto.
    + split; [done|]. ret_step. split; [done|]. by intros [[_ ?] _].
  - rewrite bool_decide_eq_false_2 by done. cbn [negb]. ret_step.
    split; [done|]. split; [done|]. by intros [[? _] _].
Qed.

(** X16: [Validate] changes nothing, its one recorded call being the opening
    of the metadata, and it succeeds exactly when the metadata opens and
    every image named in it has its backing files on disk with their extents
    pinned. *)
Theorem Validate_spec (w : World) :
  let dir := metadata_dir_ this in
  let w1 := log (call_OpenMetadata dir) w in
  let result := Validate e this HasPinnedExtents w in
  snd result = w1 ∧
  (fst result = true ↔
   ∃ md, fst (OpenMetadata e dir w) = Some md ∧
         Forall (fun q => GetImageHeaderPath this (GetPartitionName q) ∈ images w ∧
                          HasPinnedExtents (GetImageHeaderPath this (GetPartitionName q)) w1
                          = true)
           (partitions md)).
Proof.
  intros dir w1 result. subst result. unfold Validate. rewrite bind_unfold.
  fold dir. change (snd (OpenMetadata e dir w)) with w1.
  destruct (fst (OpenMetadata e dir w)) as [md|].
  - destruct (validate_partitions_spec (partitions md) w1) as (-> & ->).
    split; [done|]. split.
    + intros Hall. by exists md.
    + by intros (? & [= <-] & Hall).
  - ret_step. split; [done|]. split; [done|]. by intros (? & ? & _).
Qed.

End Validation.

(** ** Removing everything *)

Section RemoveAll.

Variable e : Env.
Variable this : ImageManager.

(** [DeleteBackingImage] puts no backing file on disk, and when it succeeds
    those of its image are gone. *)
Lemma DeleteBackingImage_images (name : string) (w : World) :
  images (snd (DeleteBackingImage e this name w)) ⊆ images w ∧
  (fst (DeleteBackingImage e this name w) = true →
   GetImageHeaderPath this name ∉ images (snd (DeleteBackingImage e this name w))).
Proof.
  unfold DeleteBackingImage. rewrite bind_unfold.
  destruct (IsImageMapped_spec name w) as (_ & calls & Hcalls & _).
  destruct Hcalls as (_ & _ & _ & _ & Hi0 & _ & _).
  destruct (IsImageMapped name w) as [[] w0]; cbn [fst snd] in *.
  { ret_step. by rewrite Hi0. }
  rewrite bind_unfold. unfold SplitFiemap_RemoveSplitFiles, attempt.
  destruct (fails e (trace w0) _); cbn [fst snd negb].
  { ret_step. cbn [images log]. by rewrite Hi0. }
  rewrite bind_unfold. unfold RemoveFileIfExists, attempt.
  destruct (fails e _ _); cbn [fst snd]; unfold RemoveImageMetadata;
    cbn [metadata set_files set_images log];
    (destruct (metadata w0) as [md|]; [unfold attempt; destruct (fails e _ _)|]);
    cbn [fst snd images set_metadata set_files set_images log]; rewrite Hi0;
    (split; [apply subseteq_difference_l; done|]); intros _;
    rewrite elem_of_difference, elem_of_singleton; tauto.
Qed.

Lemma delete_partitions_success (ps : list Partition) (ok : bool) (w w1 : World) :
  delete_partitions e this ps ok w = (true, w1) →
  ok = true ∧ images w1 ⊆ images w ∧
  Forall (fun q => GetImageHeaderPath this (GetPartitionName q) ∉ images w1) ps.
Proof.
  revert ok w. induction ps as [|q rest IH]; intros ok w.
  - cbn. intros [= -> <-]. by split.
  - cbn [delete_partitions]. rewrite bind_unfold. intros Hrest.
    destruct (DeleteBackingImage_images (GetPartitionName q) w) as (Hsub & Hgone).
    apply IH in Hrest as ([-> Hdeleted]%andb_prop & Hsub1 & Hall).
    split; [done|]. split; [by etrans|].
    constructor; [|done]. intros Hin. by apply (Hgone Hdeleted), Hsub1.
Qed.

(** X17: when the store of metadata is there and opens, a [RemoveAllImages]
    that returns success has removed the store and the backing files of
    every image the store named. *)
Theorem RemoveAllImages_success (md : LpMetadata) (w w' : World) :
  let dir := metadata_dir_ this in
  metadata w = Some md →
  fails e (trace w ++ [call_MetadataExists dir]) (call_OpenMetadata dir) = false →
  RemoveAllImages e this w = (true, w') →
  metadata w' = None ∧
  Forall (fun q => GetImageHeaderPath this (GetPartitionName q) ∉ images w') (partitions md).
Proof.
  intros dir Hmd Hopen. unfold RemoveAllImages. rewrite bind_unfold.
  unfold MetadataExists. cbn [fst snd]. rewrite Hmd.
  rewrite bool_decide_eq_true_2 by by eexists. cbn [negb].
  rewrite bind_unfold. unfold OpenMetadata. cbn [fst snd trace metadata log].
  fold dir. rewrite Hopen, Hmd. rewrite bind_unfold.
  match goal with
  | |- context [delete_partitions e this ?ps true ?w0] =>
      pose proof (delete_partitions_success ps true w0) as Hdeleted;
      destruct (delete_partitions e this ps true w0) as [[] w1]
  end; cbn [fst snd]; [|done].
  destruct (Hdeleted w1 eq_refl) as (_ & _ & Hall).
  unfold RemoveAllMetadata, attempt.
  destruct (fails e (trace w1) (call_RemoveAllMetadata dir)); [done|].
  intros [= <-]. by cbn [metadata images set_metadata log].
Qed.

(** X18: when the store of metadata is there and cannot be opened,
    [RemoveAllImages] deletes no image: it only asks for the removal of the
    store, returns what that removal returns, and leaves every backing file
    on disk. *)
Theorem RemoveAllImages_unopenable_store (md : LpMetadata) (w : World) :
  let dir := metadata_dir_ this in
  metadata w = Some md →
  fails e (trace w ++ [call_MetadataExists dir]) (call_OpenMetadata dir) = true →
  let result := RemoveAllImages e this w in
  trace (snd result) =
    trace w ++ [call_MetadataExists dir; call_OpenMetadata dir; call_RemoveAllMetadata dir] ∧
  images (snd result) = images w ∧
  files (snd result) = files w ∧
  (fst result = true → metadata (snd result) = None).
Proof.
  intros dir Hmd Hopen result. subst result. unfold RemoveAllImages. rewrite bind_unfold.
  unfold MetadataExists. cbn [fst snd]. rewrite Hmd.
  rewrite bool_decide_eq_true_2 by by eexists. cbn [negb].
  rewrite bind_unfold. unfold OpenMetadata. cbn [fst snd trace log].
  fold dir. rewrite Hopen.
  unfold RemoveAllMetadata, attempt.
  match goal with
  | |- context [if fails e ?h ?c then _ else _] => destruct (fails e h c)
  end; cbn [fst snd trace images files metadata set_metadata log];
    rewrite <- !app_assoc; by repeat split.
Qed.

End RemoveAll.

Lemma RemoveAllImages_success_witness :
  let e := Scenario.device Scenario.never true Scenario.two_files in
  let md := mkMetadata [mkPartition "B" 4096 false; mkPartition "C" 4096 false] in
  let result := RemoveAllImages e Scenario.manager Cases.two_images in
  fst result = true ∧
  (metadata (snd result) = None ∧
   Forall (fun q => GetImageHeaderPath Scenario.manager (GetPartitionName q)
                    ∉ images (snd result)) (partitions md)).
Proof.
  intros e md result. split; [vm_compute; reflexivity|].
  apply (RemoveAllImages_success e Scenario.manager md Cases.two_images (snd result));
    vm_compute; reflexivity.
Defined.

Lemma RemoveAllImages_unopenable_store_witness :
  let e := Scenario.device Cases.open_metadata_fails true Scenario.two_files in
  let md := mkMetadata [mkPartition "B" 4096 false; mkPartition "C" 4096 false] in
  let dir := metadata_dir_ Scenario.manager in
  let result := RemoveAllImages e Scenario.manager Cases.two_images in
  fst result = true ∧
  (trace (snd result) =
     trace Cases.two_images
     ++ [call_MetadataExists dir; call_OpenMetadata dir; call_RemoveAllMetadata dir] ∧
   images (snd result) = images Cases.two_images ∧
   files (snd result) = files Cases.two_images ∧
   (fst result = true → metadata (snd result) = None)).
Proof.
  intros e md dir result. split; [vm_compute; reflexivity|].
  apply (RemoveAllImages_unopenable_store e Scenario.manager md Cases.two_images);
    vm_compute; reflexivity.
Defined.

(** ** Failures on the way to a mapping *)

Section Failures.

Variable e : Env.
Variable this : ImageManager.

Lemma AutoDetachLoopDevices_trace (devices : list string) (w : World) :
  trace (snd (AutoDetachLoopDevices e devices w)) =
    trace w ++ List.map call_loop_Detach devices.
Proof.
  revert w. induction devices as [|d rest IH]; intros w.
  - cbn. by rewrite app_nil_r.
  - cbn [AutoDetachLoopDevices List.map]. rewrite bind_unfold, IH, loop_Detach_trace.
    by rewrite <- app_assoc.
Qed.

Lemma OptimizeLoopDevices_extends (devices : list string) (w : World) :
  ∃ calls, trace (snd (OptimizeLoopDevices e devices w)) = trace w ++ calls.
Proof.
  revert w. induction devices as [|d rest IH]; intros w.
  - exists []. cbn. by rewrite app_nil_r.
  - cbn [OptimizeLoopDevices]. rewrite bind_unfold. unfold sys_open. cbn [fst snd].
    destruct (_ <? 0); [by eexists|].
    rewrite bind_unfold. unfold loop_EnableDirectIo, attempt.
    match goal with
    | |- context [if fails e ?h ?c then _ else _] => destruct (fails e h c)
    end; cbn [fst snd negb].
    + eexists. ret_step. cbn [trace log]. by rewrite <- app_assoc.
    + match goal with
      | |- context [OptimizeLoopDevices e rest ?w0] => destruct (IH w0) as (calls & ->)
      end.
      eexists. unfold id. cbn [trace log]. by rewrite <- !app_assoc.
Qed.

Lemma MapWithLoopDeviceList_extends (device_list : list string) (name : string)
    (timeout_ms : Z) (p : string) (w : World) :
  ∃ calls,
    trace (snd (MapWithLoopDeviceList e this device_list name timeout_ms p w)) =
      trace w ++ calls.
Proof.
  unfold MapWithLoopDeviceList. rewrite bind_unfold.
  unfold OpenMetadata at 1 2. cbn [fst snd].
  destruct (if fails e _ _ then None else metadata w) as [md|]; [|by eexists].
  destruct (FindPartition md name) as [partition|]; [|by eexists].
  destruct (_ =? 0); cbn [negb]; [|by eexists].
  rewrite bind_unfold.
  match goal with
  | |- context [fill_table e device_list 0 ?n [] ?w0] =>
      destruct (fill_table_extends e device_list 0 n [] w0) as (calls & Hcalls);
      destruct (fill_table e device_list 0 n [] w0) as [[table|] w2]
  end; cbn [fst snd trace log] in Hcalls |- *;
    [|eexists; ret_step; by rewrite Hcalls, <- app_assoc].
  rewrite bind_unfold. unfold dm_CreateDevice. rewrite bind_unfold. unfold attempt.
  destruct (fails e (trace w2) _); unfold ret at 1; cbn [fst snd negb].
  { eexists. unfold ret. cbn [snd trace log]. by rewrite Hcalls, <- !app_assoc. }
  rewrite bind_unfold. unfold WriteStringToFile, attempt.
  match goal with
  | |- context [if fails e ?h ?c then _ else _] => destruct (fails e h c)
  end; cbn [fst snd negb].
  - rewrite bind_unfold. ret_step. unfold dm_DeleteDevice, attempt.
    destruct (decide _);
      [match goal with
       | |- context [if fails e ?h ?c then _ else _] => destruct (fails e h c)
       end|];
      eexists; cbn [snd trace set_dm_nodes log];
      rewrite (proj2 (proj2 (proj2 (after_failed_write_frame e _ _))));
      cbn [trace set_dm_nodes log]; by rewrite Hcalls, <- !app_assoc.
  - eexists. ret_step. cbn [trace set_files set_dm_nodes log].
    by rewrite Hcalls, <- !app_assoc.
Qed.

(** X19: whenever [MapWithLoopDevice] has got the list of backing files and
    then fails, be it at an attachment, at the direct I/O setting, at the
    node over the loop devices or at the status write, its last calls are
    the detaches of the loop devices it had attached, each of them, in the
    order of attachment. *)
Theorem MapWithLoopDevice_failure_detaches
    (name : string) (timeout_ms : Z) (p : string) (w : World) :
  let header := GetImageHeaderPath this name in
  fails e (trace w) (call_GetSplitFileList header) = false →
  let w1 := log (call_GetSplitFileList header) w in
  let attached := attach_files e (split_file_list e header) timeout_ms
                    (now e (trace w1)) [] w1 in
  let result := MapWithLoopDevice e this name timeout_ms p w in
  fst (fst result) = false →
  ∃ calls, trace (snd result) =
           trace (snd attached) ++ calls ++ List.map call_loop_Detach (fst attached).
Proof.
  intros header Hlist w1 attached result. subst result.
  unfold MapWithLoopDevice. rewrite bind_unfold.
  unfold SplitFiemap_GetSplitFileList. cbn [fst snd]. fold header. rewrite Hlist.
  rewrite bind_unfold. unfold steady_clock_now. cbn [fst snd]. fold w1.
  rewrite bind_unfold. fold attached.
  destruct attached as [devices w2]. cbn [fst snd].
  destruct (Nat.eqb _ _); cbn [negb].
  2: { intros _. exists []. rewrite bind_unfold. cbv beta. ret_step.
       by rewrite AutoDetachLoopDevices_trace. }
  rewrite bind_unfold.
  destruct (OptimizeLoopDevices_extends devices w2) as (c1 & Hc1).
  destruct (OptimizeLoopDevices e devices w2) as [[] w3]; cbn [fst snd negb] in Hc1 |- *.
  2: { intros _. exists c1. rewrite bind_unfold. cbv beta. ret_step.
       by rewrite AutoDetachLoopDevices_trace, Hc1, <- app_assoc. }
  rewrite bind_unfold.
  assert (∃ c2, trace (snd ((if Nat.ltb 1 (length devices)
                             then MapWithLoopDeviceList e this devices name timeout_ms p
                             else ret (true, p)) w3)) = trace w3 ++ c2) as (c2 & Hc2).
  { destruct (Nat.ltb 1 (length devices)).
    - apply MapWithLoopDeviceList_extends.
    - exists []. ret_step. by rewrite app_nil_r. }
  destruct ((if Nat.ltb 1 (length devices)
             then MapWithLoopDeviceList e this devices name timeout_ms p
             else ret (true, p)) w3) as [[[] p1] w4]; cbn [fst snd negb] in Hc2 |- *.
  2: { intros _. exists (c1 ++ c2). rewrite bind_unfold. cbv beta. ret_step.
       by rewrite AutoDetachLoopDevices_trace, Hc2, Hc1, <- !app_assoc. }
  rewrite bind_unfold. unfold WriteStringToFile, attempt.
  match goal with
  | |- context [if fails e ?h ?c then _ else _] => destruct (fails e h c)
  end; cbn [fst snd negb]; [|done].
  intros _.
  exists (c1 ++ c2 ++ [call_WriteStringToFile ("loop:" +:+ back devices)
                         (GetStatusFilePath this name)]).
  rewrite bind_unfold. cbv beta. ret_step.
  rewrite AutoDetachLoopDevices_trace. cbn [trace log].
  rewrite (proj2 (proj2 (proj2 (after_failed_write_frame e _ _)))).
  by rewrite Hc2, Hc1, <- !app_assoc.
Qed.

End Failures.

Lemma MapWithLoopDevice_failure_detaches_witness :
  let e := Scenario.device Cases.second_attach_fails false Scenario.two_files in
  let header := GetImageHeaderPath Scenario.manager "img" in
  let w1 := log (call_GetSplitFileList header) Scenario.unmapped in
  let attached := attach_files e (split_file_list e header) 1000 (now e (trace w1)) [] w1 in
  let result := MapWithLoopDevice e Scenario.manager "img" 1000 "" Scenario.unmapped in
  fst attached = ["/dev/block/loop0"] ∧
  ∃ calls, trace (snd result) =
           trace (snd attached) ++ calls ++ List.map call_loop_Detach (fst attached).
Proof.
  intros e header w1 attached result. split; [vm_compute; reflexivity|].
  apply (MapWithLoopDevice_failure_detaches e Scenario.manager "img" 1000 ""
           Scenario.unmapped); vm_compute; reflexivity.
Defined.

Section DmLinearFailure.

Variable e : Env.
Variable this : ImageManager.

(** X20: a [MapWithDmLinear] that fails leaves nothing behind, provided the
    name was free and the destruction of the node does not fail: nodes,
    properties and loop devices are as before, whether it failed at the
    metadata, at the creation of the node or at the status write, and so are
    the status files, but for a record of the image that was there already:
    a write that fails after opening the file takes that record away. *)
Theorem MapWithDmLinear_failure_leaves_nothing
    (name : string) (timeout_ms : Z) (p : string) (w : World) :
  let status_file := GetStatusFilePath this name in
  name ∉ dm_nodes w →
  (∀ h, fails e h (call_DestroyLogicalPartition name) = false) →
  let result := MapWithDmLinear e this name timeout_ms p w in
  fst (fst result) = false →
  dm_nodes (snd result) = dm_nodes w ∧
  props (snd result) = props w ∧ loops (snd result) = loops w ∧
  (files (snd result) = files w ∨ files (snd result) = delete status_file (files w)) ∧
  (files w !! status_file = None → files (snd result) = files w).
Proof.
  intros status_file Hfree Hdestroy result Hfail.
  assert (dm_nodes (snd result) = dm_nodes w ∧
          props (snd result) = props w ∧ loops (snd result) = loops w ∧
          (files (snd result) = files w ∨
           files (snd result) = delete status_file (files w))) as (Hd & Hp & Hl & Hf).
  { destruct result as [[ok path] w'] eqn:Hres. cbn [fst snd] in Hfail |- *. subst ok result.
    unfold MapWithDmLinear in Hres. rewrite bind_unfold in Hres.
    unfold OpenMetadata in Hres. cbn [fst snd] in Hres.
    destruct (if fails e _ _ then None else metadata w);
      [|injection Hres as _ <-; repeat split; by left].
    rewrite bind_unfold in Hres. unfold CreateLogicalPartition in Hres.
    rewrite bind_unfold in Hres. unfold attempt in Hres.
    destruct (fails e _ (call_CreateLogicalPartition name timeout_ms));
      unfold ret in Hres; cbn [fst snd negb] in Hres;
      [injection Hres as _ <-; repeat split; by left|].
    rewrite bind_unfold in Hres. unfold WriteStringToFile in Hres.
    destruct (fails e _ (call_WriteStringToFile _ _)); cbn [fst snd negb] in Hres; [|done].
    rewrite bind_unfold in Hres. fold status_file in Hres.
    match type of Hres with
    | context [after_failed_write e status_file ?w2] =>
        destruct (after_failed_write_frame e status_file w2) as (Hp2 & Hd2 & Hl2 & _);
        pose proof (after_failed_write_files e status_file w2) as Hf2;
        set (wf := after_failed_write e status_file w2) in *
    end.
    cbn [props files dm_nodes loops set_dm_nodes log] in Hp2, Hd2, Hl2, Hf2.
    unfold DestroyLogicalPartition in Hres. cbn [dm_nodes log] in Hres.
    rewrite Hd2 in Hres.
    destruct (decide _) as [_|Hout]; [|by destruct Hout; apply added_is_member].
    unfold attempt in Hres. rewrite Hdestroy in Hres. cbn [fst snd] in Hres.
    injection Hres as _ <-.
    cbn [dm_nodes files props loops set_dm_nodes log].
    rewrite Hd2, Hp2, Hl2.
    split; [by rewrite add_then_remove, remove_absent|]. done. }
  split; [done|]. split; [done|]. split; [done|]. split; [done|].
  intros Hnone. destruct Hf as [->| ->]; [done|]. by apply delete_id.
Qed.

End DmLinearFailure.

Lemma MapWithDmLinear_failure_leaves_nothing_witness :
  let e := Scenario.device Cases.write_fails true Scenario.one_file in
  let status_file := GetStatusFilePath Scenario.manager "img" in
  let result := MapWithDmLinear e Scenario.manager "img" 1000 "" Cases.stale_record in
  trace (snd result) =
    [call_OpenMetadata "/metadata/gsi/dsu";
     call_CreateLogicalPartition "img" 1000;
     call_WriteStringToFile "dm:img" "/metadata/gsi/dsu/img.status";
     call_DestroyLogicalPartition "img"] ∧
  files Cases.stale_record !! status_file = Some "loop:/dev/block/loop0" ∧
  files (snd result) !! status_file = None ∧
  (dm_nodes (snd result) = dm_nodes Cases.stale_record ∧
   props (snd result) = props Cases.stale_record ∧
   loops (snd result) = loops Cases.stale_record ∧
   (files (snd result) = files Cases.stale_record ∨
    files (snd result) = delete status_file (files Cases.stale_record)) ∧
   (files Cases.stale_record !! status_file = None →
    files (snd result) = files Cases.stale_record)).
Proof.
  intros e status_file result. split; [vm_compute; reflexivity|].
  split; [vm_compute; reflexivity|]. split; [vm_compute; reflexivity|].
  apply (MapWithDmLinear_failure_leaves_nothing e Scenario.manager "img" 1000 ""
           Cases.stale_record).
  - apply (bool_decide_unpack _). vm_compute. exact I.
  - intros h. reflexivity.
  - vm_compute; reflexivity.
Defined.

(** ** One image at a time *)

Section OtherImages.

Variable e : Env.
Variable this : ImageManager.

Lemma unmap_lines_frame (lines : list string) (w : World) :
  files (snd (unmap_lines e lines w)) = files w ∧
  props (snd (unmap_lines e lines w)) = props w.
Proof.
  revert w. induction lines as [|line rest IH]; intros w; [done|].
  cbn [unmap_lines].
  destruct (Split line colon_char) as [|tag [|arg [|]]]; try apply IH.
  destruct (String.eqb tag "dm").
  - rewrite bind_unfold.
    assert (files (snd (dm_DeleteDeviceIfExists e arg w)) = files w ∧
            props (snd (dm_DeleteDeviceIfExists e arg w)) = props w) as [Hf Hp].
    { unfold dm_DeleteDeviceIfExists, attempt.
      destruct (decide _); [destruct (fails e _ _)|]; done. }
    destruct (dm_DeleteDeviceIfExists e arg w) as [[] w1]; cbn [fst snd negb] in *.
    + destruct (IH w1) as [-> ->]. by rewrite Hf, Hp.
    + by ret_step.
  - destruct (String.eqb tag "loop"); [|apply IH].
    rewrite bind_unfold.
    destruct (IH (snd (loop_Detach e arg w))) as [-> ->].
    unfold loop_Detach, attempt. by destruct (fails e _ _).
Qed.

(** X21: an unmap of one image, forced or not, failing or not, leaves the
    status file and the property of every other image as they were. *)
Theorem UnmapImageDevice_leaves_other_images
    (name other : string) (force : bool) (w : World) :
  other ≠ name →
  let result := UnmapImageDevice e this name force w in
  files (snd result) !! GetStatusFilePath this other =
    files w !! GetStatusFilePath this other ∧
  props (snd result) !! GetStatusPropertyName other =
    props w !! GetStatusPropertyName other.
Proof.
  intros Hother result. subst result.
  assert (GetStatusFilePath this name ≠ GetStatusFilePath this other) as Hfile.
  { unfold GetStatusFilePath, JoinPaths. intros Heq.
    apply append_cancel_r in Heq. do 2 apply append_cancel_l in Heq. by subst. }
  assert (GetStatusPropertyName name ≠ GetStatusPropertyName other) as Hprop.
  { unfold GetStatusPropertyName. intros Heq. apply append_cancel_l in Heq. by subst. }
  destruct (unmap_refused_only_called name force w)
    as (calls & (Hp0 & Hf0 & _) & _).
  unfold UnmapImageDevice. rewrite bind_unfold.
  destruct (unmap_refused name force w) as [[] w0]; cbn [fst snd] in *.
  { ret_step. by rewrite Hp0, Hf0. }
  rewrite bind_unfold, ReadFileToString_world.
  destruct (ReadFileToString e _ w0).1 as [status|];
    [|ret_step; cbn [files props log]; by rewrite Hp0, Hf0].
  rewrite bind_unfold.
  destruct (unmap_lines_frame (Split status nl_char)
              (log (call_ReadFileToString (GetStatusFilePath this name)) w0)) as [Hf1 Hp1].
  cbn [files props log] in Hf1, Hp1.
  destruct (unmap_lines e _ _) as [[] w1]; cbn [fst snd negb] in *;
    [|ret_step; by rewrite Hf1, Hp1, Hp0, Hf0].
  rewrite !bind_unfold. cbv beta. ret_step.
  unfold SetProperty, RemoveFileIfExists, attempt.
  repeat match goal with
         | |- context [if fails e ?h ?c then _ else _] => destruct (fails e h c)
         end;
    cbn [fst snd files props set_props set_files log];
    rewrite ?lookup_insert_ne, ?lookup_delete_ne by done;
    by rewrite Hf1, Hp1, Hp0, Hf0.
Qed.

End OtherImages.

Lemma UnmapImageDevice_leaves_other_images_witness :
  let e := Scenario.device Scenario.never true Scenario.two_files in
  let result := UnmapImageDevice e Scenario.manager "A" false Scenario.three_images in
  fst result = true ∧
  (files (snd result) !! GetStatusFilePath Scenario.manager "B" =
     files Scenario.three_images !! GetStatusFilePath Scenario.manager "B" ∧
   props (snd result) !! GetStatusPropertyName "B" =
     props Scenario.three_images !! GetStatusPropertyName "B").
Proof.
  intros e result. split; [vm_compute; reflexivity|].
  apply (UnmapImageDevice_leaves_other_images e Scenario.manager "A" "B" false
           Scenario.three_images).
  discriminate.
Defined.

(** ** When nothing fails *)

Section NothingFails.

Variable e : Env.
Variable this : ImageManager.
Hypothesis never_fails : ∀ h c, fails e h c = false.

(** The mapping by device-mapper, run forward. *)
Lemma MapImageDevice_dm_linear_runs
    (name : string) (timeout_ms : Z) (p : string) (w : World) :
  fst (IsImageMapped name w) = false →
  snd (block_device_for_file e (GetImageHeaderPath this name)) = true →
  is_Some (metadata w) →
  let result := MapImageDevice e this name timeout_ms p w in
  fst result = (true, dm_path e name) ∧
  dm_nodes (snd result) = {[name]} ∪ dm_nodes w ∧
  files (snd result) = <[GetStatusFilePath this name := "dm:" +:+ name]> (files w) ∧
  props (snd result) = <[GetStatusPropertyName name := dm_path e name]> (props w) ∧
  loops (snd result) = loops w ∧
  ∃ calls, trace (snd result) = trace w ++ calls.
Proof.
  intros Hfree Hdm [md Hmd] result. subst result.
  destruct (IsImageMapped_spec name w) as (_ & calls & Hcalls & _).
  destruct Hcalls as (Hp0 & Hf0 & Hd0 & Hl0 & _ & Hm0 & Ht0).
  unfold MapImageDevice. rewrite bind_unfold, Hfree.
  rewrite bind_unfold. unfold FiemapWriter_GetBlockDeviceForFile. cbn [fst snd].
  rewrite never_fails.
  destruct (block_device_for_file e (GetImageHeaderPath this name)) as [device can].
  cbn [snd] in Hdm. subst can.
  unfold MapWithDmLinear, OpenMetadata, CreateLogicalPartition, WriteStringToFile,
    SetProperty, attempt.
  repeat first [ rewrite bind_unfold | rewrite never_fails | progress ret_step
               | progress cbn [fst snd negb metadata log] | rewrite Hm0 | rewrite Hmd ].
  cbn [dm_nodes files props loops trace set_props set_files set_dm_nodes log].
  rewrite Hp0, Hf0, Hd0, Hl0, Ht0. repeat (split; [done|]).
  eexists. rewrite <- !app_assoc. reflexivity.
Qed.

(** X22: on storage that can take device-mapper, with metadata in place and
    no call failing, [MapImageDevice] of an image that is not mapped
    succeeds: it returns the path of the new node, the node is live, the
    status file holds the line [dm:] with the name, the property holds the
    path, and no loop device is attached. *)
Theorem MapImageDevice_dm_linear_succeeds
    (name : string) (timeout_ms : Z) (p : string) (w : World) :
  fst (IsImageMapped name w) = false →
  snd (block_device_for_file e (GetImageHeaderPath this name)) = true →
  is_Some (metadata w) →
  let result := MapImageDevice e this name timeout_ms p w in
  fst result = (true, dm_path e name) ∧
  dm_nodes (snd result) = {[name]} ∪ dm_nodes w ∧
  files (snd result) = <[GetStatusFilePath this name := "dm:" +:+ name]> (files w) ∧
  props (snd result) = <[GetStatusPropertyName name := dm_path e name]> (props w) ∧
  loops (snd result) = loops w ∧
  ∃ calls, trace (snd result) = trace w ++ calls.
Proof. apply MapImageDevice_dm_linear_runs. Qed.






End NothingFails.

Lemma MapImageDevice_dm_linear_succeeds_witness :
  let e := Scenario.device Scenario.never true Scenario.one_file in
  let result := MapImageDevice e Scenario.manager "img" 1000 "" Scenario.unmapped in
  fst result = (true, dm_path e "img") ∧
  dm_nodes (snd result) = {["img"]} ∪ dm_nodes Scenario.unmapped ∧
  files (snd result) =
    <[GetStatusFilePath Scenario.manager "img" := "dm:" +:+ "img"]>
      (files Scenario.unmapped) ∧
  props (snd result) =
    <[GetStatusPropertyName "img" := dm_path e "img"]> (props Scenario.unmapped) ∧
  loops (snd result) = loops Scenario.unmapped ∧
  ∃ calls, trace (snd result) = trace Scenario.unmapped ++ calls.
Proof.
  intros e result.
  apply (MapImageDevice_dm_linear_succeeds e Scenario.manager (fun h c => eq_refl)
           "img" 1000 "" Scenario.unmapped).
  - vm_compute; reflexivity.
  - vm_compute; reflexivity.
  - by eexists.
Defined.

